(** * Stock_xchange_APIproject: a shallow embedding of the ETL pipeline

    The development follows the Python modules of the repository:
    [transform] (transform.py), [aggregated] (aggregated.py), [load]
    (load.py) and [main2] (main2.py).  The embedding comes first, the
    theorems about it afterwards.

    Modelling conventions.
    - A pandas float64 cell is a [float]: [NaN], a finite value [Num q] held
      as an exact rational in lowest terms (rounding is not modelled), or an
      infinity [Inf].  Signed zeros are not modelled.
    - A DataFrame is its list of column labels together with its rows; a row
      carries the cells under the labels the pipeline reads.  Cells under
      other labels play no role in the code and are left out.
    - A raw cell is classified by what the pandas converter applied to its
      column makes of it ([pd.to_datetime], [pd.to_numeric]).
    - Text is ASCII; [str.upper] and [str.lower] act on the letters a-z, A-Z.
    - Exceptions caught by [except Exception] are values of [exn]; the text
      an exception carries is kept as a label.
    - [sort_values] is a parameter of the Normalizer: pandas sorts with an
      algorithm that may exchange rows of equal dates, so what depends on
      the sort is proved for every function that returns the same rows in
      date order.
    - The enterprise table is a list of rows under the constraints of its
      CREATE TABLE statement (primary key, unique key, CHECKs), fed by a
      sequence with the range of SERIAL. *)

From Stdlib Require Import List String Ascii Bool Arith ZArith QArith Qreduction.
From Stdlib Require Import Lia Permutation Sorted.
Import ListNotations.

Local Open Scope string_scope.
Local Open Scope list_scope.

(** ** Floats *)

Inductive float : Type :=
| NaN
| Num (q : Q)
| Inf (positive : bool).

Definition isna (x : float) : bool :=
  match x with NaN => true | _ => false end.

Definition is_num (x : float) : bool :=
  match x with Num _ => true | _ => false end.

Definition fneg (x : float) : float :=
  match x with
  | NaN => NaN
  | Num q => Num (Qred (- q))
  | Inf s => Inf (negb s)
  end.

Definition fadd (x y : float) : float :=
  match x, y with
  | NaN, _ | _, NaN => NaN
  | Num a, Num b => Num (Qred (a + b))
  | Inf s, Num _ | Num _, Inf s => Inf s
  | Inf s, Inf t => if Bool.eqb s t then Inf s else NaN
  end.

Definition fsub (x y : float) : float := fadd x (fneg y).

Definition Qsign_pos (q : Q) : bool := Qle_bool 0 q.

Definition Qis_zero (q : Q) : bool := Qeq_bool q 0.

Definition fdiv (x y : float) : float :=
  match x, y with
  | NaN, _ | _, NaN => NaN
  | Num a, Num b =>
      if Qis_zero b
      then (if Qis_zero a then NaN else Inf (Qsign_pos a))
      else Num (Qred (a / b))
  | Num _, Inf _ => Num 0
  | Inf s, Num b => Inf (Bool.eqb s (Qsign_pos b))
  | Inf _, Inf _ => NaN
  end.

(** [Series.fillna(0)] *)
Definition fillna0 (x : float) : float :=
  match x with NaN => Num 0 | _ => x end.

(** The values a skipna reduction sees. *)
Definition dropna (l : list float) : list float :=
  filter (fun x => negb (isna x)) l.

Definition fsum (l : list float) : float := fold_left fadd l (Num 0).

(** [mean] of a column or group, NaN skipped; NaN when nothing is left. *)
Definition mean (l : list float) : float :=
  match dropna l with
  | [] => NaN
  | xs => fdiv (fsum xs) (Num (inject_Z (Z.of_nat (List.length xs))))
  end.

(** [sum] of a float64 column or group, NaN skipped; 0 when nothing is
    left.  The sum of an integer column is taken in int64 and wraps around
    at 2^63; that is not modelled, and nothing is stated here of a total
    that large. *)
Definition sum (l : list float) : float := fsum (dropna l).

(** The finite values of a list, when all of them are finite. *)
Fixpoint all_finite (l : list float) : option (list Q) :=
  match l with
  | [] => Some []
  | Num q :: t =>
      match all_finite t with Some qs => Some (q :: qs) | None => None end
  | _ :: t => None
  end.

Definition Qsum (l : list Q) : Q := fold_left Qplus l 0.

Definition Qmean (l : list Q) : Q :=
  Qsum l / inject_Z (Z.of_nat (List.length l)).

(** Sum of squared deviations from the mean divided by n - 1. *)
Definition sample_variance (l : list Q) : Q :=
  let m := Qmean l in
  Qsum (map (fun x => (x - m) * (x - m)) l)
  / inject_Z (Z.of_nat (List.length l - 1)).

(** A float known as the square root of an exact rational: the result type
    of [std]. *)
Inductive root : Type :=
| RootNaN
| Root (radicand : Q).

(** [std] of a group (ddof = 1), NaN skipped: NaN with fewer than two
    values left, NaN when a value is infinite, otherwise the square root of
    the sample variance. *)
Definition std (l : list float) : root :=
  let xs := dropna l in
  if (List.length xs <? 2)%nat then RootNaN
  else match all_finite xs with
       | Some qs => Root (Qred (sample_variance qs))
       | None => RootNaN
       end.

(** ** Text *)

Definition upper_ascii (c : ascii) : ascii :=
  let n := nat_of_ascii c in
  if ((97 <=? n) && (n <=? 122))%nat then ascii_of_nat (n - 32) else c.

Definition lower_ascii (c : ascii) : ascii :=
  let n := nat_of_ascii c in
  if ((65 <=? n) && (n <=? 90))%nat then ascii_of_nat (n + 32) else c.

Fixpoint upper (s : string) : string :=
  match s with
  | EmptyString => EmptyString
  | String c t => String (upper_ascii c) (upper t)
  end.

Fixpoint lower (s : string) : string :=
  match s with
  | EmptyString => EmptyString
  | String c t => String (lower_ascii c) (lower t)
  end.

(** [x in labels] *)
Definition mem (x : string) (l : list string) : bool :=
  existsb (String.eqb x) l.

(** ** Dates *)

(** A calendar date.  [strftime("%Y-%m-%d")] writes it with four, two and
    two digits, so the order of the written dates is the lexicographic order
    on (year, month, day). *)
Record calendar_date : Type := mkDate { year : nat; month : nat; day : nat }.

Definition date_leb (a b : calendar_date) : bool :=
  if (year a <? year b)%nat then true
  else if (year b <? year a)%nat then false
  else if (month a <? month b)%nat then true
  else if (month b <? month a)%nat then false
  else (day a <=? day b)%nat.

Definition date_eqb (a b : calendar_date) : bool :=
  ((year a =? year b) && (month a =? month b) && (day a =? day b))%nat.

(** ** Frames *)

(** A row of the transformed frame: the cells under Date, OpenPrice, High,
    Low, ClosePrice, Volume, Symbol and DailyReturn ([None] is a missing
    date or symbol). *)
Record row : Type := mkRow {
  Date : option calendar_date;
  OpenPrice : float;
  High : float;
  Low : float;
  ClosePrice : float;
  Volume : float;
  Symbol : option string;
  DailyReturn : float
}.

Record frame : Type := mkFrame {
  columns : list string;
  rows : list row
}.

(** [pd.DataFrame()] *)
Definition empty_frame : frame := {| columns := []; rows := [] |}.

(** [df.empty]: some axis has length 0. *)
Definition empty (df : frame) : bool :=
  match columns df, rows df with
  | [], _ | _, [] => true
  | _, _ => false
  end.

(** ** Exceptions and the log *)

Inductive exn : Type :=
| DateParseError (text : string)     (* raised by pd.to_datetime *)
| ValueError (items : list string)   (* raised by aggregate_data, line 73 *)
| FileNotFoundError (text : string)  (* raised by load_data_to_postgres *)
| TypeError (text : string)
| OperationalError (text : string)   (* raised by psycopg2 *)
| AttributeError (text : string)     (* raised by the .str accessor *)
| AlreadyExists (label : string).    (* the ValueError of reset_index *)

Inductive level : Type := info | error.

(** A logged message: its constant text and the value formatted into it. *)
Inductive message : Type :=
| Msg (text : string)
| MsgLabels (text : string) (labels : list string)
| MsgExn (text : string) (e : exn)
| MsgPath (text : string) (path : option string).

Definition log_entry : Type := (level * message)%type.

(** * transform.py *)

Module transform.

(** A cell of the Date column before conversion, by what [pd.to_datetime]
    makes of it: NaT, a timestamp on the calendar date [d], or an error. *)
Inductive date_cell : Type :=
| DateMissing
| DateText (d : calendar_date)
| BadDate (text : string).

(** A cell of a numeric column before conversion, by what [pd.to_numeric]
    makes of it: a number, or (with errors="coerce") NaN. *)
Inductive num_cell : Type :=
| NumMissing
| NumText (q : Q)
| BadNum (text : string).

Record raw_row : Type := mkRaw {
  raw_Date : date_cell;
  raw_OpenPrice : num_cell;
  raw_High : num_cell;
  raw_Low : num_cell;
  raw_ClosePrice : num_cell;
  raw_Volume : num_cell;
  raw_Symbol : option string
}.

Record raw_frame : Type := mkRawFrame {
  raw_columns : list string;
  raw_rows : list raw_row
}.

Definition raw_empty (df : raw_frame) : bool :=
  match raw_columns df, raw_rows df with
  | [], _ | _, [] => true
  | _, _ => false
  end.

Definition expected_columns : list string :=
  ["Date"; "OpenPrice"; "High"; "Low"; "ClosePrice"; "Volume"; "Symbol"].

(** [all(col in df.columns for col in expected_columns)] *)
Definition has_expected_columns (labels : list string) : bool :=
  forallb (fun col => mem col labels) expected_columns.

(** [pd.to_datetime(df["Date"]).dt.strftime("%Y-%m-%d")]: the first cell that
    does not parse raises; NaT is written as a missing value. *)
Fixpoint to_datetime (cells : list date_cell) : exn + list (option calendar_date) :=
  match cells with
  | [] => inr []
  | c :: t =>
      match c with
      | BadDate s => inl (DateParseError s)
      | DateMissing =>
          match to_datetime t with
          | inl e => inl e
          | inr ds => inr (None :: ds)
          end
      | DateText d =>
          match to_datetime t with
          | inl e => inl e
          | inr ds => inr (Some d :: ds)
          end
      end
  end.

(** [pd.to_numeric(_, errors="coerce")] on one cell. *)
Definition to_numeric (c : num_cell) : float :=
  match c with
  | NumText q => Num (Qred q)
  | NumMissing | BadNum _ => NaN
  end.

(** [.str.upper()] on one cell. *)
Definition str_upper (c : option string) : option string :=
  match c with
  | Some s => Some (upper s)
  | None => None
  end.

(** Lines 57-63 on one row, given its converted date. *)
Definition convert_row (d : option calendar_date) (r : raw_row) : row :=
  {| Date := d;
     OpenPrice := to_numeric (raw_OpenPrice r);
     High := to_numeric (raw_High r);
     Low := to_numeric (raw_Low r);
     ClosePrice := to_numeric (raw_ClosePrice r);
     Volume := to_numeric (raw_Volume r);
     Symbol := str_upper (raw_Symbol r);
     DailyReturn := NaN |}.

Fixpoint convert_rows (ds : list (option calendar_date)) (rs : list raw_row)
  : list row :=
  match ds, rs with
  | d :: ds', r :: rs' => convert_row d r :: convert_rows ds' rs'
  | _, _ => []
  end.

(** The order of [sort_values(by=["Date"], ascending=True)]: dates as
    written, missing dates last. *)
Definition key_leb (a b : option calendar_date) : bool :=
  match a, b with
  | _, None => true
  | None, Some _ => false
  | Some x, Some y => date_leb x y
  end.

Fixpoint insert (x : row) (l : list row) : list row :=
  match l with
  | [] => [x]
  | y :: t =>
      if key_leb (Date x) (Date y) then x :: y :: t else y :: insert x t
  end.

(** [df.sort_values(by=["Date"], ascending=True, inplace=True)], as one
    sort among those pandas may run: rows with equal dates keep their
    relative order here, while the default algorithm of pandas (quicksort)
    is free to exchange them.  What depends on that order is stated for
    every sort, over [transform_data_by]. *)
Fixpoint sort_values (l : list row) : list row :=
  match l with
  | [] => []
  | x :: t => insert x (sort_values t)
  end.

(** The last value recorded for a group. *)
Fixpoint last_of (s : string) (hist : list (string * float)) : option float :=
  match hist with
  | [] => None
  | (k, v) :: t => if String.eqb k s then Some v else last_of s t
  end.

Definition or_nan (o : option float) : float :=
  match o with Some v => v | None => NaN end.

(** [groupby("Symbol")["ClosePrice"].pct_change()] computes
    [filled / shifted - 1], where [filled] is the column forward-filled
    within each group and [shifted] is [filled] moved down by one row within
    each group (forward filling is the default of pandas 2).  [hist] holds
    the filled values of the rows already passed, newest first.  A row whose
    key is missing belongs to no group. *)
Fixpoint pct_change (hist : list (string * float)) (l : list row)
  : list row :=
  match l with
  | [] => []
  | r :: t =>
      match Symbol r with
      | None => r :: pct_change hist t
      | Some s =>
          let shifted := or_nan (last_of s hist) in
          let filled :=
            if isna (ClosePrice r) then shifted else ClosePrice r in
          {| Date := Date r; OpenPrice := OpenPrice r; High := High r;
             Low := Low r; ClosePrice := ClosePrice r; Volume := Volume r;
             Symbol := Symbol r;
             DailyReturn := fsub (fdiv filled shifted) (Num 1) |}
          :: pct_change ((s, filled) :: hist) t
      end
  end.

(** [df["DailyReturn"] = ...] appends the label when it is new. *)
Definition with_label (l : string) (labels : list string) : list string :=
  if mem l labels then labels else labels ++ [l].

(** [df["Symbol"].str] refuses a column that has rows and holds no text:
    such a column is one of numbers or of missing values, not of objects. *)
Definition no_text (cells : list (option string)) : bool :=
  match cells with
  | [] => false
  | _ :: _ => forallb (fun c => match c with None => true | Some _ => false end)
                      cells
  end.

(** [transform_data(df)], with the sort of line 66 as [sort]: the check of
    the labels, the conversions of lines 57-63 (a date that does not parse
    and a Symbol column without text raise, and the [except] clause turns
    that into the empty frame), the sort, the returns. *)
Definition transform_data_by (sort : list row -> list row) (df : raw_frame)
  : frame * list log_entry :=
  if negb (has_expected_columns (raw_columns df)) then
    (empty_frame,
     [(error, MsgLabels "Dataset missing required columns. Found: "
                        (raw_columns df))])
  else
    match to_datetime (map raw_Date (raw_rows df)) with
    | inl e => (empty_frame, [(error, MsgExn "Error transforming data: " e)])
    | inr ds =>
        if no_text (map raw_Symbol (raw_rows df)) then
          (empty_frame,
           [(error, MsgExn "Error transforming data: "
                           (AttributeError
                              "Can only use .str accessor with string values!"))])
        else
          let converted := convert_rows ds (raw_rows df) in
          let sorted := sort converted in
          ({| columns := with_label "DailyReturn" (raw_columns df);
              rows := pct_change [] sorted |},
           [(info, Msg "Data transformed to standard format, including DailyReturn")])
    end.

(** [transform_data] with the order of equal dates fixed as [sort_values]
    fixes it. *)
Definition transform_data (df : raw_frame) : frame * list log_entry :=
  transform_data_by sort_values df.

End transform.

(** * aggregated.py *)

Module aggregated.

Definition required_columns : list string :=
  ["date"; "closeprice"; "volume"; "dailyreturn"; "symbol"].

(** One row of the aggregated frame. *)
Record summary_row : Type := mkSummary {
  symbol : string;
  averagedailyprice : float;
  totalvolume : float;
  dailyreturn : float;
  volatilityindex : root;
  movingavg5day : float;
  movingavg10day : float;
  maxdate : option calendar_date
}.

Record summary_frame : Type := mkSummaryFrame {
  summary_columns : list string;
  summary_rows : list summary_row
}.

Definition empty_summary : summary_frame :=
  {| summary_columns := []; summary_rows := [] |}.

Definition summary_empty (df : summary_frame) : bool :=
  match summary_columns df, summary_rows df with
  | [], _ | _, [] => true
  | _, _ => false
  end.

(** [transformed_data.columns = transformed_data.columns.str.lower()] *)
Definition lower_columns (df : frame) : frame :=
  {| columns := map lower (columns df); rows := rows df |}.

(** [required_columns - set(transformed_data.columns)] *)
Definition missing_columns (labels : list string) : list string :=
  filter (fun c => negb (mem c labels)) required_columns.

Definition fill_row (r : row) : row :=
  {| Date := Date r; OpenPrice := OpenPrice r; High := High r;
     Low := Low r; ClosePrice := ClosePrice r; Volume := Volume r;
     Symbol := Symbol r; DailyReturn := fillna0 (DailyReturn r) |}.

(** [transformed_data['dailyreturn'] = transformed_data['dailyreturn'].fillna(0)] *)
Definition fill_dailyreturn (df : frame) : frame :=
  {| columns := columns df; rows := map fill_row (rows df) |}.

(** *** groupby('symbol') *)

Fixpoint present (l : list (option string)) : list string :=
  match l with
  | [] => []
  | Some s :: t => s :: present t
  | None :: t => present t
  end.

Fixpoint insert_key (k : string) (l : list string) : list string :=
  match l with
  | [] => [k]
  | y :: t => if String.leb k y then k :: y :: t else y :: insert_key k t
  end.

Fixpoint sort_keys (l : list string) : list string :=
  match l with
  | [] => []
  | k :: t => insert_key k (sort_keys t)
  end.

(** The group keys: the distinct symbols that are not missing, in
    ascending order. *)
Definition group_keys (l : list row) : list string :=
  sort_keys (nodup string_dec (present (map Symbol l))).

Definition in_group (k : string) (r : row) : bool :=
  match Symbol r with
  | Some s => String.eqb s k
  | None => false
  end.

(** The rows of one group, in frame order. *)
Definition group (k : string) (l : list row) : list row :=
  filter (in_group k) l.

Definition later (a b : option calendar_date) : option calendar_date :=
  match a, b with
  | None, x | x, None => x
  | Some x, Some y => if date_leb x y then Some y else Some x
  end.

(** The latest of the dates of a list, missing dates left out. *)
Definition latest (l : list (option calendar_date)) : option calendar_date :=
  fold_left later l None.

Definition dated (d : option calendar_date) : bool :=
  match d with Some _ => true | None => false end.

(** A group that holds a written date and a missing one: its cells are text
    and a float NaN, which do not compare. *)
Definition mixed_dates (l : list (option calendar_date)) : bool :=
  existsb dated l && existsb (fun d => negb (dated d)) l.

(** [max] of the dates of one group: the latest date; a missing value when
    the group has no date; TypeError when the group mixes dates and missing
    dates. *)
Definition date_max (l : list (option calendar_date))
  : exn + option calendar_date :=
  if mixed_dates l
  then inl (TypeError
              "'>=' not supported between instances of 'str' and 'float'")
  else inr (latest l).

(** *** rolling(window).mean() *)

(** The mean of one full window: NaN unless every value in it is finite
    (an infinity counts as missing, and [min_periods] is the window size). *)
Definition window_mean (w : list float) : float :=
  match all_finite w with
  | Some qs => Num (Qred (Qmean qs))
  | None => NaN
  end.

(** The value of [rolling(window=n).mean()] at position [i]. *)
Definition rolling_at (n : nat) (l : list float) (i : nat) : float :=
  if (i + 1 <? n)%nat then NaN
  else window_mean (firstn n (skipn (i + 1 - n) l)).

Definition rolling_mean (n : nat) (l : list float) : list float :=
  map (rolling_at n l) (seq 0 (List.length l)).

(** [.iloc[-1]] *)
Definition iloc_last (l : list float) : float := last l NaN.

(** The lambda of lines 95-100 for one window size. *)
Definition moving_average (n : nat) (g : list row) : float :=
  if (n <=? List.length g)%nat
  then iloc_last (rolling_mean n (map ClosePrice g))
  else NaN.

(** *** merge(..., on='symbol', how='left') *)

Definition matches {B : Type} (k : string) (r : list (string * B))
  : list B :=
  map snd (filter (fun kb => String.eqb (fst kb) k) r).

Definition merge_left {A B : Type}
  (l : list (string * A)) (r : list (string * B))
  : list (string * (A * option B)) :=
  flat_map
    (fun ka =>
       match matches (fst ka) r with
       | [] => [(fst ka, (snd ka, None))]
       | bs => map (fun b => (fst ka, (snd ka, Some b))) bs
       end) l.

(** *** aggregate_data *)

(** [groupby('symbol')['date'].max()] over the groups [ks]: the first group
    whose dates do not compare raises. *)
Fixpoint max_dates (l : list row) (ks : list string)
  : exn + list (string * option calendar_date) :=
  match ks with
  | [] => inr []
  | k :: t =>
      match date_max (map Date (group k l)) with
      | inl e => inl e
      | inr d =>
          match max_dates l t with
          | inl e => inl e
          | inr r => inr ((k, d) :: r)
          end
      end
  end.

Definition max_date (l : list row)
  : exn + list (string * option calendar_date) :=
  max_dates l (group_keys l).

Definition company_performance_summary (l : list row)
  : list (string * (float * float * float)) :=
  map (fun k =>
         let g := group k l in
         (k, (mean (map ClosePrice g),
              sum (map Volume g),
              mean (map DailyReturn g))))
      (group_keys l).

Definition volatility_index (l : list row) : list (string * root) :=
  map (fun k => (k, std (map DailyReturn (group k l)))) (group_keys l).

Definition moving_averages (l : list row)
  : list (string * (float * float)) :=
  map (fun k =>
         let g := group k l in
         (k, (moving_average 5 g, moving_average 10 g)))
      (group_keys l).

Definition to_summary
  (x : string *
       ((((float * float * float) * option root) * option (float * float))
        * option (option calendar_date)))
  : summary_row :=
  let '(k, (((avg, tot, ret), vol), mov, md)) := x in
  {| symbol := k;
     averagedailyprice := avg;
     totalvolume := tot;
     dailyreturn := ret;
     volatilityindex := match vol with Some v => v | None => RootNaN end;
     movingavg5day := match mov with Some m => fst m | None => NaN end;
     movingavg10day := match mov with Some m => snd m | None => NaN end;
     maxdate := match md with Some d => d | None => None end |}.

Definition aggregated_columns : list string :=
  ["symbol"; "averagedailyprice"; "totalvolume"; "dailyreturn";
   "volatilityindex"; "movingavg5day"; "movingavg10day"; "maxdate"].

(** The result of a call: the returned frame, the caller's frame as the call
    leaves it, and the log. *)
Record outcome : Type := mkOutcome {
  returned : summary_frame;
  caller_frame : frame;
  logged : list log_entry
}.

(** [aggregate_data(transformed_data)]: the labels are put in small letters
    first; the check of the required labels raises ValueError; otherwise the
    missing returns are replaced, the latest dates are taken (line 79, which
    raises on a group that mixes dates and missing dates), the group tables
    are computed and joined.  On a frame without any group the table of
    line 94 comes back with the labels of the frame, and [reset_index]
    raises because the label symbol is already there.  The [except] clause
    turns every exception into an empty frame and an error in the log; the
    caller's frame keeps what was done to it before. *)
Definition aggregate_data (transformed_data : frame) : outcome :=
  let available := (info, MsgLabels "Available columns in data: "
                                    (columns transformed_data)) in
  let failed (df : frame) (e : exn) :=
    {| returned := empty_summary;
       caller_frame := df;
       logged := [available;
                  (error, MsgExn "Error during data aggregation: " e)] |} in
  let df := lower_columns transformed_data in
  match missing_columns (columns df) with
  | (_ :: _) as missing => failed df (ValueError missing)
  | [] =>
      let df := fill_dailyreturn df in
      let l := rows df in
      match max_date l with
      | inl e => failed df e
      | inr dates =>
          match group_keys l with
          | [] => failed df (AlreadyExists "symbol")
          | _ :: _ =>
              let aggregated_data :=
                merge_left
                  (merge_left
                     (merge_left (company_performance_summary l)
                                 (volatility_index l))
                     (moving_averages l))
                  dates in
              {| returned := {| summary_columns := aggregated_columns;
                                summary_rows :=
                                  map to_summary aggregated_data |};
                 caller_frame := df;
                 logged :=
                   [available;
                    (info, Msg "Data aggregation completed successfully.")] |}
          end
      end
  end.

End aggregated.

(** * load.py *)

Module load.

(** A row of stg.stock_data or edw.stock_data.  Every column is NOT NULL. *)
Record stock_row : Type := mkStock {
  RecordID : Z;
  date : calendar_date;
  open : Q;
  high : Q;
  low : Q;
  close : Q;
  volume : Z;
  symbol : string
}.

(** The two tables and the sequence behind edw.stock_data.RecordID. *)
Record database : Type := mkDatabase {
  stg_stock_data : list stock_row;
  edw_stock_data : list stock_row;
  edw_RecordID_seq : Z
}.

(** UNIQUE (symbol, date) *)
Definition same_key (a b : stock_row) : bool :=
  String.eqb (symbol a) (symbol b) && date_eqb (date a) (date b).

(** The CHECK constraints of the table. *)
Definition checks (r : stock_row) : bool :=
  Qle_bool 0 (open r) && Qle_bool 0 (high r) && Qle_bool 0 (low r)
  && Qle_bool 0 (close r) && (0 <=? volume r)%Z.

Inductive sql_error : Type :=
| check_violation
| cardinality_violation  (* ON CONFLICT DO UPDATE cannot affect row a second time *)
| unique_violation       (* duplicate key value violates stock_data_pkey *)
| sequence_exhausted.    (* nextval: reached maximum value of sequence *)

(** DO UPDATE SET open = EXCLUDED.open, ..., volume = EXCLUDED.volume *)
Definition do_update (existing excluded : stock_row) : stock_row :=
  {| RecordID := RecordID existing;
     date := date existing;
     open := open excluded;
     high := high excluded;
     low := low excluded;
     close := close excluded;
     volume := volume excluded;
     symbol := symbol existing |}.

Definition with_id (id : Z) (r : stock_row) : stock_row :=
  {| RecordID := id; date := date r; open := open r; high := high r;
     low := low r; close := close r; volume := volume r;
     symbol := symbol r |}.

(** The table with [r] put in: the row [r] conflicts with is updated, or
    [r] is added under the identifier [id]. *)
Fixpoint put (r : stock_row) (id : Z) (tbl : list stock_row)
  : list stock_row :=
  match tbl with
  | [] => [with_id id r]
  | x :: t =>
      if same_key x r then do_update x r :: t else x :: put r id t
  end.

(** The arbiter index on (symbol, date) finds a row for [r]. *)
Definition conflicts (r : stock_row) (tbl : list stock_row) : bool :=
  existsb (fun x => same_key x r) tbl.

(** RecordID ... PRIMARY KEY: some row has the identifier [id]. *)
Definition has_id (id : Z) (tbl : list stock_row) : bool :=
  existsb (fun x => (RecordID x =? id)%Z) tbl.

(** One proposed row: the row it conflicts with is updated; without a
    conflict it is inserted under the identifier drawn for it, which the
    primary key refuses when a row has that identifier already. *)
Definition upsert (r : stock_row) (id : Z) (tbl : list stock_row)
  : sql_error + list stock_row :=
  if negb (conflicts r tbl) && has_id id tbl then inl unique_violation
  else inr (put r id tbl).

(** RecordID SERIAL: a 4-byte integer fed by a sequence that stops at
    2147483647. *)
Definition serial_max : Z := 2147483647.

(** [nextval] fails: [seq] is the value the sequence would give next. *)
Definition exhausted (seq : Z) : bool := (serial_max <? seq)%Z.

Arguments exhausted : simpl never.

(** INSERT INTO edw.stock_data (...) SELECT ... FROM stg.stock_data
    ON CONFLICT (symbol, date) DO UPDATE SET ...
    Each proposed row draws its identifier from the sequence first, which
    fails when the sequence is used up.  A row that fails a CHECK, that
    meets a row this statement already inserted or updated, or that is
    inserted under an identifier already in the table aborts the statement.
    [touched] holds the proposed rows already applied.  The sequence keeps
    what was drawn. *)
Fixpoint insert_on_conflict
  (src touched : list stock_row) (tbl : list stock_row) (seq : Z)
  : (sql_error + list stock_row) * Z :=
  match src with
  | [] => (inr tbl, seq)
  | r :: t =>
      if exhausted seq then (inl sequence_exhausted, seq)
      else if negb (checks r) then (inl check_violation, seq + 1)%Z
      else if existsb (same_key r) touched
           then (inl cardinality_violation, seq + 1)%Z
           else match upsert r seq tbl with
                | inl e => (inl e, seq + 1)%Z
                | inr tbl' =>
                    insert_on_conflict t (r :: touched) tbl' (seq + 1)%Z
                end
  end.

(** [connected] tells whether [psycopg2.connect] succeeds.  A statement that
    fails is rolled back when the connection is closed without a commit. *)
Definition move_data_to_edw (connected : bool) (db : database)
  : database * list log_entry :=
  if negb connected then
    (db, [(error, MsgExn "Error moving data to EDW: "
                         (OperationalError "connect"))])
  else
    match insert_on_conflict (stg_stock_data db) [] (edw_stock_data db)
                             (edw_RecordID_seq db) with
    | (inr tbl, seq) =>
        ({| stg_stock_data := stg_stock_data db;
            edw_stock_data := tbl;
            edw_RecordID_seq := seq |},
         [(info, Msg "Data moved to EDW table successfully.")])
    | (inl e, seq) =>
        ({| stg_stock_data := stg_stock_data db;
            edw_stock_data := edw_stock_data db;
            edw_RecordID_seq := seq |},
         [(error, MsgExn "Error moving data to EDW: "
                         (OperationalError
                            match e with
                            | check_violation => "check"
                            | cardinality_violation => "cardinality"
                            | unique_violation => "unique"
                            | sequence_exhausted => "sequence"
                            end))])
    end.

(** The files the process can see: the size of the file at a path, [None]
    when [os.path.exists] is false. *)
Definition filesystem : Type := string -> option N.

Inductive result : Type :=
| Returned
| Raised (e : exn).

(** [load_data_to_postgres(input_file)]: the check of line 100, then two
    local assignments; the function ends there. *)
Definition load_data_to_postgres
  (fs : filesystem) (input_file : string) (db : database)
  : result * database * list log_entry :=
  let starting := (info, Msg "Starting data load process.") in
  match fs input_file with
  | None =>
      (Raised (FileNotFoundError "No data available for loading."), db,
       [starting; (error, Msg "Transformed data file is missing or empty.")])
  | Some size =>
      if (size =? 0)%N then
        (Raised (FileNotFoundError "No data available for loading."), db,
         [starting;
          (error, Msg "Transformed data file is missing or empty.")])
      else (Returned, db, [starting])
  end.

End load.

(** * main2.py *)

Module main2.

(** The stage functions the driver can call. *)
Inductive call : Type :=
| create_schemas_and_tables
| ensure_directory_exists
| extract_data
| save_with_timestamp (prefix : string)
| transform_data
| load_data_to_postgres (file : option string)
| move_data_to_edw
| aggregate_data.

(** What a run can observe and change: the files, the warehouse, the log and
    the stage functions called so far (oldest first). *)
Record world : Type := mkWorld {
  files : load.filesystem;
  db : load.database;
  log : list log_entry;
  calls : list call
}.

(** What the collaborators answer during a run: the frame [extract_data]
    returns, for each prefix the path and size of the file [to_csv] writes
    ([None] when writing fails), and whether the warehouse accepts a
    connection. *)
Record env : Type := mkEnv {
  extracted : transform.raw_frame;
  to_csv : string -> option (string * N);
  connected : bool
}.

(** Computations that change the world and may raise. *)
Definition M (A : Type) : Type := world -> (exn + A) * world.

Definition ret {A : Type} (a : A) : M A := fun w => (inr a, w).

Definition raise {A : Type} (e : exn) : M A := fun w => (inl e, w).

Definition bind {A B : Type} (m : M A) (k : A -> M B) : M B :=
  fun w =>
    match m w with
    | (inl e, w') => (inl e, w')
    | (inr a, w') => k a w'
    end.

Notation "x <- m ;; k" := (bind m (fun x => k))
  (at level 61, m at next level, right associativity).
Notation "m ;; k" := (bind m (fun _ => k))
  (at level 61, right associativity).

Definition log_message (l : level) (m : message) : M unit :=
  fun w => (inr tt, {| files := files w; db := db w;
                       log := log w ++ [(l, m)]; calls := calls w |}).

Definition log_all (entries : list log_entry) : M unit :=
  fun w => (inr tt, {| files := files w; db := db w;
                       log := log w ++ entries; calls := calls w |}).

Definition called (c : call) : M unit :=
  fun w => (inr tt, {| files := files w; db := db w;
                       log := log w; calls := calls w ++ [c] |}).

Definition write_file (path : string) (size : N) : M unit :=
  fun w => (inr tt, {| files := fun p => if String.eqb p path
                                         then Some size else files w p;
                       db := db w; log := log w; calls := calls w |}).

(** [aggregated.save_with_timestamp(df, output_directory, prefix)]: the path
    of the file written, [None] when writing raised. *)
Definition save (e : env) (prefix : string) : M (option string) :=
  called (save_with_timestamp prefix) ;;
  match to_csv e prefix with
  | Some (path, size) =>
      write_file path size ;;
      log_message info (MsgPath "Aggregated data saved to " (Some path)) ;;
      ret (Some path)
  | None =>
      log_message error (MsgPath "Error saving aggregated file: " None) ;;
      ret None
  end.

(** [load.load_data_to_postgres(transformed_file)].  Without a path the
    function logs its first line, and [os.path.exists(None)] raises
    TypeError. *)
Definition load_stage (file : option string) : M unit :=
  called (load_data_to_postgres file) ;;
  match file with
  | None =>
      log_message info (Msg "Starting data load process.") ;;
      raise (TypeError
               "stat: path should be string, bytes, os.PathLike or integer, not NoneType")
  | Some path =>
      fun w =>
        match load.load_data_to_postgres (files w) path (db w) with
        | (r, db', entries) =>
            (match r with
             | load.Returned => inr tt
             | load.Raised x => inl x
             end,
             {| files := files w; db := db'; log := log w ++ entries;
                calls := calls w |})
        end
  end.

Definition move_stage (e : env) : M unit :=
  called move_data_to_edw ;;
  fun w =>
    let '(db', entries) := load.move_data_to_edw (connected e) (db w) in
    (inr tt, {| files := files w; db := db'; log := log w ++ entries;
                calls := calls w |}).

Definition transform_stage (df : transform.raw_frame) : M frame :=
  called transform_data ;;
  let '(out, entries) := transform.transform_data df in
  log_all entries ;;
  ret out.

Definition aggregate_stage (df : frame) : M aggregated.summary_frame :=
  called aggregate_data ;;
  let o := aggregated.aggregate_data df in
  log_all (aggregated.logged o) ;;
  ret (aggregated.returned o).

(** [main()].  The log lines that [create_schemas_and_tables],
    [ensure_directory_exists] and [extract_data] write on their own are not
    part of the model. *)
Definition main (e : env) : M unit :=
  log_message info (Msg "ETL process started") ;;
  log_message info (Msg "Creating schemas and tables") ;;
  called create_schemas_and_tables ;;
  called ensure_directory_exists ;;
  log_message info (Msg "Starting extraction phase") ;;
  called extract_data ;;
  let extracted_data := extracted e in
  (if negb (transform.raw_empty extracted_data) then
     _ <- save e "extracted_stock_data" ;;
     log_message info (Msg "Starting transformation phase") ;;
     transformed_data <- transform_stage extracted_data ;;
     if negb (empty transformed_data) then
       transformed_file <- save e "transformed_data" ;;
       log_message info (Msg "Starting load phase") ;;
       load_stage transformed_file ;;
       log_message info (Msg "Moving data to EDW") ;;
       move_stage e ;;
       log_message info (Msg "Starting aggregation phase") ;;
       aggregated_data <- aggregate_stage transformed_data ;;
       (if negb (aggregated.summary_empty aggregated_data) then
          aggregated_file <- save e "aggregated_data" ;;
          log_message info (MsgPath "Aggregated data saved to: "
                                    aggregated_file)
        else
          log_message error
            (Msg "Aggregation failed. No aggregated data produced.")) ;;
       log_message info (Msg "ETL pipeline completed successfully.")
     else
       log_message error
         (Msg "Transformation failed. ETL process terminated.")
   else
     log_message error (Msg "Extraction failed. ETL process terminated.")) ;;
  log_message info (Msg "ETL process completed").

End main2.

(** * Vocabulary of the statements *)

Module transform_spec.
Import transform.

(** The calendar date of a cell that parses; a missing value for NaT. *)
Definition date_of (c : date_cell) : option calendar_date :=
  match c with
  | DateText d => Some d
  | DateMissing | BadDate _ => None
  end.

Definition parses (c : date_cell) : bool :=
  match c with BadDate _ => false | _ => true end.

(** One input row in canonical form, before the return is computed. *)
Definition normalize (r : raw_row) : row :=
  convert_row (date_of (raw_Date r)) r.

(** A row with its DailyReturn cell blanked. *)
Definition clear_return (r : row) : row :=
  {| Date := Date r; OpenPrice := OpenPrice r; High := High r;
     Low := Low r; ClosePrice := ClosePrice r; Volume := Volume r;
     Symbol := Symbol r; DailyReturn := NaN |}.

Definition has_symbol (s : string) (r : row) : bool :=
  match Symbol r with
  | Some k => String.eqb k s
  | None => false
  end.

(** The sub-sequence of one symbol. *)
Definition rows_of (s : string) (l : list row) : list row :=
  filter (has_symbol s) l.

(** The order [sort_values] puts rows in. *)
Definition key_le (x y : row) : Prop := key_leb (Date x) (Date y) = true.

(** Strictly earlier in that order. *)
Definition key_lt (x y : row) : Prop := key_leb (Date y) (Date x) = false.

(** Dates strictly increase along the list: no two rows share a date. *)
Fixpoint strictly_ascending (l : list row) : bool :=
  match l with
  | [] => true
  | x :: t =>
      forallb (fun y => negb (key_leb (Date y) (Date x))) t
      && strictly_ascending t
  end.

(** What line 66 asks of a sort: the same rows, in an order where dates
    never decrease.  The place of rows with equal dates is left open, as
    pandas leaves it to the sorting algorithm. *)
Definition sorts (sort : list row -> list row) : Prop :=
  (forall l, Permutation (sort l) l) /\
  (forall l, StronglySorted key_le (sort l)).

(** The call went through to line 71: its log is the entry written there. *)
Definition accepted (sort : list row -> list row) (df : raw_frame) : Prop :=
  snd (transform_data_by sort df) =
  [(info, Msg "Data transformed to standard format, including DailyReturn")].

(** [Series.pct_change()] on the rows of a single series: [prev] is the
    filled value of the row before, if there is one. *)
Fixpoint series_pct_change (prev : option float) (l : list row) : list row :=
  match l with
  | [] => []
  | r :: t =>
      let shifted := or_nan prev in
      let filled := if isna (ClosePrice r) then shifted else ClosePrice r in
      {| Date := Date r; OpenPrice := OpenPrice r; High := High r;
         Low := Low r; ClosePrice := ClosePrice r; Volume := Volume r;
         Symbol := Symbol r;
         DailyReturn := fsub (fdiv filled shifted) (Num 1) |}
      :: series_pct_change (Some filled) t
  end.

(** Presence of the expected labels when the spelling of letters is
    ignored. *)
Definition has_expected_columns_nocase (labels : list string) : bool :=
  forallb (fun col => existsb (fun l => String.eqb (lower l) (lower col))
                              labels)
          expected_columns.

Definition day1 : calendar_date := mkDate 2024 1 1.
Definition day2 : calendar_date := mkDate 2024 1 2.

Definition quote (d : date_cell) (c : num_cell) (s : string) : raw_row :=
  {| raw_Date := d; raw_OpenPrice := c; raw_High := c; raw_Low := c;
     raw_ClosePrice := c; raw_Volume := NumText 1000;
     raw_Symbol := Some s |}.

(** The two AAPL rows of the scenario of the specification. *)
Definition aapl_batch : raw_frame :=
  {| raw_columns := expected_columns;
     raw_rows := [quote (DateText day1) (NumText 100) "AAPL";
                  quote (DateText day2) (NumText 110) "AAPL"] |}.

(** The same rows under labels written in small letters. *)
Definition lowercase_batch : raw_frame :=
  {| raw_columns := map lower expected_columns;
     raw_rows := raw_rows aapl_batch |}.

(** A batch without the Volume column. *)
Definition no_volume_batch : raw_frame :=
  {| raw_columns := ["Date"; "OpenPrice"; "High"; "Low"; "ClosePrice";
                     "Symbol"];
     raw_rows := raw_rows aapl_batch |}.


(** Two rows for the same symbol and date. *)
Definition duplicate_batch : raw_frame :=
  {| raw_columns := expected_columns;
     raw_rows := [quote (DateText day1) (NumText 100) "AAPL";
                  quote (DateText day1) (NumText 101) "AAPL"] |}.

(** Two rows in date order, the first with a close that is not a number. *)
Definition bad_close_batch : raw_frame :=
  {| raw_columns := expected_columns;
     raw_rows := [quote (DateText day1) (BadNum "n/a") "AAPL";
                  quote (DateText day2) (NumText 110) "AAPL"] |}.

(** Rows whose Symbol cells hold no text, as a column of numbers read from
    a file does. *)
Definition no_symbol_batch : raw_frame :=
  {| raw_columns := expected_columns;
     raw_rows := [{| raw_Date := DateText day1; raw_OpenPrice := NumText 100;
                     raw_High := NumText 100; raw_Low := NumText 100;
                     raw_ClosePrice := NumText 100; raw_Volume := NumText 1000;
                     raw_Symbol := None |}] |}.

(** Two symbols interleaved, each in date order. *)
Definition mixed_batch : raw_frame :=
  {| raw_columns := expected_columns;
     raw_rows := [quote (DateText day1) (NumText 100) "AAPL";
                  quote (DateText day1) (NumText 50) "msft";
                  quote (DateText day2) (NumText 110) "AAPL";
                  quote (DateText day2) (NumText 45) "MSFT"] |}.

End transform_spec.

Module aggregated_spec.
Import aggregated.

(** The last [n] elements of a list. *)
Definition lastn {A : Type} (n : nat) (l : list A) : list A :=
  skipn (List.length l - n) l.

(** The summary of one symbol, computed from its own rows. *)
Definition summarize (l : list row) (k : string) : summary_row :=
  let g := group k l in
  {| symbol := k;
     averagedailyprice := mean (map ClosePrice g);
     totalvolume := sum (map Volume g);
     dailyreturn := mean (map DailyReturn g);
     volatilityindex := std (map DailyReturn g);
     movingavg5day := moving_average 5 g;
     movingavg10day := moving_average 10 g;
     maxdate := latest (map Date g) |}.

(** The call went through to line 108 and logged its success. *)
Definition completed (df : frame) : Prop :=
  logged (aggregate_data df) =
  [(info, MsgLabels "Available columns in data: " (columns df));
   (info, Msg "Data aggregation completed successfully.")].

(** No symbol has both a row with a date and a row without one. *)
Definition dates_compare (l : list row) : bool :=
  forallb (fun k => negb (mixed_dates (map Date (group k l)))) (group_keys l).

(** The closes of the last [n] rows of a group, when the group has at least
    [n] rows and every one of these closes is a number. *)
Definition numeric_window (n : nat) (g : list row) : option (list Q) :=
  if (n <=? List.length g)%nat
  then all_finite (lastn n (map ClosePrice g))
  else None.

(** Number of values of a list that are numbers. *)
Definition count_numeric (l : list float) : nat :=
  List.length (filter is_num l).

Definition has_inf (l : list float) : bool :=
  existsb (fun x => match x with Inf _ => true | _ => false end) l.

(** A row of a transformed frame, given its date, close and return. *)
Definition obs (s : string) (d : calendar_date) (c ret : float) : row :=
  {| Date := Some d; OpenPrice := c; High := c; Low := c; ClosePrice := c;
     Volume := Num 1000; Symbol := Some s; DailyReturn := ret |}.

Definition transformed_columns : list string :=
  ["Date"; "OpenPrice"; "High"; "Low"; "ClosePrice"; "Volume"; "Symbol";
   "DailyReturn"].

(** The frame the Normalizer returns on the two AAPL rows of the
    scenario. *)
Definition aapl_frame : frame :=
  fst (transform.transform_data transform_spec.aapl_batch).

(** Six AAPL rows in date order; the close of the last one is missing. *)
Definition six_rows : frame :=
  {| columns := transformed_columns;
     rows := [obs "AAPL" (mkDate 2024 1 1) (Num 1) NaN;
              obs "AAPL" (mkDate 2024 1 2) (Num 2) (Num 1);
              obs "AAPL" (mkDate 2024 1 3) (Num 3) (Num (1 # 2));
              obs "AAPL" (mkDate 2024 1 4) (Num 4) (Num (1 # 3));
              obs "AAPL" (mkDate 2024 1 5) (Num 5) (Num (1 # 4));
              obs "AAPL" (mkDate 2024 1 8) NaN (Num 0)] |}.

(** Six AAPL rows in date order with numeric closes. *)
Definition six_closes : frame :=
  {| columns := transformed_columns;
     rows := [obs "AAPL" (mkDate 2024 1 1) (Num 1) NaN;
              obs "AAPL" (mkDate 2024 1 2) (Num 2) (Num 1);
              obs "AAPL" (mkDate 2024 1 3) (Num 3) (Num (1 # 2));
              obs "AAPL" (mkDate 2024 1 4) (Num 4) (Num (1 # 3));
              obs "AAPL" (mkDate 2024 1 5) (Num 5) (Num (1 # 4));
              obs "AAPL" (mkDate 2024 1 8) (Num 6) (Num (1 # 5))] |}.

(** Two AAPL rows, the second without a date. *)
Definition undated_row_frame : frame :=
  {| columns := transformed_columns;
     rows := [obs "AAPL" (mkDate 2024 1 1) (Num 100) NaN;
              {| Date := None; OpenPrice := Num 110; High := Num 110;
                 Low := Num 110; ClosePrice := Num 110; Volume := Num 1000;
                 Symbol := Some "AAPL"; DailyReturn := Num (1 # 10) |}] |}.

(** A frame with the labels and no row. *)
Definition no_rows_frame : frame :=
  {| columns := transformed_columns; rows := [] |}.

(** A frame without a volume column whose first return is missing. *)
Definition no_volume_frame : frame :=
  {| columns := ["Date"; "ClosePrice"; "Symbol"; "DailyReturn"];
     rows := [obs "AAPL" (mkDate 2024 1 1) (Num 100) NaN;
              obs "AAPL" (mkDate 2024 1 2) (Num 110) (Num (1 # 10))] |}.

End aggregated_spec.

Module load_spec.
Import load.

(** The (symbol, date) key of a row. *)
Definition key (r : stock_row) : string * calendar_date :=
  (symbol r, date r).

Definition keys (l : list stock_row) : list (string * calendar_date) :=
  map key l.

(** Proposing [r] again leaves the table as it is. *)
Definition settled (r : stock_row) (tbl : list stock_row) : Prop :=
  forall id, put r id tbl = tbl.

(** Every identifier of the table was drawn from the sequence before
    [seq]. *)
Definition ids_below (seq : Z) (tbl : list stock_row) : Prop :=
  Forall (fun x => (RecordID x < seq)%Z) tbl.

(** A proposed row the statement accepts: the sequence had a value for it,
    it passes the CHECKs, no earlier proposed row has its key, and the
    primary key takes it. *)
Ltac accepted_row H :=
  simpl in H;
  destruct (exhausted _) eqn:?; [discriminate H |];
  destruct (checks _) eqn:?; simpl in H; [| discriminate H];
  destruct (existsb (same_key _) _) eqn:?; [discriminate H |];
  unfold upsert in H;
  destruct (negb (conflicts _ _) && has_id _ _) eqn:?; [discriminate H |].

(** The rows of the enterprise table after a call. *)
Definition edw_after (x : database * list log_entry) : list stock_row :=
  edw_stock_data (fst x).

(** The file at a path is missing or empty. *)
Definition missing_or_empty (fs : filesystem) (path : string) : Prop :=
  fs path = None \/ fs path = Some 0%N.

Definition result_of (x : result * database * list log_entry) : result :=
  fst (fst x).

Definition database_of (x : result * database * list log_entry)
  : database :=
  snd (fst x).

Definition bar (id : Z) (s : string) (d : calendar_date) (c : Q)
  : stock_row :=
  {| RecordID := id; date := d; open := c; high := c; low := c; close := c;
     volume := 1000; symbol := s |}.

(** The enterprise table holds (AAPL, 2024-01-02) with close 108; staging
    holds that key with close 110 and one key that is new. *)
Definition sample_db : database :=
  {| stg_stock_data := [bar 1 "AAPL" (mkDate 2024 1 2) 110;
                        bar 2 "AAPL" (mkDate 2024 1 3) 111];
     edw_stock_data := [bar 7 "AAPL" (mkDate 2024 1 2) 108];
     edw_RecordID_seq := 8 |}.

(** The enterprise table holds a row under the identifier the sequence
    gives next; staging holds one key that is new. *)
Definition clash_db : database :=
  {| stg_stock_data := [bar 1 "MSFT" (mkDate 2024 1 2) 400];
     edw_stock_data := [bar 8 "AAPL" (mkDate 2024 1 2) 108];
     edw_RecordID_seq := 8 |}.

(** A file system with one file of 120 bytes. *)
Definition one_file : filesystem :=
  fun p => if String.eqb p "dataset/transformed_data.csv"
           then Some 120%N else None.

End load_spec.

Module main2_spec.
Import main2.

Definition empty_db : load.database :=
  {| load.stg_stock_data := []; load.edw_stock_data := [];
     load.edw_RecordID_seq := 1 |}.

Definition fresh : world :=
  {| files := fun _ => None; db := empty_db; log := []; calls := [] |}.

Definition csv_path (prefix : string) : string :=
  "dataset/" ++ prefix ++ "_20241219_110050.csv".


(** A run whose extraction returns the two AAPL rows of the scenario. *)
Definition aapl_run : env :=
  {| extracted := transform_spec.aapl_batch;
     to_csv := fun prefix => Some (csv_path prefix, 64%N);
     connected := true |}.


End main2_spec.

(** * Further vocabulary *)

Module transform_terms.
Import transform transform_spec.

(** The batch restricted to the rows of one symbol. *)
Definition only_symbol (s : string) (df : raw_frame) : raw_frame :=
  {| raw_columns := raw_columns df;
     raw_rows := filter (fun r => has_symbol s (normalize r)) (raw_rows df) |}.

(** A symbol cell holds no small letter. *)
Definition upper_symbol (r : row) : Prop :=
  forall s, Symbol r = Some s -> upper s = s.

End transform_terms.

Module aggregated_terms.
Import aggregated.

(** The values of a list that are numbers, in order. *)
Fixpoint numbers (l : list float) : list Q :=
  match l with
  | [] => []
  | Num q :: t => q :: numbers t
  | _ :: t => numbers t
  end.

(** The order of the group keys. *)
Definition key_order (a b : string) : Prop := String.leb a b = true.

(** A required label is among the labels when small and capital letters
    are not told apart. *)
Definition present_nocase (c : string) (labels : list string) : Prop :=
  exists l, In l labels /\ lower l = c.

(** [n] as a rational. *)
Definition count (n : nat) : Q := inject_Z (Z.of_nat n).

End aggregated_terms.

Module load_terms.
Import load load_spec.

(** What identifies a row: its identifier and its (symbol, date) key. *)
Definition ident (r : stock_row) : Z * (string * calendar_date) :=
  (RecordID r, key r).

(** The price and volume cells of a row. *)
Definition values (r : stock_row) : Q * Q * Q * Q * Z :=
  (open r, high r, low r, close r, volume r).

(** The key of the row occurs in the table. *)
Definition known (tbl : list stock_row) (r : stock_row) : bool :=
  conflicts r tbl.

(** The message logged by a merge that went through. *)
Definition moved : log_entry :=
  (info, Msg "Data moved to EDW table successfully.").

End load_terms.

Module main2_terms.
Import main2 main2_spec.

(** A computation that leaves the staging table as it finds it. *)
Definition keeps_staging {A : Type} (m : M A) : Prop :=
  forall w,
    load.stg_stock_data (db (snd (m w))) = load.stg_stock_data (db w).

(** A run whose extraction returns a frame without rows. *)
Definition empty_run : env :=
  {| extracted := {| transform.raw_columns := transform.expected_columns;
                     transform.raw_rows := [] |};
     to_csv := fun prefix => Some (csv_path prefix, 64%N);
     connected := true |}.

(** A run in which the transformed frame cannot be written. *)
Definition failed_save_run : env :=
  {| extracted := transform_spec.aapl_batch;
     to_csv := fun prefix =>
                 if String.eqb prefix "transformed_data" then None
                 else Some (csv_path prefix, 64%N);
     connected := true |}.

(** A run in which the warehouse refuses the connection. *)
Definition offline_run : env :=
  {| extracted := transform_spec.aapl_batch;
     to_csv := fun prefix => Some (csv_path prefix, 64%N);
     connected := false |}.

(** A warehouse with rows waiting in the staging table. *)
Definition waiting : world :=
  {| files := fun _ => None; db := load_spec.sample_db; log := [];
     calls := [] |}.

End main2_terms.

Module aggregated_files.

(** [name.startswith(prefix)] *)
Definition startswith (prefix name : string) : bool :=
  String.prefix prefix name.

(** [name.endswith(extension)]: some tail of the name is the extension. *)
Fixpoint endswith (extension name : string) : bool :=
  if String.eqb name extension then true
  else match name with
       | EmptyString => false
       | String _ t => endswith extension t
       end.

(** An entry of a directory: its name and the modification time
    [os.path.getmtime] gives for it, [None] when that call raises. *)
Definition entry : Type := (string * option Q)%type.

Definition selected (prefix extension : string) (f : entry) : bool :=
  startswith prefix (fst f) && endswith extension (fst f).

(** The keys [max] computes, in order; the first call that raises ends the
    computation. *)
Fixpoint mtimes (l : list entry) : option (list (string * Q)) :=
  match l with
  | [] => Some []
  | (name, Some t) :: rest =>
      match mtimes rest with
      | Some ts => Some ((name, t) :: ts)
      | None => None
      end
  | (_, None) :: _ => None
  end.

(** [max(files, key=...)] from the first element on: a later element
    replaces the best one only when its key is greater. *)
Fixpoint max_from (best : string * Q) (l : list (string * Q)) : string * Q :=
  match l with
  | [] => best
  | x :: t => max_from (if Qle_bool (snd x) (snd best) then best else x) t
  end.

(** [get_latest_file(directory, prefix, extension)].  [listing] is what
    [os.listdir(directory)] gives, [None] when it raises; [join] is
    [os.path.join]. *)
Definition get_latest_file (join : string -> string -> string)
  (listing : option (list entry)) (directory prefix extension : string)
  : option string * list log_entry :=
  match listing with
  | None =>
      (None, [(error, MsgExn "Error fetching latest file: "
                             (FileNotFoundError directory))])
  | Some l =>
      match filter (selected prefix extension) l with
      | [] => (None, [(error, MsgLabels "No files with prefix and extension found in "
                                        [prefix; extension; directory])])
      | files =>
          match mtimes files with
          | Some (first :: rest) =>
              (Some (join directory (fst (max_from first rest))), [])
          | _ =>
              (None, [(error, MsgExn "Error fetching latest file: "
                                     (FileNotFoundError directory))])
          end
      end
  end.

(** The name [save_with_timestamp] gives to a file: [f"{prefix}_{timestamp}.csv"]. *)
Definition timestamped (prefix timestamp : string) : string :=
  prefix ++ "_" ++ timestamp ++ ".csv".

(** [save_with_timestamp(df, output_directory, prefix)]: [timestamp] is the
    formatted time of the call and [written] tells whether [df.to_csv]
    succeeds.  The result is the path returned and the name of the file
    written, if any. *)
Definition save_with_timestamp (join : string -> string -> string)
  (timestamp : string) (written : bool) (output_directory prefix : string)
  : option string * option string * list log_entry :=
  let filename := timestamped prefix timestamp in
  let file_path := join output_directory filename in
  if written then
    (Some file_path, Some filename,
     [(info, MsgPath "Aggregated data saved to " (Some file_path))])
  else
    (None, None, [(error, MsgPath "Error saving aggregated file: " None)]).

(** [posixpath.join] of a directory and a file name. *)
Definition posix_join (directory name : string) : string :=
  if startswith "/" name then name
  else if String.eqb directory "" || endswith "/" directory
       then directory ++ name
       else directory ++ "/" ++ name.

(** A listing of the dataset directory. *)
Definition sample_listing : list entry :=
  [("transformed_data_20241219_110050.csv", Some 100);
   ("extracted_stock_data_20241219_110049.csv", Some 99);
   ("transformed_data_20241220_090000.csv", Some 250);
   ("transformed_data_notes.txt", Some 300)].

End aggregated_files.

(** * The scripts of transform.py and aggregated.py *)

Module scripts.

Definition DATASET_DIR : string := "dataset".
Definition INPUT_FILE_NAME : string := "extracted_stock_data.csv".
Definition OUTPUT_FILE_NAME : string := "transformed_data.csv".

(** What a script finds when it runs: the sizes of the files, what
    [pd.read_csv] makes of a path, whether a frame can be written, and the
    formatted time. *)
Record setting (F : Type) : Type := mkSetting {
  join : string -> string -> string;
  sizes : load.filesystem;
  read_csv : string -> exn + F;
  writable : bool;
  listdir : string -> option (list aggregated_files.entry);
  now : string
}.

Arguments join {F}.
Arguments sizes {F}.
Arguments read_csv {F}.
Arguments writable {F}.
Arguments listdir {F}.
Arguments now {F}.

(** [transform.load_existing_data(file_name)] *)
Definition load_existing_data (s : setting transform.raw_frame)
  (file_name : string) : option transform.raw_frame * list log_entry :=
  let file_path := join s DATASET_DIR file_name in
  match sizes s file_path with
  | None =>
      (None, [(error, MsgPath "File is missing or empty: " (Some file_path))])
  | Some size =>
      if (size =? 0)%N then
        (None,
         [(error, MsgPath "File is missing or empty: " (Some file_path))])
      else
        match read_csv s file_path with
        | inr df =>
            (Some df, [(info, MsgPath "Loaded data from " (Some file_path))])
        | inl e => (None, [(error, MsgExn "Error loading data: " e)])
        end
  end.

(** [transform.save_to_directory(df, file_name)]: the path written, if the
    frame could be written. *)
Definition save_to_directory (s : setting transform.raw_frame)
  (file_name : string) : option string * list log_entry :=
  let file_path := join s DATASET_DIR file_name in
  if writable s then
    (Some file_path, [(info, MsgPath "File saved to " (Some file_path))])
  else
    (None, [(error, MsgPath "Error saving file: " None)]).

(** [transform.main()]: the path and the frame written, if any, and the
    log. *)
Definition transform_main (s : setting transform.raw_frame)
  : option (string * frame) * list log_entry :=
  let starting := (info, Msg "Starting data transformation process") in
  match load_existing_data s INPUT_FILE_NAME with
  | (Some raw_data, l1) =>
      let '(transformed_data, l2) := transform.transform_data raw_data in
      if negb (empty transformed_data) then
        match save_to_directory s OUTPUT_FILE_NAME with
        | (Some path, l3) =>
            (Some (path, transformed_data), starting :: l1 ++ l2 ++ l3)
        | (None, l3) => (None, starting :: l1 ++ l2 ++ l3)
        end
      else
        (None,
         starting :: l1 ++ l2 ++
         [(error, Msg "Transformed data is empty. No output file created.")])
  | (None, l1) =>
      (None,
       starting :: l1 ++
       [(error, Msg "No raw data available for transformation.")])
  end.

(** The constants [aggregated.py] reads from the environment. *)
Record constants : Type := mkConstants {
  dataset_dir : string;
  aggregated_output_dir : string;
  transformed_prefix : string;
  aggregated_prefix : string
}.

(** Their values when the environment sets none of them. *)
Definition defaults : constants :=
  {| dataset_dir := "dataset";
     aggregated_output_dir := "dataset/aggregated_data";
     transformed_prefix := "transformed_data";
     aggregated_prefix := "aggregated_data" |}.

(** [aggregated.main()]: the path and the frame written, if any, and the
    log. *)
Definition aggregated_main (c : constants) (s : setting frame)
  : option (string * aggregated.summary_frame) * list log_entry :=
  let starting := (info, Msg "Starting aggregation process.") in
  match aggregated_files.get_latest_file
          (join s) (listdir s (dataset_dir c)) (dataset_dir c)
          (transformed_prefix c) ".csv" with
  | (None, l1) =>
      (None,
       starting :: l1 ++
       [(error, Msg "No transformed data file available for aggregation.")])
  | (Some latest_file_path, l1) =>
      match read_csv s latest_file_path with
      | inl e =>
          (None,
           starting :: l1 ++
           [(error, MsgExn "Error in aggregation process: " e)])
      | inr transformed_data =>
          let o := aggregated.aggregate_data transformed_data in
          let aggregated_data := aggregated.returned o in
          if negb (aggregated.summary_empty aggregated_data) then
            match aggregated_files.save_with_timestamp
                    (join s) (now s) (writable s)
                    (aggregated_output_dir c) (aggregated_prefix c) with
            | (Some path, _, l3) =>
                (Some (path, aggregated_data),
                 starting :: l1 ++ aggregated.logged o ++ l3)
            | (None, _, l3) =>
                (None, starting :: l1 ++ aggregated.logged o ++ l3)
            end
          else
            (None,
             starting :: l1 ++ aggregated.logged o ++
             [(error, Msg "Aggregated data is empty. No file was saved.")])
      end
  end.

(** A setting in which the extracted file holds the batch without the
    Volume column. *)
Definition no_volume_setting : setting transform.raw_frame :=
  {| join := aggregated_files.posix_join;
     sizes := fun p => if String.eqb p "dataset/extracted_stock_data.csv"
                       then Some 64%N else None;
     read_csv := fun _ => inr transform_spec.no_volume_batch;
     writable := true;
     listdir := fun _ => None;
     now := "20241220_090000" |}.

(** A setting in which the extracted file holds the two AAPL rows. *)
Definition aapl_setting : setting transform.raw_frame :=
  {| join := aggregated_files.posix_join;
     sizes := fun p => if String.eqb p "dataset/extracted_stock_data.csv"
                       then Some 64%N else None;
     read_csv := fun _ => inr transform_spec.aapl_batch;
     writable := true;
     listdir := fun _ => None;
     now := "20241220_090000" |}.

(** A setting in which the newest transformed file holds the frame of the
    two AAPL rows. *)
Definition aggregation_setting : setting frame :=
  {| join := aggregated_files.posix_join;
     sizes := fun _ => None;
     read_csv := fun _ => inr aggregated_spec.aapl_frame;
     writable := true;
     listdir := fun _ => Some aggregated_files.sample_listing;
     now := "20241220_090500" |}.

End scripts.

(** * Facts about transform.py *)

Module transform_facts.
Import transform transform_spec.

Lemma mem_In (x : string) (l : list string) : mem x l = true <-> In x l.
Proof.
  unfold mem. rewrite existsb_exists. split.
  - intros [y [Hy Heq]]. apply String.eqb_eq in Heq. now subst.
  - intros H. exists x. split; [assumption | apply String.eqb_refl].
Qed.

Lemma has_expected_columns_spec (labels : list string) :
  has_expected_columns labels = true <->
  forall col, In col expected_columns -> In col labels.
Proof.
  unfold has_expected_columns. rewrite forallb_forall.
  split; intros H col Hc; apply mem_In; auto.
Qed.

(** ** The column check *)

(** C3 (as the code has it): the check of the required labels is exact in
    spelling, and when one of Date, OpenPrice, High, Low, ClosePrice, Volume,
    Symbol is absent the function raises nothing: it returns the empty frame
    and logs one error that carries the labels found. *)
Theorem transform_data_missing_column (df : raw_frame) :
  (exists col, In col expected_columns /\ ~ In col (raw_columns df)) ->
  transform_data df =
  (empty_frame,
   [(error, MsgLabels "Dataset missing required columns. Found: "
                      (raw_columns df))]).
Proof.
  intros [col [Hin Hout]]. unfold transform_data, transform_data_by.
  destruct (has_expected_columns (raw_columns df)) eqn:E; [| reflexivity].
  exfalso. apply Hout.
  now apply (proj1 (has_expected_columns_spec _) E).
Qed.

Lemma transform_data_missing_column_witness :
  transform_data no_volume_batch =
  (empty_frame,
   [(error, MsgLabels "Dataset missing required columns. Found: "
                      (raw_columns no_volume_batch))]).
Proof.
  apply transform_data_missing_column.
  exists "Volume". split.
  - simpl. tauto.
  - simpl. intros H.
    repeat (destruct H as [H | H]; [discriminate H |]). exact H.
Defined.

(** C3 fails as stated: every required label is present when the spelling
    of letters is ignored, and the batch is rejected all the same; the
    error names the labels found, not the missing ones. *)
Lemma lowercase_labels_rejected :
  has_expected_columns_nocase (raw_columns lowercase_batch) = true /\
  transform_data lowercase_batch =
  (empty_frame,
   [(error, MsgLabels "Dataset missing required columns. Found: "
                      ["date"; "openprice"; "high"; "low"; "closeprice";
                       "volume"; "symbol"])]).
Proof. split; reflexivity. Qed.

(** ** Dates that do not parse *)


Lemma to_datetime_ok (cells : list date_cell) :
  forallb parses cells = true ->
  to_datetime cells = inr (map date_of cells).
Proof.
  induction cells as [| c t IH]; intros H; [reflexivity |].
  simpl in H. apply andb_prop in H. destruct H as [Hc Ht].
  simpl. rewrite (IH Ht). destruct c; [reflexivity | reflexivity |].
  discriminate Hc.
Qed.

Lemma to_datetime_inr (cells : list date_cell) :
  forall ds, to_datetime cells = inr ds ->
             forallb parses cells = true /\ ds = map date_of cells.
Proof.
  induction cells as [| c t IH]; intros ds H.
  - injection H as <-. split; reflexivity.
  - destruct c as [| d | s]; simpl in H.
    + destruct (to_datetime t) as [e | ds']; [discriminate H |].
      injection H as <-. destruct (IH _ eq_refl) as [Hp ->].
      split; [exact Hp | reflexivity].
    + destruct (to_datetime t) as [e | ds']; [discriminate H |].
      injection H as <-. destruct (IH _ eq_refl) as [Hp ->].
      split; [exact Hp | reflexivity].
    + discriminate H.
Qed.

Lemma convert_rows_normalize (rs : list raw_row) :
  convert_rows (map date_of (map raw_Date rs)) rs = map normalize rs.
Proof.
  induction rs as [| r t IH]; [reflexivity |].
  simpl. now rewrite IH.
Qed.

(** What an accepted batch is and what comes back for it. *)
Lemma accepted_rows (sort : list row -> list row) (df : raw_frame) :
  accepted sort df ->
  has_expected_columns (raw_columns df) = true /\
  forallb parses (map raw_Date (raw_rows df)) = true /\
  no_text (map raw_Symbol (raw_rows df)) = false /\
  rows (fst (transform_data_by sort df)) =
  pct_change [] (sort (map normalize (raw_rows df))).
Proof.
  unfold accepted, transform_data_by. intros H.
  destruct (has_expected_columns (raw_columns df)); [| discriminate H].
  simpl negb in *. cbv iota in *.
  destruct (to_datetime (map raw_Date (raw_rows df))) as [e | ds] eqn:E;
    [discriminate H |].
  destruct (no_text (map raw_Symbol (raw_rows df))); [discriminate H |].
  destruct (to_datetime_inr _ _ E) as [Hp ->].
  simpl. rewrite convert_rows_normalize. auto.
Qed.




(** ** The order of [sort_values] *)

Lemma date_leb_total (a b : calendar_date) :
  date_leb a b = true \/ date_leb b a = true.
Proof.
  unfold date_leb.
  destruct (Nat.ltb_spec (year a) (year b)); [now left |].
  destruct (Nat.ltb_spec (year b) (year a)); [now right |].
  destruct (Nat.ltb_spec (month a) (month b)); [now left |].
  destruct (Nat.ltb_spec (month b) (month a)); [now right |].
  destruct (Nat.leb_spec (day a) (day b)); [now left | right].
  apply Nat.leb_le. lia.
Qed.

Lemma date_leb_trans (a b c : calendar_date) :
  date_leb a b = true -> date_leb b c = true -> date_leb a c = true.
Proof.
  unfold date_leb.
  destruct (Nat.ltb_spec (year a) (year b));
    destruct (Nat.ltb_spec (year b) (year c));
    destruct (Nat.ltb_spec (year a) (year c));
    destruct (Nat.ltb_spec (year b) (year a));
    destruct (Nat.ltb_spec (year c) (year b));
    destruct (Nat.ltb_spec (year c) (year a));
    try lia; try discriminate; try reflexivity;
    destruct (Nat.ltb_spec (month a) (month b));
    destruct (Nat.ltb_spec (month b) (month c));
    destruct (Nat.ltb_spec (month a) (month c));
    destruct (Nat.ltb_spec (month b) (month a));
    destruct (Nat.ltb_spec (month c) (month b));
    destruct (Nat.ltb_spec (month c) (month a));
    try lia; try discriminate; try reflexivity;
    rewrite !Nat.leb_le; lia.
Qed.

Lemma key_leb_total (a b : option calendar_date) :
  key_leb a b = true \/ key_leb b a = true.
Proof.
  destruct a as [a |], b as [b |]; simpl; auto using date_leb_total.
Qed.

Lemma key_leb_trans (a b c : option calendar_date) :
  key_leb a b = true -> key_leb b c = true -> key_leb a c = true.
Proof.
  destruct a as [a |], b as [b |], c as [c |]; simpl;
    try discriminate; try reflexivity.
  apply date_leb_trans.
Qed.

Lemma insert_perm (x : row) (l : list row) :
  Permutation (insert x l) (x :: l).
Proof.
  induction l as [| y t IH]; simpl; [reflexivity |].
  destruct (key_leb (Date x) (Date y)); [reflexivity |].
  rewrite IH. apply perm_swap.
Qed.

Lemma sort_values_perm (l : list row) : Permutation (sort_values l) l.
Proof.
  induction l as [| x t IH]; simpl; [reflexivity |].
  rewrite insert_perm. now apply perm_skip.
Qed.

Lemma insert_sorted (x : row) (l : list row) :
  StronglySorted key_le l -> StronglySorted key_le (insert x l).
Proof.
  induction l as [| y t IH]; intros H; simpl.
  - repeat constructor.
  - inversion H as [| ? ? Ht Hy]; subst.
    destruct (key_leb (Date x) (Date y)) eqn:E.
    + constructor; [assumption |].
      constructor; [exact E |].
      eapply Forall_impl; [| exact Hy].
      intros z Hz. unfold key_le in *. eapply key_leb_trans; eauto.
    + constructor; [now apply IH |].
      rewrite (insert_perm x t). constructor; [| assumption].
      unfold key_le.
      destruct (key_leb_total (Date x) (Date y)); congruence.
Qed.

Lemma sort_values_sorted (l : list row) :
  StronglySorted key_le (sort_values l).
Proof.
  induction l as [| x t IH]; simpl; [constructor |].
  now apply insert_sorted.
Qed.

(** ** Returns *)

Lemma clear_return_pct_change (hist : list (string * float)) (l : list row) :
  map clear_return (pct_change hist l) = map clear_return l.
Proof.
  revert hist. induction l as [| r t IH]; intros hist; [reflexivity |].
  simpl. destruct (Symbol r) as [s |] eqn:E; simpl; rewrite IH;
    [| reflexivity].
  unfold clear_return. simpl. now rewrite E.
Qed.

Lemma clear_return_normalize (r : raw_row) :
  clear_return (normalize r) = normalize r.
Proof. reflexivity. Qed.

Lemma has_symbol_clear_return (s : string) (r : row) :
  has_symbol s (clear_return r) = has_symbol s r.
Proof. reflexivity. Qed.

Lemma rows_of_clear_return (s : string) (l : list row) :
  rows_of s (map clear_return l) = map clear_return (rows_of s l).
Proof.
  unfold rows_of. induction l as [| r t IH]; [reflexivity |].
  simpl. rewrite has_symbol_clear_return.
  destruct (has_symbol s r); simpl; now rewrite IH.
Qed.

Lemma last_of_other (s k : string) (v : float) (hist : list (string * float)) :
  String.eqb k s = false -> last_of s ((k, v) :: hist) = last_of s hist.
Proof. intros H. simpl. now rewrite H. Qed.

(** The grouped computation, read on the rows of one symbol, is the plain
    computation on that symbol's own sub-sequence. *)
Lemma rows_of_pct_change (s : string) (hist : list (string * float))
  (l : list row) :
  rows_of s (pct_change hist l) =
  series_pct_change (last_of s hist) (rows_of s l).
Proof.
  revert hist. unfold rows_of.
  induction l as [| r t IH]; intros hist; [reflexivity |].
  simpl. unfold has_symbol at 2.
  destruct (Symbol r) as [k |] eqn:Ek.
  - simpl. unfold has_symbol at 1. simpl.
    destruct (String.eqb k s) eqn:E.
    + apply String.eqb_eq in E. subst k.
      simpl. rewrite IH. simpl. rewrite String.eqb_refl. now rewrite Ek.
    + rewrite IH. now rewrite last_of_other.
  - simpl. unfold has_symbol at 1. rewrite Ek. apply IH.
Qed.

Lemma series_first (l : list row) (r : row) :
  hd_error (series_pct_change None l) = Some r -> DailyReturn r = NaN.
Proof.
  destruct l as [| x t]; simpl; intros H; [discriminate H |].
  injection H as <-. simpl.
  now destruct (isna (ClosePrice x)), (ClosePrice x).
Qed.

Lemma series_adjacent (l : list row) :
  forall prev pre p c post a b,
    series_pct_change prev l = pre ++ p :: c :: post ->
    ClosePrice p = Num a -> ClosePrice c = Num b ->
    DailyReturn c = fsub (fdiv (Num b) (Num a)) (Num 1).
Proof.
  induction l as [| x t IH]; intros prev pre p c post a b H Hp Hc.
  - destruct pre; discriminate H.
  - simpl in H. destruct pre as [| z pre].
    + simpl in H. injection H as Hx Ht. subst p. simpl in Hp.
      rewrite Hp in Ht. simpl in Ht.
      destruct t as [| y t']; [discriminate Ht |].
      simpl in Ht. injection Ht as Hy _. subst c. simpl in Hc.
      simpl. now rewrite Hc.
    + simpl in H. injection H as _ Ht.
      eapply IH; eauto.
Qed.

Lemma pct_of_numbers (a b : Q) :
  Qis_zero a = false ->
  exists q, fsub (fdiv (Num b) (Num a)) (Num 1) = Num q /\ q == b / a - 1.
Proof.
  intros Ha. unfold fsub, fdiv. rewrite Ha. unfold fneg, fadd.
  eexists. split; [reflexivity |].
  rewrite !Qred_correct. reflexivity.
Qed.

Lemma transform_data_rows (df : raw_frame) :
  has_expected_columns (raw_columns df) = true ->
  forallb parses (map raw_Date (raw_rows df)) = true ->
  rows (fst (transform_data df)) =
  if no_text (map raw_Symbol (raw_rows df)) then []
  else pct_change [] (sort_values (map normalize (raw_rows df))).
Proof.
  intros Hc Hd. unfold transform_data, transform_data_by.
  rewrite Hc, (to_datetime_ok _ Hd). simpl negb. cbv iota.
  destruct (no_text (map raw_Symbol (raw_rows df))); [reflexivity |].
  simpl. now rewrite convert_rows_normalize.
Qed.

(** C7 (as the code has it): the Normalizer collapses nothing.  When the
    batch is accepted, that is when the call logs its success, its output
    holds, up to the return column, exactly the canonical forms of the input
    rows, each as often as it came in, so rows that share a (symbol, date)
    pair all remain.  This holds for every way of sorting that keeps the
    rows. *)
Theorem transform_data_keeps_every_row (sort : list row -> list row)
  (df : raw_frame) :
  (forall l, Permutation (sort l) l) ->
  accepted sort df ->
  Permutation (map clear_return (rows (fst (transform_data_by sort df))))
              (map normalize (raw_rows df)) /\
  List.length (rows (fst (transform_data_by sort df))) =
  List.length (raw_rows df).
Proof.
  intros Hs Ha.
  destruct (accepted_rows sort df Ha) as [_ [_ [_ E]]].
  assert (P : Permutation
                (map clear_return (rows (fst (transform_data_by sort df))))
                (map normalize (raw_rows df))).
  { rewrite E, clear_return_pct_change.
    rewrite (Permutation_map clear_return (Hs _)).
    rewrite map_map.
    erewrite map_ext; [reflexivity |].
    intros r. apply clear_return_normalize. }
  split; [exact P |].
  apply Permutation_length in P. now rewrite !length_map in P.
Qed.

Lemma transform_data_keeps_every_row_witness :
  Permutation
    (map clear_return
         (rows (fst (transform_data_by sort_values duplicate_batch))))
    (map normalize (raw_rows duplicate_batch)) /\
  List.length (rows (fst (transform_data_by sort_values duplicate_batch))) =
  List.length (raw_rows duplicate_batch).
Proof.
  apply transform_data_keeps_every_row.
  - exact sort_values_perm.
  - reflexivity.
Defined.

(** C7 fails as stated: two input rows carry (AAPL, 2024-01-01), with
    closes 100 and 101, and the output carries both. *)
Lemma duplicates_not_collapsed :
  map (fun r => (Symbol r, Date r))
      (rows (fst (transform_data duplicate_batch))) =
  [(Some "AAPL", Some day1); (Some "AAPL", Some day1)] /\
  In (Num 100) (map ClosePrice (rows (fst (transform_data duplicate_batch))))
  /\
  In (Num 101) (map ClosePrice (rows (fst (transform_data duplicate_batch)))).
Proof.
  split; [reflexivity |].
  split; [left; reflexivity | right; left; reflexivity].
Qed.

(** A Symbol column of numbers: [.str] raises, and the [except] clause
    returns the empty frame. *)
Example transform_data_no_text :
  transform_data no_symbol_batch =
  (empty_frame,
   [(error, MsgExn "Error transforming data: "
                   (AttributeError
                      "Can only use .str accessor with string values!"))]).
Proof. reflexivity. Qed.

Lemma clear_return_series (prev : option float) (l : list row) :
  map clear_return (series_pct_change prev l) = map clear_return l.
Proof.
  revert prev. induction l as [| r t IH]; intros prev; [reflexivity |].
  simpl. now rewrite IH.
Qed.

Lemma map_clear_return_fixed (l : list row) :
  (forall r, In r l -> DailyReturn r = NaN) -> map clear_return l = l.
Proof.
  induction l as [| r t IH]; intros H; [reflexivity |].
  simpl. rewrite IH by (intros x Hx; apply H; now right).
  f_equal. destruct r as [d o h lo c v s ret]. unfold clear_return. simpl.
  f_equal. symmetry. apply (H _ (or_introl eq_refl)).
Qed.

(** ** Any sort will do *)

Section sorted_permutations.

Variable p : row -> bool.

Lemma filter_perm (l l' : list row) :
  Permutation l l' -> Permutation (filter p l) (filter p l').
Proof.
  induction 1 as [| x l l' _ IH | x y l | l l' l'' _ IH1 _ IH2]; simpl.
  - constructor.
  - destruct (p x); [now constructor | assumption].
  - destruct (p x), (p y); try reflexivity. apply perm_swap.
  - now transitivity (filter p l').
Qed.

Lemma filter_sorted (l : list row) :
  StronglySorted key_le l -> StronglySorted key_le (filter p l).
Proof.
  induction 1 as [| x l _ IH Hx]; simpl; [constructor |].
  destruct (p x); [| assumption].
  constructor; [assumption |].
  apply Forall_forall. intros y Hy. apply filter_In in Hy.
  rewrite Forall_forall in Hx. now apply Hx.
Qed.

End sorted_permutations.

(** Two arrangements of the same rows, one in date order and one in strict
    date order, are the same list. *)
Lemma sorted_permutation_unique (l1 : list row) :
  forall l2,
    Permutation l1 l2 -> StronglySorted key_le l1 ->
    StronglySorted key_lt l2 -> l1 = l2.
Proof.
  induction l1 as [| a t1 IH]; intros l2 P S1 S2.
  - now apply Permutation_nil in P.
  - destruct l2 as [| b t2].
    + symmetry in P. apply Permutation_nil in P. discriminate P.
    + inversion S1 as [| ? ? S1' Ha]; subst.
      inversion S2 as [| ? ? S2' Hb]; subst.
      assert (E : a = b).
      { assert (Hin : In a (b :: t2))
          by (apply (Permutation_in _ P); now left).
        destruct Hin as [-> | Hin]; [reflexivity |].
        assert (Hin' : In b (a :: t1))
          by (apply (Permutation_in _ (Permutation_sym P)); now left).
        destruct Hin' as [-> | Hin']; [reflexivity |].
        rewrite Forall_forall in Ha, Hb.
        specialize (Ha b Hin'). specialize (Hb a Hin).
        unfold key_le, key_lt in *. congruence. }
      subst b. f_equal. apply IH; [| assumption | assumption].
      now apply Permutation_cons_inv in P.
Qed.

Lemma strictly_ascending_sorted (l : list row) :
  strictly_ascending l = true -> StronglySorted key_lt l.
Proof.
  induction l as [| x t IH]; intros H; [constructor |].
  simpl in H. apply andb_prop in H. destruct H as [Hx Ht].
  constructor; [now apply IH |].
  apply Forall_forall. intros y Hy.
  rewrite forallb_forall in Hx. specialize (Hx y Hy).
  unfold key_lt. now apply negb_true_iff in Hx.
Qed.

Lemma sort_values_sorts : sorts sort_values.
Proof. split; [exact sort_values_perm | exact sort_values_sorted]. Qed.

(** Whatever order a sort gives to rows with equal dates, a symbol whose
    dates are strictly ascending in the batch keeps its own sub-sequence. *)
Lemma rows_of_any_sort (sort : list row -> list row) (inp : list row)
  (s : string) :
  sorts sort ->
  StronglySorted key_lt (rows_of s inp) ->
  rows_of s (sort inp) = rows_of s inp.
Proof.
  intros [P S] H. apply sorted_permutation_unique.
  - apply filter_perm, P.
  - apply filter_sorted, S.
  - assumption.
Qed.

Lemma rows_of_transform_data (sort : list row -> list row) (df : raw_frame)
  (s : string) :
  sorts sort ->
  accepted sort df ->
  strictly_ascending (rows_of s (map normalize (raw_rows df))) = true ->
  rows_of s (rows (fst (transform_data_by sort df))) =
  series_pct_change None (rows_of s (map normalize (raw_rows df))).
Proof.
  intros Hs Ha Hd.
  destruct (accepted_rows sort df Ha) as [_ [_ [_ E]]].
  rewrite E, rows_of_pct_change. simpl last_of. f_equal.
  apply rows_of_any_sort; [exact Hs |].
  now apply strictly_ascending_sorted.
Qed.

(** ** Returns within a symbol *)

(** C5 (as the code has it): take a batch the call accepts and a symbol
    whose rows stand in the batch in strictly ascending date order (no two
    of them share a date).  Whatever the sort does with rows of equal dates,
    the rows of the symbol come out in their input order, and their returns
    are those of the plain computation on that symbol's own sub-sequence.
    The first row of the symbol has no return.  A later row has a numeric
    return, the close divided by the close of the row just before it in the
    sub-sequence minus one, when both closes are numbers and the earlier one
    is not zero. *)
Theorem daily_return_within_symbol (sort : list row -> list row)
  (df : raw_frame) (s : string) :
  sorts sort ->
  accepted sort df ->
  strictly_ascending (rows_of s (map normalize (raw_rows df))) = true ->
  map clear_return (rows_of s (rows (fst (transform_data_by sort df)))) =
  rows_of s (map normalize (raw_rows df)) /\
  rows_of s (rows (fst (transform_data_by sort df))) =
  series_pct_change None (rows_of s (map normalize (raw_rows df))) /\
  (forall r,
     hd_error (rows_of s (rows (fst (transform_data_by sort df)))) = Some r ->
     DailyReturn r = NaN) /\
  (forall pre p c post a b,
     rows_of s (rows (fst (transform_data_by sort df)))
     = pre ++ p :: c :: post ->
     ClosePrice p = Num a -> ClosePrice c = Num b -> Qis_zero a = false ->
     exists q, DailyReturn c = Num q /\ q == b / a - 1).
Proof.
  intros Hs Ha Hd.
  pose proof (rows_of_transform_data sort df s Hs Ha Hd) as E.
  rewrite E. repeat split.
  - rewrite clear_return_series. apply map_clear_return_fixed.
    intros r Hr. unfold rows_of in Hr. apply filter_In in Hr.
    destruct Hr as [Hr _]. apply in_map_iff in Hr.
    destruct Hr as [x [<- _]]. reflexivity.
  - apply series_first.
  - intros pre p c post a b Hg Hp Hq Hz.
    rewrite (series_adjacent _ _ _ _ _ _ _ _ Hg Hp Hq).
    now apply pct_of_numbers.
Qed.

Lemma daily_return_within_symbol_witness :
  map clear_return
      (rows_of "MSFT" (rows (fst (transform_data_by sort_values mixed_batch))))
  = rows_of "MSFT" (map normalize (raw_rows mixed_batch)) /\
  rows_of "MSFT" (rows (fst (transform_data_by sort_values mixed_batch))) =
  series_pct_change None
    (rows_of "MSFT" (map normalize (raw_rows mixed_batch))) /\
  (forall r,
     hd_error (rows_of "MSFT"
                 (rows (fst (transform_data_by sort_values mixed_batch))))
     = Some r ->
     DailyReturn r = NaN) /\
  (forall pre p c post a b,
     rows_of "MSFT" (rows (fst (transform_data_by sort_values mixed_batch)))
     = pre ++ p :: c :: post ->
     ClosePrice p = Num a -> ClosePrice c = Num b -> Qis_zero a = false ->
     exists q, DailyReturn c = Num q /\ q == b / a - 1).
Proof.
  apply (daily_return_within_symbol sort_values mixed_batch "MSFT").
  - split; [exact sort_values_perm | exact sort_values_sorted].
  - reflexivity.
  - reflexivity.
Defined.

(** The returns of the interleaved batch: each symbol is measured against
    its own previous row. *)
Example mixed_batch_returns :
  map (fun r => (Symbol r, Date r, DailyReturn r))
      (rows (fst (transform_data mixed_batch))) =
  [(Some "AAPL", Some day1, NaN); (Some "MSFT", Some day1, NaN);
   (Some "AAPL", Some day2, Num (1 # 10));
   (Some "MSFT", Some day2, Num (-1 # 10))].
Proof. reflexivity. Qed.

(** C5 fails as stated: the batch is accepted, its rows are in strictly
    ascending date order, its second AAPL row is not the first of its
    symbol, and that row gets no numeric return, because the close before it
    is not a number. *)
Lemma second_row_without_return :
  strictly_ascending (map normalize (raw_rows bad_close_batch)) = true /\
  snd (transform_data bad_close_batch) =
  [(info, Msg "Data transformed to standard format, including DailyReturn")] /\
  map (fun r => (Symbol r, Date r, ClosePrice r, DailyReturn r))
      (rows (fst (transform_data bad_close_batch))) =
  [(Some "AAPL", Some day1, NaN, NaN);
   (Some "AAPL", Some day2, Num 110, NaN)].
Proof. split; [| split]; reflexivity. Qed.

End transform_facts.

(** * Facts about aggregated.py *)

Module aggregated_facts.
Import aggregated aggregated_spec.

(** ** Group keys *)

Lemma insert_key_perm (k : string) (l : list string) :
  Permutation (insert_key k l) (k :: l).
Proof.
  induction l as [| y t IH]; simpl; [reflexivity |].
  destruct (String.leb k y); [reflexivity |].
  rewrite IH. apply perm_swap.
Qed.

Lemma sort_keys_perm (l : list string) : Permutation (sort_keys l) l.
Proof.
  induction l as [| k t IH]; simpl; [reflexivity |].
  rewrite insert_key_perm. now apply perm_skip.
Qed.

Lemma present_In (k : string) (l : list (option string)) :
  In k (present l) <-> In (Some k) l.
Proof.
  induction l as [| [s |] t IH]; simpl.
  - tauto.
  - rewrite IH. split; intros [H | H]; auto.
    + left. now f_equal.
    + left. now injection H.
  - rewrite IH. split; [auto |]. intros [H | H]; [discriminate H | exact H].
Qed.

Lemma group_keys_NoDup (l : list row) : NoDup (group_keys l).
Proof.
  unfold group_keys.
  eapply Permutation_NoDup; [symmetry; apply sort_keys_perm |].
  apply NoDup_nodup.
Qed.

Lemma group_keys_In (k : string) (l : list row) :
  In k (group_keys l) <-> In (Some k) (map Symbol l).
Proof.
  unfold group_keys. split; intros H.
  - apply (Permutation_in _ (sort_keys_perm _)) in H.
    apply nodup_In in H. now apply present_In.
  - apply (Permutation_in _ (Permutation_sym (sort_keys_perm _))).
    apply nodup_In. now apply present_In.
Qed.

(** ** The three merges *)

Lemma matches_absent {B : Type} (k : string) (f : string -> B)
  (ks : list string) :
  ~ In k ks -> matches k (map (fun x => (x, f x)) ks) = [].
Proof.
  unfold matches. induction ks as [| y t IH]; intros H; [reflexivity |].
  simpl. destruct (String.eqb y k) eqn:E.
  - apply String.eqb_eq in E. subst y. exfalso. apply H. now left.
  - apply IH. intros Hin. apply H. now right.
Qed.

Lemma matches_unique {B : Type} (k : string) (f : string -> B)
  (ks : list string) :
  NoDup ks -> In k ks -> matches k (map (fun x => (x, f x)) ks) = [f k].
Proof.
  induction ks as [| y t IH]; intros Hnd Hin; [destruct Hin |].
  inversion Hnd as [| ? ? Hy Ht]; subst.
  unfold matches in *. simpl. destruct (String.eqb y k) eqn:E.
  - apply String.eqb_eq in E. subst y. simpl. f_equal.
    now apply (matches_absent k f t).
  - apply IH; [assumption |].
    destruct Hin as [-> | Hin]; [| assumption].
    rewrite String.eqb_refl in E. discriminate E.
Qed.

(** Joining two per-key tables built over the same distinct keys pairs the
    entries key by key. *)
Lemma merge_left_same_keys {A B : Type} (f : string -> A) (g : string -> B)
  (ks : list string) :
  NoDup ks ->
  merge_left (map (fun k => (k, f k)) ks) (map (fun k => (k, g k)) ks) =
  map (fun k => (k, (f k, Some (g k)))) ks.
Proof.
  intros Hnd. unfold merge_left.
  assert (H : forall sub, incl sub ks ->
    flat_map
      (fun ka : string * A =>
         match matches (fst ka) (map (fun k => (k, g k)) ks) with
         | [] => [(fst ka, (snd ka, None))]
         | b :: bs => map (fun b0 => (fst ka, (snd ka, Some b0))) (b :: bs)
         end) (map (fun k => (k, f k)) sub) =
    map (fun k => (k, (f k, Some (g k)))) sub).
  { induction sub as [| k t IH]; intros Hsub; [reflexivity |].
    simpl. rewrite (matches_unique k g ks Hnd) by (apply Hsub; now left).
    simpl. f_equal. apply IH. intros x Hx. apply Hsub. now right. }
  apply H. apply incl_refl.
Qed.

(** ** The outcomes of a call *)

Lemma max_dates_inr (l : list row) (ks : list string) :
  forall r, max_dates l ks = inr r ->
    r = map (fun k => (k, latest (map Date (group k l)))) ks /\
    forallb (fun k => negb (mixed_dates (map Date (group k l)))) ks = true.
Proof.
  induction ks as [| k t IH]; intros r H; simpl in H.
  - injection H as <-. split; reflexivity.
  - unfold date_max in H.
    destruct (mixed_dates (map Date (group k l))) eqn:M; [discriminate H |].
    destruct (max_dates l t) as [e | r']; [discriminate H |].
    injection H as <-. destruct (IH _ eq_refl) as [-> F].
    simpl. rewrite M, F. split; reflexivity.
Qed.

Lemma max_dates_inl (l : list row) (ks : list string) :
  forall e, max_dates l ks = inl e ->
    forallb (fun k => negb (mixed_dates (map Date (group k l)))) ks = false.
Proof.
  induction ks as [| k t IH]; intros e H; simpl in H; [discriminate H |].
  unfold date_max in H. simpl.
  destruct (mixed_dates (map Date (group k l))); [reflexivity |].
  destruct (max_dates l t) as [e' | r']; [| discriminate H].
  simpl. now apply (IH e').
Qed.

(** The three ways a call ends, by the frame it was given. *)
Lemma aggregate_data_cases (df : frame) :
  let l := map fill_row (rows df) in
  let available := (info, MsgLabels "Available columns in data: "
                                    (columns df)) in
  (missing_columns (map lower (columns df)) <> [] /\
   aggregate_data df =
   {| returned := empty_summary;
      caller_frame := lower_columns df;
      logged := [available;
                 (error, MsgExn "Error during data aggregation: "
                           (ValueError
                              (missing_columns (map lower (columns df)))))] |})
  \/
  (missing_columns (map lower (columns df)) = [] /\
   (dates_compare l = false \/ group_keys l = []) /\
   exists e,
     aggregate_data df =
     {| returned := empty_summary;
        caller_frame := fill_dailyreturn (lower_columns df);
        logged := [available;
                   (error, MsgExn "Error during data aggregation: " e)] |})
  \/
  (missing_columns (map lower (columns df)) = [] /\
   dates_compare l = true /\ group_keys l <> [] /\
   aggregate_data df =
   {| returned := {| summary_columns := aggregated_columns;
                     summary_rows := map (summarize l) (group_keys l) |};
      caller_frame := fill_dailyreturn (lower_columns df);
      logged := [available;
                 (info, Msg "Data aggregation completed successfully.")] |}).
Proof.
  intros l available. unfold aggregate_data. simpl columns.
  destruct (missing_columns (map lower (columns df))) as [| c t] eqn:Hm.
  - right. simpl rows. fold l.
    destruct (max_date l) as [e | dates] eqn:Hd.
    + left. split; [reflexivity |]. split; [| exists e; reflexivity].
      left. now apply (max_dates_inl _ _ e).
    + destruct (max_dates_inr _ _ _ Hd) as [-> F].
      destruct (group_keys l) as [| k ks] eqn:Hk.
      * left. split; [reflexivity |]. split; [now right |].
        eexists. reflexivity.
      * right. split; [reflexivity |].
        split; [unfold dates_compare; rewrite Hk; exact F |].
        split; [discriminate |].
        rewrite <- Hk.
        unfold company_performance_summary, volatility_index,
          moving_averages.
        pose proof (group_keys_NoDup l) as Hnd.
        rewrite (merge_left_same_keys _ _ _ Hnd).
        rewrite (merge_left_same_keys _ _ _ Hnd).
        rewrite (merge_left_same_keys _ _ _ Hnd).
        rewrite map_map. reflexivity.
  - left. split; [discriminate | reflexivity].
Qed.

(** What a completed call was given and what it returns. *)
Lemma completed_rows (df : frame) :
  completed df ->
  missing_columns (map lower (columns df)) = [] /\
  dates_compare (map fill_row (rows df)) = true /\
  group_keys (map fill_row (rows df)) <> [] /\
  returned (aggregate_data df) =
  {| summary_columns := aggregated_columns;
     summary_rows := map (summarize (map fill_row (rows df)))
                         (group_keys (map fill_row (rows df))) |}.
Proof.
  unfold completed. intros H.
  destruct (aggregate_data_cases df) as [[_ E] | [[_ [_ [e E]]] | [Hm [Hd [Hk E]]]]].
  - rewrite E in H. discriminate H.
  - rewrite E in H. discriminate H.
  - rewrite E. auto.
Qed.

Lemma aggregate_data_rows (df : frame) :
  completed df ->
  summary_rows (returned (aggregate_data df)) =
  map (summarize (map fill_row (rows df)))
      (group_keys (map fill_row (rows df))).
Proof.
  intros H. destruct (completed_rows df H) as [_ [_ [_ E]]]. now rewrite E.
Qed.

Lemma group_fill_row (k : string) (l : list row) :
  group k (map fill_row l) = map fill_row (group k l).
Proof.
  unfold group. induction l as [| r t IH]; [reflexivity |].
  simpl. change (in_group k (fill_row r)) with (in_group k r).
  destruct (in_group k r); simpl; now rewrite IH.
Qed.

Lemma symbols_fill_row (l : list row) :
  map Symbol (map fill_row l) = map Symbol l.
Proof. rewrite map_map. reflexivity. Qed.

(** Every symbol of the input has its summary, computed from the rows of
    that symbol after the missing returns were replaced. *)
Lemma summary_of_symbol (df : frame) (k : string) :
  completed df ->
  In (Some k) (map Symbol (rows df)) ->
  In (summarize (map fill_row (rows df)) k)
     (summary_rows (returned (aggregate_data df))).
Proof.
  intros Hm Hk. rewrite (aggregate_data_rows df Hm).
  apply in_map. apply group_keys_In. now rewrite symbols_fill_row.
Qed.

Lemma summary_unique (df : frame) (s : summary_row) :
  completed df ->
  In s (summary_rows (returned (aggregate_data df))) ->
  s = summarize (map fill_row (rows df)) (symbol s).
Proof.
  intros Hm Hs. rewrite (aggregate_data_rows df Hm) in Hs.
  apply in_map_iff in Hs. destruct Hs as [k [<- _]]. reflexivity.
Qed.

(** ** Volatility *)

Lemma dropna_filled (l : list float) :
  dropna (map fillna0 l) = map fillna0 l.
Proof.
  unfold dropna. induction l as [| x t IH]; [reflexivity |].
  simpl. rewrite IH. now destruct x.
Qed.

Lemma all_finite_filled (l : list float) :
  all_finite (map fillna0 l) = None <-> has_inf (map fillna0 l) = true.
Proof.
  unfold has_inf. induction l as [| x t IH]; simpl.
  - split; discriminate.
  - destruct x as [| q | b]; simpl.
    + destruct (all_finite (map fillna0 t)).
      * split; [discriminate |]. intros H. apply IH in H. discriminate H.
      * split; [intros _; now apply IH | reflexivity].
    + destruct (all_finite (map fillna0 t)).
      * split; [discriminate |]. intros H. apply IH in H. discriminate H.
      * split; [intros _; now apply IH | reflexivity].
    + split; reflexivity.
Qed.

Lemma std_filled (l : list float) :
  std (map fillna0 l) = RootNaN <->
  (List.length l < 2)%nat \/ has_inf (map fillna0 l) = true.
Proof.
  unfold std. rewrite dropna_filled, length_map.
  destruct (Nat.ltb_spec (List.length l) 2) as [Hlt | Hge].
  - split; [now left | reflexivity].
  - rewrite <- all_finite_filled.
    destruct (all_finite (map fillna0 l)).
    + split; [discriminate |]. intros [H | H]; [lia | discriminate H].
    + split; [now right | reflexivity].
Qed.

Lemma returns_of_filled_group (k : string) (l : list row) :
  map DailyReturn (group k (map fill_row l)) =
  map fillna0 (map DailyReturn (group k l)).
Proof. rewrite group_fill_row, !map_map. reflexivity. Qed.

(** C2 (as the code has it): when the call completes (it logs its
    success), the volatility of a symbol is the sample standard deviation of
    its returns after every missing return was replaced by 0.  It is
    undefined exactly when the symbol has fewer than two rows or one of its
    returns is infinite; otherwise it is the square root of the sample
    variance of the replaced returns. *)
Theorem volatility_of_filled_returns (df : frame) (k : string) :
  completed df ->
  In (Some k) (map Symbol (rows df)) ->
  exists s,
    In s (summary_rows (returned (aggregate_data df))) /\
    symbol s = k /\
    volatilityindex s =
      std (map fillna0 (map DailyReturn (group k (rows df)))) /\
    (volatilityindex s = RootNaN <->
     (List.length (group k (rows df)) < 2)%nat \/
     has_inf (map fillna0 (map DailyReturn (group k (rows df)))) = true) /\
    (forall qs,
       (2 <= List.length (group k (rows df)))%nat ->
       all_finite (map fillna0 (map DailyReturn (group k (rows df))))
       = Some qs ->
       volatilityindex s = Root (Qred (sample_variance qs))).
Proof.
  intros Hm Hk.
  exists (summarize (map fill_row (rows df)) k).
  split; [now apply summary_of_symbol |].
  split; [reflexivity |].
  simpl volatilityindex. rewrite returns_of_filled_group.
  split; [reflexivity |]. split.
  - rewrite std_filled, length_map. reflexivity.
  - intros qs Hlen Hfin. unfold std.
    rewrite dropna_filled, !length_map, Hfin.
    destruct (Nat.ltb_spec (List.length (group k (rows df))) 2);
      [lia | reflexivity].
Qed.

Lemma volatility_of_filled_returns_witness :
  exists s,
    In s (summary_rows (returned (aggregate_data aapl_frame))) /\
    symbol s = "AAPL" /\
    volatilityindex s =
      std (map fillna0 (map DailyReturn (group "AAPL" (rows aapl_frame)))) /\
    (volatilityindex s = RootNaN <->
     (List.length (group "AAPL" (rows aapl_frame)) < 2)%nat \/
     has_inf (map fillna0 (map DailyReturn (group "AAPL" (rows aapl_frame))))
     = true) /\
    (forall qs,
       (2 <= List.length (group "AAPL" (rows aapl_frame)))%nat ->
       all_finite
         (map fillna0 (map DailyReturn (group "AAPL" (rows aapl_frame))))
       = Some qs ->
       volatilityindex s = Root (Qred (sample_variance qs))).
Proof.
  apply (volatility_of_filled_returns aapl_frame "AAPL").
  - reflexivity.
  - simpl. left. reflexivity.
Defined.

(** C2 fails as stated: in the scenario of the two AAPL rows the symbol has
    a single numeric return, 0.10, and its volatility is defined: it is the
    square root of 0.005, the deviation of the two values 0 and 0.10. *)
Lemma volatility_defined_with_one_return :
  map DailyReturn (rows aapl_frame) = [NaN; Num (1 # 10)] /\
  count_numeric (map DailyReturn (group "AAPL" (rows aapl_frame))) = 1%nat /\
  map (fun s => (symbol s, dailyreturn s, volatilityindex s))
      (summary_rows (returned (aggregate_data aapl_frame))) =
  [("AAPL", Num (1 # 20), Root (1 # 200))].
Proof. repeat split. Qed.

(** ** Moving averages *)

Lemma last_map_seq {A : Type} (f : nat -> A) (m : nat) (d : A) :
  last (map f (seq 0 (S m))) d = f m.
Proof.
  rewrite seq_S, map_app. simpl. apply last_last.
Qed.

(** The last value of the rolling mean is the mean of the last window. *)
Lemma iloc_last_rolling_mean (n : nat) (l : list float) :
  (0 < n)%nat -> (n <= List.length l)%nat ->
  iloc_last (rolling_mean n l) = window_mean (lastn n l).
Proof.
  intros Hn Hl. unfold iloc_last, rolling_mean, lastn.
  destruct (List.length l) as [| m] eqn:E; [lia |].
  rewrite last_map_seq. unfold rolling_at.
  destruct (Nat.ltb_spec (m + 1) n); [lia |].
  replace (m + 1 - n)%nat with (S m - n)%nat by lia.
  f_equal. apply firstn_all2. rewrite length_skipn. lia.
Qed.

Lemma moving_average_window (n : nat) (g : list row) :
  (0 < n)%nat ->
  moving_average n g =
  match numeric_window n g with
  | Some qs => Num (Qred (Qmean qs))
  | None => NaN
  end.
Proof.
  intros Hn. unfold moving_average, numeric_window.
  destruct (Nat.leb_spec n (List.length g)); [| reflexivity].
  rewrite iloc_last_rolling_mean by (rewrite ?length_map; assumption).
  reflexivity.
Qed.

Lemma numeric_window_fill_row (n : nat) (g : list row) :
  numeric_window n (map fill_row g) = numeric_window n g.
Proof.
  unfold numeric_window. rewrite length_map, map_map. reflexivity.
Qed.

Lemma numeric_window_length (n : nat) (g : list row) (qs : list Q) :
  numeric_window n g = Some qs -> List.length qs = n.
Proof.
  unfold numeric_window.
  destruct (Nat.leb_spec n (List.length g)); [| discriminate].
  assert (H1 : List.length (lastn n (map ClosePrice g)) = n).
  { unfold lastn. rewrite length_skipn, length_map. lia. }
  revert H1. generalize (lastn n (map ClosePrice g)). clear.
  intros l. revert n qs.
  induction l as [| x t IH]; intros n qs Hl Hf.
  - simpl in Hf. injection Hf as <-. exact Hl.
  - simpl in Hf. destruct x as [| q |]; try discriminate Hf.
    destruct (all_finite t) as [qs' |] eqn:E; [| discriminate Hf].
    injection Hf as <-. simpl in *.
    destruct n as [| n]; [discriminate Hl |].
    f_equal. apply (IH n qs'); [lia | reflexivity].
Qed.

(** C6 (as the code has it): when the call completes (it logs its
    success), movingAvg5 (movingAvg10) is a number exactly when the symbol
    has at least 5 (10) rows and the close of each of its last 5 (10) rows,
    in the order of the frame, is a number; it is then the sum of these 5
    (10) closes divided by their count.  Otherwise it is undefined. *)
Theorem moving_averages_of_last_rows (df : frame) (k : string) :
  completed df ->
  In (Some k) (map Symbol (rows df)) ->
  exists s,
    In s (summary_rows (returned (aggregate_data df))) /\
    symbol s = k /\
    movingavg5day s =
      match numeric_window 5 (group k (rows df)) with
      | Some qs => Num (Qred (Qsum qs / 5))
      | None => NaN
      end /\
    movingavg10day s =
      match numeric_window 10 (group k (rows df)) with
      | Some qs => Num (Qred (Qsum qs / 10))
      | None => NaN
      end.
Proof.
  intros Hm Hk.
  exists (summarize (map fill_row (rows df)) k).
  split; [now apply summary_of_symbol |].
  split; [reflexivity |].
  simpl movingavg5day. simpl movingavg10day.
  rewrite group_fill_row, !moving_average_window by lia.
  rewrite !numeric_window_fill_row.
  split.
  - destruct (numeric_window 5 (group k (rows df))) as [qs |] eqn:E;
      [| reflexivity].
    unfold Qmean. now rewrite (numeric_window_length _ _ _ E).
  - destruct (numeric_window 10 (group k (rows df))) as [qs |] eqn:E;
      [| reflexivity].
    unfold Qmean. now rewrite (numeric_window_length _ _ _ E).
Qed.

Lemma moving_averages_of_last_rows_witness :
  exists s,
    In s (summary_rows (returned (aggregate_data six_closes))) /\
    symbol s = "AAPL" /\
    movingavg5day s =
      match numeric_window 5 (group "AAPL" (rows six_closes)) with
      | Some qs => Num (Qred (Qsum qs / 5))
      | None => NaN
      end /\
    movingavg10day s =
      match numeric_window 10 (group "AAPL" (rows six_closes)) with
      | Some qs => Num (Qred (Qsum qs / 10))
      | None => NaN
      end.
Proof.
  apply (moving_averages_of_last_rows six_closes "AAPL").
  - reflexivity.
  - simpl. left. reflexivity.
Defined.

(** With six numeric closes 1..6 the 5-row average is that of 2..6 and the
    10-row average is undefined. *)
Example six_closes_moving_averages :
  map (fun s => (movingavg5day s, movingavg10day s))
      (summary_rows (returned (aggregate_data six_closes))) =
  [(Num 4, NaN)].
Proof. reflexivity. Qed.

(** C6 fails as stated: the symbol has six rows, five of them with a
    numeric close, and movingAvg5 is undefined, because the close of the
    last row is missing. *)
Lemma moving_average_undefined_with_six_rows :
  List.length (group "AAPL" (rows six_rows)) = 6%nat /\
  count_numeric (map ClosePrice (group "AAPL" (rows six_rows))) = 5%nat /\
  map (fun s => (symbol s, movingavg5day s))
      (summary_rows (returned (aggregate_data six_rows))) =
  [("AAPL", NaN)].
Proof. repeat split. Qed.

(** ** What the call leaves in the caller's frame *)

Lemma fill_row_not_missing (r : row) : DailyReturn (fill_row r) <> NaN.
Proof. simpl. destruct (DailyReturn r); discriminate. Qed.

(** C10 (as the code has it): after any call the labels of the caller's
    frame are in small letters.  The missing returns are replaced by 0 when
    the five required labels are all present; when one is absent the call
    stops before that, and the rows are as they were. *)
Theorem aggregate_data_mutates_input (df : frame) :
  columns (caller_frame (aggregate_data df)) = map lower (columns df) /\
  rows (caller_frame (aggregate_data df)) =
    match missing_columns (map lower (columns df)) with
    | [] => map fill_row (rows df)
    | _ :: _ => rows df
    end /\
  Forall (fun r => DailyReturn r <> NaN) (map fill_row (rows df)).
Proof.
  assert (F : Forall (fun r => DailyReturn r <> NaN)
                     (map fill_row (rows df))).
  { apply Forall_forall. intros r Hr. apply in_map_iff in Hr.
    destruct Hr as [x [<- _]]. apply fill_row_not_missing. }
  destruct (aggregate_data_cases df)
    as [[Hm E] | [[Hm [_ [e E]]] | [Hm [_ [_ E]]]]]; rewrite E; simpl.
  - destruct (missing_columns (map lower (columns df)));
      [now contradiction Hm | auto].
  - rewrite Hm. auto.
  - rewrite Hm. auto.
Qed.

(** C10 fails as stated: the frame has a dailyreturn column and no volume
    column; after the call its labels are in small letters and its first
    return is still missing. *)
Lemma missing_return_survives_call :
  columns (caller_frame (aggregate_data no_volume_frame)) =
  ["date"; "closeprice"; "symbol"; "dailyreturn"] /\
  map DailyReturn (rows (caller_frame (aggregate_data no_volume_frame))) =
  [NaN; Num (1 # 10)] /\
  logged (aggregate_data no_volume_frame) =
  [(info, MsgLabels "Available columns in data: "
                    ["Date"; "ClosePrice"; "Symbol"; "DailyReturn"]);
   (error, MsgExn "Error during data aggregation: " (ValueError ["volume"]))].
Proof. split; [reflexivity | split; reflexivity]. Qed.

End aggregated_facts.

(** * Facts about load.py *)

Module load_facts.
Import load load_spec.

(** ** load_data_to_postgres *)

(** C9: the call raises FileNotFoundError exactly when the file is missing
    or empty; otherwise it returns; in both cases the warehouse is as it
    was, so no row reaches the staging table. *)
Theorem load_data_to_postgres_only_checks_file
  (fs : filesystem) (input_file : string) (db : database) :
  (result_of (load_data_to_postgres fs input_file db) =
   Raised (FileNotFoundError "No data available for loading.") <->
   missing_or_empty fs input_file) /\
  (result_of (load_data_to_postgres fs input_file db) = Returned <->
   ~ missing_or_empty fs input_file) /\
  database_of (load_data_to_postgres fs input_file db) = db.
Proof.
  unfold load_data_to_postgres, missing_or_empty, result_of, database_of.
  destruct (fs input_file) as [size |] eqn:E.
  - destruct (N.eqb_spec size 0) as [-> | Hne]; simpl.
    + repeat split; auto; try discriminate.
      intros H. exfalso. apply H. now right.
    + repeat split; auto; try discriminate.
      * intros [H | H]; [discriminate H |].
        injection H as H. contradiction.
      * intros _ [H | H]; [discriminate H |].
        injection H as H. contradiction.
  - simpl. repeat split; auto; try discriminate.
    intros H. exfalso. apply H. now left.
Qed.

Example load_data_to_postgres_existing_file :
  load_data_to_postgres one_file "dataset/transformed_data.csv" sample_db =
  (Returned, sample_db, [(info, Msg "Starting data load process.")]).
Proof. reflexivity. Qed.

Example load_data_to_postgres_missing_file :
  result_of (load_data_to_postgres one_file "dataset/other.csv" sample_db) =
  Raised (FileNotFoundError "No data available for loading.").
Proof. reflexivity. Qed.

(** ** Keys *)

Lemma date_eqb_eq (a b : calendar_date) : date_eqb a b = true <-> a = b.
Proof.
  unfold date_eqb. destruct a as [y m d], b as [y' m' d']. simpl.
  rewrite !andb_true_iff, !Nat.eqb_eq. split.
  - intros [[-> ->] ->]. reflexivity.
  - intros H. injection H as -> -> ->. auto.
Qed.

Lemma same_key_eq (a b : stock_row) : same_key a b = true <-> key a = key b.
Proof.
  unfold same_key, key. rewrite andb_true_iff, String.eqb_eq, date_eqb_eq.
  split.
  - intros [-> ->]. reflexivity.
  - intros H. injection H as -> ->. auto.
Qed.

Lemma same_key_neq (a b : stock_row) :
  same_key a b = false <-> key a <> key b.
Proof.
  rewrite <- same_key_eq. destruct (same_key a b); split; congruence.
Qed.

Lemma key_do_update (x r : stock_row) : key (do_update x r) = key x.
Proof. reflexivity. Qed.

Lemma key_with_id (id : Z) (r : stock_row) : key (with_id id r) = key r.
Proof. reflexivity. Qed.

Lemma same_key_left (x y r : stock_row) :
  key x = key y -> same_key x r = same_key y r.
Proof.
  intros H. destruct (same_key y r) eqn:E.
  - apply same_key_eq. apply same_key_eq in E. congruence.
  - apply same_key_neq. apply same_key_neq in E. congruence.
Qed.

(** ** The merge *)

Lemma put_again (r : stock_row) (id : Z) (tbl : list stock_row) :
  settled r (put r id tbl).
Proof.
  intros id'. induction tbl as [| x t IH]; simpl.
  - rewrite (same_key_left _ r r) by apply key_with_id.
    rewrite (proj2 (same_key_eq r r) eq_refl). reflexivity.
  - destruct (same_key x r) eqn:E; simpl.
    + rewrite (same_key_left _ x r) by apply key_do_update.
      rewrite E. reflexivity.
    + rewrite E. now rewrite IH.
Qed.

Lemma put_other (r r' : stock_row) (id' : Z) (tbl : list stock_row) :
  same_key r r' = false ->
  settled r tbl -> settled r (put r' id' tbl).
Proof.
  intros Hne. induction tbl as [| x t IH]; intros Hs id.
  - specialize (Hs id). discriminate Hs.
  - pose proof (Hs id) as Hx. simpl in Hx. simpl.
    destruct (same_key x r') eqn:E'; simpl.
    + rewrite (same_key_left _ x r) by apply key_do_update.
      destruct (same_key x r) eqn:E.
      * exfalso. apply same_key_neq in Hne. apply Hne.
        apply same_key_eq in E. apply same_key_eq in E'. congruence.
      * f_equal. now injection Hx.
    + destruct (same_key x r) eqn:E.
      * injection Hx as Hx. now rewrite Hx.
      * f_equal. apply IH. intros i. specialize (Hs i). simpl in Hs.
        rewrite E in Hs. now injection Hs.
Qed.

Lemma same_key_sym (a b : stock_row) : same_key a b = same_key b a.
Proof.
  destruct (same_key b a) eqn:E.
  - apply same_key_eq. apply same_key_eq in E. congruence.
  - apply same_key_neq. apply same_key_neq in E. congruence.
Qed.

(** After a statement that succeeds, every proposed row is settled. *)
Lemma insert_on_conflict_settles (src : list stock_row) :
  forall touched tbl seq tbl' seq',
    insert_on_conflict src touched tbl seq = (inr tbl', seq') ->
    (forall r, In r touched -> settled r tbl) ->
    forall r, In r (touched ++ src) -> settled r tbl'.
Proof.
  induction src as [| x t IH]; intros touched tbl seq tbl' seq' H Hs r Hr.
  - simpl in H. injection H as <- _. rewrite app_nil_r in Hr. now apply Hs.
  - accepted_row H.
    apply (IH _ _ _ _ _ H).
    + intros y [<- | Hy]; [apply put_again |].
      apply put_other; [| now apply Hs].
      rewrite same_key_sym.
      destruct (same_key x y) eqn:Exy; [| reflexivity].
      assert (existsb (same_key x) touched = true)
        by (apply existsb_exists; eauto).
      congruence.
    + apply in_app_or in Hr. destruct Hr as [Hr | [<- | Hr]].
      * right. apply in_or_app. now left.
      * now left.
      * right. apply in_or_app. now right.
Qed.

(** A statement whose proposed rows are all settled changes no row. *)
Lemma insert_on_conflict_settled (src : list stock_row) :
  forall touched tbl seq tbl' seq',
    (forall r, In r src -> settled r tbl) ->
    insert_on_conflict src touched tbl seq = (inr tbl', seq') ->
    tbl' = tbl.
Proof.
  induction src as [| x t IH]; intros touched tbl seq tbl' seq' Hs H.
  - simpl in H. now injection H as <- _.
  - accepted_row H.
    rewrite (Hs x (or_introl eq_refl)) in H.
    apply (IH _ _ _ _ _ (fun r Hr => Hs r (or_intror Hr)) H).
Qed.

(** The sequence never goes back. *)
Lemma insert_on_conflict_seq (src : list stock_row) :
  forall touched tbl seq,
    (seq <= snd (insert_on_conflict src touched tbl seq))%Z.
Proof.
  induction src as [| x t IH]; intros touched tbl seq; simpl; [lia |].
  destruct (exhausted seq); simpl; [lia |].
  destruct (checks x); simpl; [| lia].
  destruct (existsb (same_key x) touched); simpl; [lia |].
  destruct (upsert x seq tbl) as [e | tbl']; simpl; [lia |].
  specialize (IH (x :: touched) tbl' (seq + 1)%Z). lia.
Qed.

Lemma has_id_below (seq : Z) (tbl : list stock_row) :
  ids_below seq tbl -> has_id seq tbl = false.
Proof.
  unfold ids_below, has_id. induction 1 as [| x t Hx _ IH]; [reflexivity |].
  simpl. rewrite IH. destruct (Z.eqb_spec (RecordID x) seq); [lia |].
  reflexivity.
Qed.

Lemma put_ids_below (r : stock_row) (seq : Z) (tbl : list stock_row) :
  ids_below seq tbl -> ids_below (seq + 1) (put r seq tbl).
Proof.
  unfold ids_below. induction 1 as [| x t Hx Ht IH]; simpl.
  - constructor; [simpl; lia | constructor].
  - destruct (same_key x r).
    + constructor; [simpl; lia |].
      eapply Forall_impl; [| exact Ht]. simpl. intros a Ha. lia.
    + constructor; [lia | exact IH].
Qed.

Lemma exhausted_later (seq seq2 : Z) :
  (seq <= seq2)%Z -> exhausted seq = true -> exhausted seq2 = true.
Proof.
  unfold exhausted. intros H E. apply Z.ltb_lt in E. apply Z.ltb_lt. lia.
Qed.

(** A statement that fails on a table whose identifiers all came from the
    sequence fails again later, whatever the table holds by then. *)
Lemma insert_on_conflict_fails_again (src : list stock_row) :
  forall touched tbl seq tbl2 seq2 e,
    ids_below seq tbl -> (seq <= seq2)%Z ->
    fst (insert_on_conflict src touched tbl seq) = inl e ->
    exists e2, fst (insert_on_conflict src touched tbl2 seq2) = inl e2.
Proof.
  induction src as [| x t IH]; intros touched tbl seq tbl2 seq2 e Hb Hle H;
    simpl in H; [discriminate H |].
  simpl. destruct (exhausted seq) eqn:X.
  - rewrite (exhausted_later _ _ Hle X). simpl. eauto.
  - destruct (exhausted seq2); [simpl; eauto |].
    destruct (checks x); simpl in *; [| eauto].
    destruct (existsb (same_key x) touched); simpl in *; [eauto |].
    unfold upsert in H. rewrite (has_id_below _ _ Hb), andb_false_r in H.
    destruct (upsert x seq2 tbl2) as [e2 | tbl2']; simpl; [eauto |].
    apply (IH _ _ _ tbl2' (seq2 + 1)%Z e (put_ids_below x seq tbl Hb));
      [lia | exact H].
Qed.

Lemma keys_put (r : stock_row) (id : Z) (tbl : list stock_row) :
  keys (put r id tbl) =
  if existsb (fun x => same_key x r) tbl then keys tbl
  else keys tbl ++ [key r].
Proof.
  induction tbl as [| x t IH]; simpl; [reflexivity |].
  destruct (same_key x r) eqn:E; simpl; [reflexivity |].
  rewrite IH. now destruct (existsb (fun x0 => same_key x0 r) t).
Qed.

Lemma put_NoDup (r : stock_row) (id : Z) (tbl : list stock_row) :
  NoDup (keys tbl) -> NoDup (keys (put r id tbl)).
Proof.
  intros H. rewrite keys_put.
  destruct (existsb (fun x => same_key x r) tbl) eqn:E; [assumption |].
  apply NoDup_app; [assumption | repeat constructor; intros [] |].
  intros k Hk [<- | []]. unfold keys in Hk. apply in_map_iff in Hk.
  destruct Hk as [x [Hx Hin]].
  assert (existsb (fun x0 => same_key x0 r) tbl = true).
  { apply existsb_exists. exists x. split; [assumption |].
    now apply same_key_eq. }
  congruence.
Qed.

Lemma insert_on_conflict_NoDup (src : list stock_row) :
  forall touched tbl seq tbl' seq',
    NoDup (keys tbl) ->
    insert_on_conflict src touched tbl seq = (inr tbl', seq') ->
    NoDup (keys tbl').
Proof.
  induction src as [| x t IH]; intros touched tbl seq tbl' seq' Hnd H.
  - simpl in H. now injection H as <- _.
  - accepted_row H.
    eapply IH; [| exact H]. now apply put_NoDup.
Qed.

(** C1 (as the code has it): when every identifier of the enterprise table
    is below the value its sequence gives next, merging the staging table
    into the enterprise table a second time leaves the rows of the
    enterprise table as the first merge left them, whatever the staging
    table holds, and a table without duplicate (symbol, date) pairs has
    none after the merge. *)
Theorem move_data_to_edw_idempotent (again : bool) (db : database) :
  NoDup (keys (edw_stock_data db)) ->
  ids_below (edw_RecordID_seq db) (edw_stock_data db) ->
  edw_after (move_data_to_edw again (fst (move_data_to_edw true db))) =
  edw_after (move_data_to_edw true db) /\
  NoDup (keys (edw_after (move_data_to_edw true db))).
Proof.
  intros Hnd Hb. unfold edw_after, move_data_to_edw. simpl negb. cbv iota.
  pose proof (insert_on_conflict_seq (stg_stock_data db) []
                (edw_stock_data db) (edw_RecordID_seq db)) as Hseq.
  destruct (insert_on_conflict (stg_stock_data db) [] (edw_stock_data db)
                               (edw_RecordID_seq db))
    as [[e | tbl1] seq1] eqn:E1; simpl in *.
  - split; [| assumption].
    destruct again; simpl; [| reflexivity].
    destruct (insert_on_conflict_fails_again (stg_stock_data db) []
                (edw_stock_data db) (edw_RecordID_seq db)
                (edw_stock_data db) seq1 e Hb Hseq) as [e2 E2];
      [now rewrite E1 |].
    destruct (insert_on_conflict (stg_stock_data db) [] (edw_stock_data db)
                                 seq1) as [[e3 | tbl2] seq2];
      simpl in *; [reflexivity | discriminate E2].
  - split; [| now apply (insert_on_conflict_NoDup _ _ _ _ _ _ Hnd E1)].
    destruct again; simpl; [| reflexivity].
    destruct (insert_on_conflict (stg_stock_data db) [] tbl1 seq1)
      as [[e2 | tbl2] seq2] eqn:E2; simpl; [reflexivity |].
    refine (insert_on_conflict_settled _ _ _ _ _ _ _ E2).
    intros r Hr.
    apply (insert_on_conflict_settles _ _ _ _ _ _ E1);
      [intros y [] | exact Hr].
Qed.

Lemma move_data_to_edw_idempotent_witness :
  edw_after (move_data_to_edw true (fst (move_data_to_edw true sample_db))) =
  edw_after (move_data_to_edw true sample_db) /\
  NoDup (keys (edw_after (move_data_to_edw true sample_db))).
Proof.
  apply (move_data_to_edw_idempotent true sample_db).
  - simpl. constructor; [intros [] | constructor].
  - simpl. constructor; [simpl; lia | constructor].
Defined.

(** C1 fails as stated: the enterprise table holds a row under the
    identifier the sequence gives next, and staging holds one new key.  The
    first merge is refused by the primary key and leaves the table as it
    was; the sequence keeps what was drawn, and the second merge inserts
    the row. *)
Lemma second_merge_inserts :
  NoDup (keys (edw_stock_data clash_db)) /\
  move_data_to_edw true clash_db =
  ({| stg_stock_data := stg_stock_data clash_db;
      edw_stock_data := [bar 8 "AAPL" (mkDate 2024 1 2) 108];
      edw_RecordID_seq := 9 |},
   [(error, MsgExn "Error moving data to EDW: "
                   (OperationalError "unique"))]) /\
  edw_after (move_data_to_edw true (fst (move_data_to_edw true clash_db))) =
  [bar 8 "AAPL" (mkDate 2024 1 2) 108; bar 9 "MSFT" (mkDate 2024 1 2) 400].
Proof.
  split; [| split; reflexivity].
  simpl. constructor; [intros [] | constructor].
Qed.

(** The scenario of the specification: the stored close 108 becomes 110
    under the identifier the row had, and the new key is inserted under the
    next identifier of the sequence. *)
Example move_data_to_edw_sample :
  map (fun r => (RecordID r, symbol r, date r, close r))
      (edw_after (move_data_to_edw true sample_db)) =
  [(7%Z, "AAPL", mkDate 2024 1 2, 110); (9%Z, "AAPL", mkDate 2024 1 3, 111)].
Proof. reflexivity. Qed.

(** A staging table with a repeated key makes the statement fail; the
    enterprise table keeps its rows, both times. *)
Example move_data_to_edw_repeated_key :
  edw_after
    (move_data_to_edw true
       {| stg_stock_data := [bar 1 "AAPL" (mkDate 2024 1 2) 110;
                             bar 2 "AAPL" (mkDate 2024 1 2) 111];
          edw_stock_data := [bar 7 "AAPL" (mkDate 2024 1 2) 108];
          edw_RecordID_seq := 8 |}) =
  [bar 7 "AAPL" (mkDate 2024 1 2) 108].
Proof. reflexivity. Qed.


End load_facts.

(** * Facts about main2.py *)

Module main2_facts.
Import main2 main2_spec.





(** A run on the two AAPL rows goes through every stage. *)
Example main_complete_run :
  fst (main aapl_run fresh) = inr tt /\
  calls (snd (main aapl_run fresh)) =
  [create_schemas_and_tables; ensure_directory_exists; extract_data;
   save_with_timestamp "extracted_stock_data"; transform_data;
   save_with_timestamp "transformed_data";
   load_data_to_postgres (Some (csv_path "transformed_data"));
   move_data_to_edw; aggregate_data;
   save_with_timestamp "aggregated_data"] /\
  last (log (snd (main aapl_run fresh))) (info, Msg "") =
  (info, Msg "ETL process completed").
Proof. repeat split. Qed.

(** When extraction returns nothing, no stage runs after it. *)
Lemma main_stops_after_empty_extraction (e : env) (w : world) :
  transform.raw_empty (extracted e) = true ->
  fst (main e w) = inr tt /\
  calls (snd (main e w)) =
    calls w ++ [create_schemas_and_tables; ensure_directory_exists;
                extract_data] /\
  db (snd (main e w)) = db w.
Proof.
  intros Hx. unfold main, bind, called, log_message. rewrite Hx. simpl.
  repeat split. now rewrite <- !app_assoc.
Qed.

End main2_facts.

(** * Further facts about transform.py *)

Module transform_more.
Import transform transform_spec transform_terms transform_facts.

Lemma dates_pct_change (hist : list (string * float)) (l : list row) :
  map Date (pct_change hist l) = map Date l.
Proof.
  revert hist. induction l as [| r t IH]; intros hist; [reflexivity |].
  simpl. destruct (Symbol r); simpl; now rewrite IH.
Qed.

Lemma symbols_pct_change (hist : list (string * float)) (l : list row) :
  map Symbol (pct_change hist l) = map Symbol l.
Proof.
  revert hist. induction l as [| r t IH]; intros hist; [reflexivity |].
  simpl. destruct (Symbol r) eqn:E; simpl; rewrite IH; now rewrite ?E.
Qed.

Lemma below_same_dates (a a' : row) (l : list row) :
  Date a = Date a' ->
  forall l', map Date l = map Date l' ->
  Forall (key_le a) l -> Forall (key_le a') l'.
Proof.
  intros Ha. induction l as [| x t IH]; intros l' E H.
  - destruct l'; [constructor | discriminate E].
  - destruct l' as [| x' t']; [discriminate E |].
    simpl in E. injection E as Ex Et.
    inversion H as [| ? ? Hx Ht]; subst.
    constructor; [| now apply IH].
    unfold key_le in *. now rewrite <- Ha, <- Ex.
Qed.

Lemma sorted_same_dates (l : list row) :
  forall l', map Date l = map Date l' ->
  StronglySorted key_le l -> StronglySorted key_le l'.
Proof.
  induction l as [| x t IH]; intros l' E H.
  - destruct l'; [constructor | discriminate E].
  - destruct l' as [| x' t']; [discriminate E |].
    simpl in E. injection E as Ex Et.
    inversion H as [| ? ? Ht Hx]; subst.
    constructor; [now apply IH |].
    now apply (below_same_dates x x' t Ex).
Qed.

(** X1: the rows of the frame [transform_data] returns are in ascending
    order of date, rows without a date last. *)
Theorem transform_data_sorted_by_date (df : raw_frame) :
  StronglySorted key_le (rows (fst (transform_data df))).
Proof.
  unfold transform_data, transform_data_by.
  destruct (has_expected_columns (raw_columns df)); simpl; [| constructor].
  destruct (to_datetime (map raw_Date (raw_rows df))) as [e | ds]; simpl;
    [constructor |].
  destruct (no_text (map raw_Symbol (raw_rows df))); simpl; [constructor |].
  eapply sorted_same_dates; [| apply sort_values_sorted].
  symmetry. apply dates_pct_change.
Qed.

(** ** Symbols *)

Lemma upper_ascii_twice (c : ascii) :
  upper_ascii (upper_ascii c) = upper_ascii c.
Proof.
  destruct c as [[] [] [] [] [] [] [] []]; reflexivity.
Qed.

Lemma upper_twice (s : string) : upper (upper s) = upper s.
Proof.
  induction s as [| c t IH]; [reflexivity |].
  simpl. now rewrite upper_ascii_twice, IH.
Qed.

Lemma convert_rows_upper (ds : list (option calendar_date))
  (rs : list raw_row) :
  Forall upper_symbol (convert_rows ds rs).
Proof.
  revert rs. induction ds as [| d ds IH]; intros rs; [constructor |].
  destruct rs as [| r rs]; [constructor |].
  simpl. constructor; [| apply IH].
  intros s Hs. simpl in Hs.
  destruct (raw_Symbol r) as [k |]; [| discriminate Hs].
  simpl in Hs. injection Hs as <-. apply upper_twice.
Qed.

Lemma upper_symbol_same (l : list row) :
  forall l', map Symbol l = map Symbol l' ->
  Forall upper_symbol l -> Forall upper_symbol l'.
Proof.
  induction l as [| x t IH]; intros l' E H.
  - destruct l'; [constructor | discriminate E].
  - destruct l' as [| x' t']; [discriminate E |].
    simpl in E. injection E as Ex Et.
    inversion H as [| ? ? Hx Ht]; subst.
    constructor; [| now apply IH].
    unfold upper_symbol in *. now rewrite <- Ex.
Qed.

(** X2: every symbol in the frame [transform_data] returns is in capital
    letters. *)
Theorem transform_data_symbols_upper (df : raw_frame) :
  Forall upper_symbol (rows (fst (transform_data df))).
Proof.
  unfold transform_data, transform_data_by.
  destruct (has_expected_columns (raw_columns df)); simpl; [| constructor].
  destruct (to_datetime (map raw_Date (raw_rows df))) as [e | ds]; simpl;
    [constructor |].
  destruct (no_text (map raw_Symbol (raw_rows df))); simpl; [constructor |].
  eapply upper_symbol_same; [symmetry; apply symbols_pct_change |].
  eapply Permutation_Forall;
    [symmetry; apply sort_values_perm | apply convert_rows_upper].
Qed.

(** ** One symbol at a time *)

Lemma rows_of_all (s : string) (l : list row) :
  Forall (fun r => has_symbol s r = true) l -> rows_of s l = l.
Proof.
  unfold rows_of. induction 1 as [| x t Hx _ IH]; [reflexivity |].
  simpl. now rewrite Hx, IH.
Qed.

Lemma rows_of_has_symbol (s : string) (l : list row) :
  Forall (fun r => has_symbol s r = true) (rows_of s l).
Proof.
  apply Forall_forall. intros r Hr. unfold rows_of in Hr.
  apply filter_In in Hr. tauto.
Qed.

Lemma has_symbol_same (s : string) (l : list row) :
  forall l', map Symbol l = map Symbol l' ->
  Forall (fun r => has_symbol s r = true) l ->
  Forall (fun r => has_symbol s r = true) l'.
Proof.
  induction l as [| x t IH]; intros l' E H.
  - destruct l'; [constructor | discriminate E].
  - destruct l' as [| x' t']; [discriminate E |].
    simpl in E. injection E as Ex Et.
    inversion H as [| ? ? Hx Ht]; subst.
    constructor; [| now apply IH].
    unfold has_symbol in *. now rewrite <- Ex.
Qed.

(** On the rows of a single symbol the grouped computation is the plain
    one. *)
Lemma pct_change_single (s : string) (l : list row) :
  Forall (fun r => has_symbol s r = true) l ->
  pct_change [] l = series_pct_change None l.
Proof.
  intros H.
  rewrite <- (rows_of_all s (pct_change [] l)).
  - rewrite rows_of_pct_change. simpl. now rewrite (rows_of_all s l).
  - eapply has_symbol_same; [| exact H].
    symmetry. apply symbols_pct_change.
Qed.

Lemma normalize_only_symbol (s : string) (rs : list raw_row) :
  map normalize (filter (fun r => has_symbol s (normalize r)) rs) =
  rows_of s (map normalize rs).
Proof.
  unfold rows_of. induction rs as [| r t IH]; [reflexivity |].
  simpl. destruct (has_symbol s (normalize r)); simpl; now rewrite IH.
Qed.

Lemma parses_only_symbol (p : raw_row -> bool) (rs : list raw_row) :
  forallb parses (map raw_Date rs) = true ->
  forallb parses (map raw_Date (filter p rs)) = true.
Proof.
  induction rs as [| r t IH]; intros H; [reflexivity |].
  simpl in H. apply andb_prop in H. destruct H as [Hr Ht].
  simpl. destruct (p r); simpl; [rewrite Hr |]; now apply IH.
Qed.

Lemma key_leb_antisym (a b : option calendar_date) :
  key_leb a b = true -> key_leb b a = true -> a = b.
Proof.
  destruct a as [[ya ma da] |], b as [[yb mb db] |]; simpl;
    try discriminate; try reflexivity.
  unfold date_leb. simpl. intros H1 H2.
  destruct (Nat.ltb_spec ya yb); destruct (Nat.ltb_spec yb ya);
    try lia; try discriminate;
    destruct (Nat.ltb_spec ma mb); destruct (Nat.ltb_spec mb ma);
    try lia; try discriminate.
  apply Nat.leb_le in H1, H2.
  assert (ya = yb) by lia. assert (ma = mb) by lia. assert (da = db) by lia.
  now subst.
Qed.

(** Rows in date order with pairwise different dates are in strict order. *)
Lemma sorted_distinct_strict (l : list row) :
  StronglySorted key_le l -> NoDup (map Date l) -> StronglySorted key_lt l.
Proof.
  induction 1 as [| x t _ IH Hx]; intros N; [constructor |].
  simpl in N. inversion N as [| ? ? Hn N']; subst.
  constructor; [now apply IH |].
  apply Forall_forall. intros y Hy.
  rewrite Forall_forall in Hx. specialize (Hx y Hy).
  unfold key_le, key_lt in *.
  destruct (key_leb (Date y) (Date x)) eqn:E; [| reflexivity].
  exfalso. apply Hn. rewrite (key_leb_antisym _ _ Hx E).
  now apply in_map.
Qed.

Lemma no_text_has_symbol (s : string) (rs : list raw_row) :
  no_text (map raw_Symbol
             (filter (fun r => has_symbol s (normalize r)) rs)) = false.
Proof.
  destruct (filter (fun r => has_symbol s (normalize r)) rs)
    as [| r t] eqn:E; [reflexivity |].
  assert (H : In r (filter (fun r => has_symbol s (normalize r)) rs))
    by (rewrite E; now left).
  apply filter_In in H. destruct H as [_ H].
  unfold has_symbol, normalize in H. simpl in H.
  simpl. destruct (raw_Symbol r); [reflexivity | discriminate H].
Qed.

Lemma rows_of_no_text (s : string) (rs : list raw_row) :
  no_text (map raw_Symbol rs) = true -> rows_of s (map normalize rs) = [].
Proof.
  destruct rs as [| r0 t0]; [reflexivity |].
  unfold no_text. generalize (r0 :: t0). clear r0 t0.
  intros l H. change (match map raw_Symbol l with
                      | [] => false
                      | _ :: _ =>
                          forallb (fun c : option string =>
                                     match c with
                                     | Some _ => false
                                     | None => true
                                     end) (map raw_Symbol l)
                      end = true) in H.
  assert (F : forallb (fun c : option string =>
                         match c with Some _ => false | None => true end)
                      (map raw_Symbol l) = true)
    by (destruct (map raw_Symbol l); [discriminate H | exact H]).
  clear H. unfold rows_of.
  induction l as [| r t IH]; [reflexivity |].
  simpl in F. apply andb_prop in F. destruct F as [Hr Ht].
  simpl. unfold has_symbol at 1. simpl.
  destruct (raw_Symbol r); [discriminate Hr |]. simpl. now apply IH.
Qed.

(** X3: take two sorts, a batch whose dates all parse, and a symbol whose
    rows in the batch have pairwise different dates.  The rows
    [transform_data] returns for the symbol, returns included, are the rows
    it returns for the batch reduced to that symbol: the rows of the other
    symbols have no influence on them. *)
Theorem transform_data_by_symbol (sort sort' : list row -> list row)
  (df : raw_frame) (s : string) :
  sorts sort -> sorts sort' ->
  forallb parses (map raw_Date (raw_rows df)) = true ->
  NoDup (map Date (rows_of s (map normalize (raw_rows df)))) ->
  rows_of s (rows (fst (transform_data_by sort df))) =
  rows (fst (transform_data_by sort' (only_symbol s df))).
Proof.
  intros [P S] [P' S'] Hd N.
  unfold transform_data_by. simpl raw_columns. simpl raw_rows.
  destruct (has_expected_columns (raw_columns df)); [| reflexivity].
  simpl negb. cbv iota.
  rewrite (to_datetime_ok _ Hd), (to_datetime_ok _ (parses_only_symbol _ _ Hd)).
  rewrite no_text_has_symbol, !convert_rows_normalize.
  rewrite normalize_only_symbol.
  assert (E : forall l, Permutation l (map normalize (raw_rows df)) ->
                        StronglySorted key_le l ->
                        rows_of s l =
                        sort' (rows_of s (map normalize (raw_rows df)))).
  { intros l Pl Sl. apply sorted_permutation_unique.
    - rewrite P'. now apply filter_perm.
    - now apply filter_sorted.
    - apply sorted_distinct_strict; [apply S' |].
      eapply Permutation_NoDup; [| exact N].
      apply Permutation_map. symmetry. apply P'. }
  destruct (no_text (map raw_Symbol (raw_rows df))) eqn:T.
  - simpl. rewrite (rows_of_no_text s _ T).
    pose proof (Permutation_sym (P' [])) as Q. apply Permutation_nil in Q.
    now rewrite Q.
  - simpl. rewrite rows_of_pct_change. simpl last_of.
    rewrite (E _ (P _) (S _)).
    symmetry. apply (pct_change_single s).
    eapply Permutation_Forall;
      [symmetry; apply P' | apply rows_of_has_symbol].
Qed.

Lemma transform_data_by_symbol_witness :
  rows_of "MSFT" (rows (fst (transform_data_by sort_values mixed_batch))) =
  rows (fst (transform_data_by sort_values (only_symbol "MSFT" mixed_batch))).
Proof.
  apply (transform_data_by_symbol sort_values sort_values mixed_batch "MSFT").
  - exact sort_values_sorts.
  - exact sort_values_sorts.
  - reflexivity.
  - simpl. constructor.
    + intros [H | []]. discriminate H.
    + constructor; [intros [] | constructor].
Defined.

(** X4: in the frame [transform_data] returns, the first row of every
    symbol has no return, whatever the order of the batch. *)
Theorem first_row_without_return (df : raw_frame) (s : string) (r : row) :
  hd_error (rows_of s (rows (fst (transform_data df)))) = Some r ->
  DailyReturn r = NaN.
Proof.
  unfold transform_data, transform_data_by.
  destruct (has_expected_columns (raw_columns df)); simpl;
    [| discriminate].
  destruct (to_datetime (map raw_Date (raw_rows df))) as [e | ds]; simpl;
    [discriminate |].
  destruct (no_text (map raw_Symbol (raw_rows df))); simpl; [discriminate |].
  rewrite rows_of_pct_change. apply series_first.
Qed.

Lemma first_row_without_return_witness :
  exists r,
    hd_error (rows_of "MSFT" (rows (fst (transform_data mixed_batch))))
    = Some r /\
    DailyReturn r = NaN.
Proof.
  eexists. split; [reflexivity |].
  apply (first_row_without_return mixed_batch "MSFT"). reflexivity.
Defined.

End transform_more.

(** * Further facts about aggregated.py *)

Module aggregated_more.
Import aggregated aggregated_spec aggregated_terms aggregated_facts.

(** ** The check of the labels *)

Lemma mem_lower (c : string) (labels : list string) :
  mem c (map lower labels) = true <-> present_nocase c labels.
Proof.
  unfold present_nocase. rewrite transform_facts.mem_In, in_map_iff.
  split; intros [l [H1 H2]]; exists l; tauto.
Qed.

Lemma missing_columns_nil (labels : list string) :
  missing_columns (map lower labels) = [] <->
  forall c, In c required_columns -> present_nocase c labels.
Proof.
  unfold missing_columns. split.
  - intros H c Hc. apply mem_lower.
    destruct (mem c (map lower labels)) eqn:E; [reflexivity |].
    assert (Hin : In c (filter (fun c0 => negb (mem c0 (map lower labels)))
                               required_columns)).
    { apply filter_In. split; [assumption |]. now rewrite E. }
    rewrite H in Hin. destruct Hin.
  - intros H.
    destruct (filter (fun c => negb (mem c (map lower labels)))
                     required_columns) as [| c t] eqn:E; [reflexivity |].
    assert (Hin : In c (c :: t)) by now left.
    rewrite <- E in Hin. apply filter_In in Hin. destruct Hin as [Hc Hm].
    apply H in Hc. apply mem_lower in Hc. rewrite Hc in Hm. discriminate Hm.
Qed.

Lemma missing_columns_In (c : string) (labels : list string) :
  In c (missing_columns (map lower labels)) <->
  In c required_columns /\ ~ present_nocase c labels.
Proof.
  unfold missing_columns. rewrite filter_In.
  split; intros [Hc Hm]; (split; [assumption |]).
  - intros Hp. apply mem_lower in Hp. rewrite Hp in Hm. discriminate Hm.
  - destruct (mem c (map lower labels)) eqn:E; [| reflexivity].
    exfalso. apply Hm. now apply mem_lower.
Qed.

(** X5: [aggregate_data] looks for its five required labels without telling
    small and capital letters apart.  When one of them is absent in that
    sense it returns the empty frame, and the one error it logs is the
    ValueError that names exactly the absent ones.  When all of them are
    present, no error it logs is that ValueError. *)
Theorem aggregate_data_label_check (df : frame) :
  ((exists c, In c required_columns /\ ~ present_nocase c (columns df)) ->
   returned (aggregate_data df) = empty_summary /\
   exists cs,
     (forall m,
        In (error, m) (logged (aggregate_data df)) <->
        m = MsgExn "Error during data aggregation: " (ValueError cs)) /\
     (forall c, In c cs <->
                In c required_columns /\ ~ present_nocase c (columns df))) /\
  ((forall c, In c required_columns -> present_nocase c (columns df)) ->
   forall cs,
     ~ In (error, MsgExn "Error during data aggregation: " (ValueError cs))
          (logged (aggregate_data df))).
Proof.
  pose proof (fun c => missing_columns_In c (columns df)) as Hin.
  destruct (aggregate_data_cases df)
    as [[Hm E] | [[Hm [Hc [e E]]] | [Hm [_ [_ E]]]]]; rewrite E; simpl; split.
  - intros _. split; [reflexivity |].
    exists (missing_columns (map lower (columns df))).
    split; [| exact Hin].
    intros m. split.
    + intros [H | [H | []]]; [discriminate H |]. now injection H as <-.
    + intros ->. right. now left.
  - intros Hp. exfalso. apply Hm. now apply missing_columns_nil.
  - intros [c [Hc' Hn]]. exfalso. apply Hn.
    now apply (proj1 (missing_columns_nil _) Hm).
  - intros _ cs [H | [H | []]]; [discriminate H |].
    injection H as He. subst e.
    unfold aggregate_data in E. simpl columns in E. rewrite Hm in E.
    destruct (max_date (rows (fill_dailyreturn (lower_columns df))))
      as [e' | dates] eqn:D.
    + injection E as E. 
      unfold max_date in D.
      revert D. generalize (group_keys (rows (fill_dailyreturn
                                                (lower_columns df)))).
      intros ks. induction ks as [| k t IH]; simpl; [discriminate |].
      unfold date_max.
      destruct (mixed_dates _); [intros D; injection D as <-; discriminate E |].
      destruct (max_dates _ t) as [e'' | r]; [| discriminate].
      intros D. injection D as ->. now apply IH.
    + destruct (group_keys _); [| discriminate E].
      injection E as E. discriminate E.
  - intros [c [Hc' Hn]]. exfalso. apply Hn.
    now apply (proj1 (missing_columns_nil _) Hm).
  - intros _ cs [H | [H | []]]; discriminate H.
Qed.

Lemma aggregate_data_label_check_witness :
  returned (aggregate_data no_volume_frame) = empty_summary /\
  exists cs,
    (forall m,
       In (error, m) (logged (aggregate_data no_volume_frame)) <->
       m = MsgExn "Error during data aggregation: " (ValueError cs)) /\
    (forall c, In c cs <->
               In c required_columns /\
               ~ present_nocase c (columns no_volume_frame)).
Proof.
  apply (proj1 (aggregate_data_label_check no_volume_frame)).
  exists "volume". split; [simpl; tauto |].
  intros [l [Hl He]]. simpl in Hl.
  destruct Hl as [<- | [<- | [<- | [<- | []]]]]; discriminate He.
Defined.

(** ** One row per symbol *)

Lemma insert_key_sorted (k : string) (l : list string) :
  Sorted key_order l -> Sorted key_order (insert_key k l).
Proof.
  induction l as [| y t IH]; intros H; simpl.
  - repeat constructor.
  - inversion H as [| ? ? Ht Hy]; subst.
    destruct (String.leb k y) eqn:E.
    + constructor; [assumption | constructor; exact E].
    + constructor; [now apply IH |].
      assert (Hyk : key_order y k).
      { destruct (String.leb_total k y) as [H1 | H1]; [congruence | exact H1]. }
      destruct t as [| z t']; simpl.
      * constructor. exact Hyk.
      * destruct (String.leb k z); constructor; [exact Hyk |].
        now inversion Hy.
Qed.

Lemma sort_keys_sorted (l : list string) : Sorted key_order (sort_keys l).
Proof.
  induction l as [| k t IH]; simpl; [constructor |].
  now apply insert_key_sorted.
Qed.

Lemma symbols_of_summaries (l : list row) (ks : list string) :
  map symbol (map (summarize l) ks) = ks.
Proof.
  rewrite map_map. simpl. apply map_id.
Qed.

(** X6: when the call completes (it logs its success), the frame
    [aggregate_data] returns has exactly one row for every symbol that
    occurs in the input, none for a symbol that does not, and its rows are
    in ascending order of symbol. *)
Theorem one_summary_per_symbol (df : frame) :
  completed df ->
  NoDup (map symbol (summary_rows (returned (aggregate_data df)))) /\
  (forall k,
     In k (map symbol (summary_rows (returned (aggregate_data df)))) <->
     In (Some k) (map Symbol (rows df))) /\
  Sorted key_order (map symbol (summary_rows (returned (aggregate_data df)))).
Proof.
  intros Hm. rewrite (aggregate_data_rows df Hm), symbols_of_summaries.
  split; [apply group_keys_NoDup |]. split.
  - intros k. rewrite group_keys_In, symbols_fill_row. reflexivity.
  - apply sort_keys_sorted.
Qed.

Lemma one_summary_per_symbol_witness :
  NoDup (map symbol (summary_rows (returned (aggregate_data six_closes)))) /\
  (forall k,
     In k (map symbol (summary_rows (returned (aggregate_data six_closes))))
     <-> In (Some k) (map Symbol (rows six_closes))) /\
  Sorted key_order
    (map symbol (summary_rows (returned (aggregate_data six_closes)))).
Proof.
  apply (one_summary_per_symbol six_closes). reflexivity.
Defined.

Lemma dates_fill_row (l : list row) :
  map Date (map fill_row l) = map Date l.
Proof. rewrite map_map. reflexivity. Qed.

Lemma no_symbol_no_group (l : list row) :
  (forall r, In r l -> Symbol r = None) -> group_keys l = [].
Proof.
  intros H. destruct (group_keys l) as [| k ks] eqn:Ek; [reflexivity |].
  assert (Hk : In k (group_keys l)) by (rewrite Ek; now left).
  apply group_keys_In in Hk.
  apply in_map_iff in Hk. destruct Hk as [r [Hs Hin]].
  rewrite (H r Hin) in Hs. discriminate Hs.
Qed.

Lemma mixed_group (l : list row) (k : string) (r r' : row) :
  In r l -> In r' l -> Symbol r = Some k -> Symbol r' = Some k ->
  Date r <> None -> Date r' = None ->
  dates_compare l = false.
Proof.
  intros Hr Hr' Hs Hs' Hd Hd'.
  destruct (dates_compare l) eqn:E; [| reflexivity].
  unfold dates_compare in E. rewrite forallb_forall in E.
  assert (Hk : In k (group_keys l)).
  { apply group_keys_In. rewrite <- Hs. now apply in_map. }
  specialize (E k Hk). apply negb_true_iff in E.
  assert (G : forall x, In x l -> Symbol x = Some k -> In x (group k l)).
  { intros x Hx Hsx. unfold group. apply filter_In. split; [exact Hx |].
    unfold in_group. rewrite Hsx. apply String.eqb_refl. }
  unfold mixed_dates in E. apply andb_false_iff in E.
  destruct E as [E | E].
  - assert (T : existsb dated (map Date (group k l)) = true).
    { apply existsb_exists. exists (Date r).
      split; [apply in_map, G; assumption |].
      destruct (Date r); [reflexivity | now contradiction Hd]. }
    congruence.
  - assert (T : existsb (fun d => negb (dated d)) (map Date (group k l))
                = true).
    { apply existsb_exists. exists (Date r').
      split; [apply in_map, G; assumption |].
      now rewrite Hd'. }
    congruence.
Qed.

(** X7: [aggregate_data] returns an empty frame and logs an error when a
    required label is absent, when no row of the input has a symbol, and
    when a symbol has a row with a date and a row without one.  When it
    logs its success the frame it returns is not empty. *)
Theorem aggregate_data_empty (df : frame) :
  (missing_columns (map lower (columns df)) <> [] \/
   (forall r, In r (rows df) -> Symbol r = None) \/
   (exists k r r',
      In r (rows df) /\ In r' (rows df) /\
      Symbol r = Some k /\ Symbol r' = Some k /\
      Date r <> None /\ Date r' = None) ->
   summary_empty (returned (aggregate_data df)) = true /\
   exists e,
     In (error, MsgExn "Error during data aggregation: " e)
        (logged (aggregate_data df))) /\
  (completed df ->
   summary_empty (returned (aggregate_data df)) = false).
Proof.
  split.
  - intros H.
    destruct (aggregate_data_cases df)
      as [[Hm E] | [[Hm [_ [e E]]] | [Hm [Hd [Hk E]]]]].
    + rewrite E. simpl. split; [reflexivity |].
      eexists. right. left. reflexivity.
    + rewrite E. simpl. split; [reflexivity |].
      exists e. right. left. reflexivity.
    + exfalso. destruct H as [H | [H | [k [r [r' H]]]]].
      * now apply H.
      * apply Hk. apply no_symbol_no_group.
        intros r Hr. apply in_map_iff in Hr. destruct Hr as [x [<- Hx]].
        simpl. now apply H.
      * destruct H as [Hr [Hr' [Hs [Hs' [Hdr Hdr']]]]].
        rewrite (mixed_group (map fill_row (rows df)) k
                             (fill_row r) (fill_row r')) in Hd;
          [discriminate Hd | | | | | |];
          try (now apply in_map); assumption.
  - intros H. destruct (completed_rows df H) as [_ [_ [Hk E]]].
    rewrite E. unfold summary_empty. simpl.
    destruct (group_keys (map fill_row (rows df)));
      [now contradiction Hk | reflexivity].
Qed.

Lemma aggregate_data_empty_witness :
  summary_empty (returned (aggregate_data undated_row_frame)) = true /\
  exists e,
    In (error, MsgExn "Error during data aggregation: " e)
       (logged (aggregate_data undated_row_frame)).
Proof.
  apply (proj1 (aggregate_data_empty undated_row_frame)).
  right. right.
  exists "AAPL", (obs "AAPL" (mkDate 2024 1 1) (Num 100) NaN).
  eexists. split; [left; reflexivity |].
  split; [right; left; reflexivity |].
  split; [reflexivity |]. split; [reflexivity |].
  split; [discriminate | reflexivity].
Defined.

(** A frame with the labels and no row, and a frame where a symbol has a
    row without a date: both calls end in the [except] clause. *)
Example aggregate_data_fails :
  aggregate_data no_rows_frame =
  {| returned := empty_summary;
     caller_frame := lower_columns no_rows_frame;
     logged := [(info, MsgLabels "Available columns in data: "
                                 transformed_columns);
                (error, MsgExn "Error during data aggregation: "
                               (AlreadyExists "symbol"))] |} /\
  returned (aggregate_data undated_row_frame) = empty_summary /\
  map DailyReturn (rows (caller_frame (aggregate_data undated_row_frame))) =
  [Num 0; Num (1 # 10)].
Proof. split; [reflexivity | split; reflexivity]. Qed.

(** ** A second call *)

Lemma lower_ascii_twice (c : ascii) :
  lower_ascii (lower_ascii c) = lower_ascii c.
Proof.
  destruct c as [[] [] [] [] [] [] [] []]; reflexivity.
Qed.

Lemma lower_twice (s : string) : lower (lower s) = lower s.
Proof.
  induction s as [| c t IH]; [reflexivity |].
  simpl. now rewrite lower_ascii_twice, IH.
Qed.

Lemma map_lower_twice (l : list string) :
  map lower (map lower l) = map lower l.
Proof.
  rewrite map_map. apply map_ext. apply lower_twice.
Qed.

Lemma fill_row_twice (r : row) : fill_row (fill_row r) = fill_row r.
Proof.
  unfold fill_row. simpl. now destruct (DailyReturn r).
Qed.

Lemma map_fill_row_twice (l : list row) :
  map fill_row (map fill_row l) = map fill_row l.
Proof.
  rewrite map_map. apply map_ext. apply fill_row_twice.
Qed.

(** X8: calling [aggregate_data] again on the frame a first call left
    behind returns the same summary and leaves that frame as it is. *)
Theorem aggregate_data_again (df : frame) :
  returned (aggregate_data (caller_frame (aggregate_data df))) =
  returned (aggregate_data df) /\
  caller_frame (aggregate_data (caller_frame (aggregate_data df))) =
  caller_frame (aggregate_data df).
Proof.
  destruct (missing_columns (map lower (columns df))) as [| c t] eqn:E.
  - assert (C : caller_frame (aggregate_data df)
                = fill_dailyreturn (lower_columns df)).
    { destruct (aggregate_data_cases df)
        as [[Hm _] | [[_ [_ [e H]]] | [_ [_ [_ H]]]]];
        [now contradiction Hm | now rewrite H | now rewrite H]. }
    assert (A : aggregate_data (fill_dailyreturn (lower_columns df))
                = {| returned := returned (aggregate_data df);
                     caller_frame := fill_dailyreturn (lower_columns df);
                     logged :=
                       (info, MsgLabels "Available columns in data: "
                                        (map lower (columns df)))
                       :: tl (logged (aggregate_data df)) |}).
    { unfold aggregate_data. simpl columns.
      rewrite map_lower_twice, E.
      unfold fill_dailyreturn, lower_columns. simpl columns. simpl rows.
      rewrite map_lower_twice, map_fill_row_twice.
      destruct (max_date (map fill_row (rows df))); [reflexivity |].
      destruct (group_keys (map fill_row (rows df))); reflexivity. }
    rewrite C, A. split; reflexivity.
  - assert (C : aggregate_data df
                = {| returned := empty_summary;
                     caller_frame := lower_columns df;
                     logged :=
                       [(info, MsgLabels "Available columns in data: "
                                         (columns df));
                        (error, MsgExn "Error during data aggregation: "
                                       (ValueError (c :: t)))] |}).
    { unfold aggregate_data. simpl columns. now rewrite E. }
    rewrite C. simpl caller_frame. simpl returned.
    unfold aggregate_data. simpl columns.
    rewrite map_lower_twice, E.
    unfold lower_columns. simpl.
    rewrite map_lower_twice. split; reflexivity.
Qed.

(** ** The latest date *)

Lemma date_leb_refl (d : calendar_date) : date_leb d d = true.
Proof. now destruct (transform_facts.date_leb_total d d). Qed.

Lemma later_left (d : calendar_date) (b : option calendar_date) :
  exists m, later (Some d) b = Some m /\ date_leb d m = true.
Proof.
  destruct b as [y |]; simpl.
  - destruct (date_leb d y) eqn:E; eauto using date_leb_refl.
  - eauto using date_leb_refl.
Qed.

Lemma later_right (a : option calendar_date) (d : calendar_date) :
  exists m, later a (Some d) = Some m /\ date_leb d m = true.
Proof.
  destruct a as [x |]; simpl.
  - destruct (date_leb x d) eqn:E; [eauto using date_leb_refl |].
    exists x. split; [reflexivity |].
    destruct (transform_facts.date_leb_total x d); congruence.
  - eauto using date_leb_refl.
Qed.

Lemma later_one_of (a b : option calendar_date) :
  later a b = a \/ later a b = b.
Proof.
  destruct a as [x |], b as [y |]; simpl; auto.
  destruct (date_leb x y); auto.
Qed.

Lemma fold_later_above (l : list (option calendar_date)) :
  forall d, exists m,
    fold_left later l (Some d) = Some m /\ date_leb d m = true.
Proof.
  induction l as [| x t IH]; intros d; simpl.
  - eauto using date_leb_refl.
  - destruct (later_left d x) as [m0 [E0 H0]].
    change (match x with
            | Some y => if date_leb d y then Some y else Some d
            | None => Some d
            end) with (later (Some d) x).
    rewrite E0. destruct (IH m0) as [m [E H]].
    exists m. split; [exact E |].
    eapply transform_facts.date_leb_trans; eauto.
Qed.

Lemma fold_later_In (l : list (option calendar_date)) :
  forall acc d, In (Some d) l ->
    exists m, fold_left later l acc = Some m /\ date_leb d m = true.
Proof.
  induction l as [| x t IH]; intros acc d Hin; [destruct Hin |].
  simpl. destruct Hin as [-> | Hin]; [| now apply IH].
  destruct (later_right acc d) as [m0 [E0 H0]]. rewrite E0.
  destruct (fold_later_above t m0) as [m [E H]].
  exists m. split; [exact E |].
  eapply transform_facts.date_leb_trans; eauto.
Qed.

Lemma fold_later_from (l : list (option calendar_date)) :
  forall acc m, fold_left later l acc = Some m ->
    acc = Some m \/ In (Some m) l.
Proof.
  induction l as [| x t IH]; intros acc m H; simpl in H; [now left |].
  apply IH in H. destruct H as [H | H]; [| right; now right].
  destruct (later_one_of acc x) as [E | E]; rewrite E in H.
  - now left.
  - right. left. exact H.
Qed.

(** X9: when the call completes (it logs its success), maxdate is the
    latest date among the rows of the symbol: no row of the symbol has a
    later date, and it is the date of one of them. *)
Theorem maxdate_is_latest (df : frame) (k : string) :
  completed df ->
  In (Some k) (map Symbol (rows df)) ->
  exists s,
    In s (summary_rows (returned (aggregate_data df))) /\
    symbol s = k /\
    (forall r d,
       In r (group k (rows df)) -> Date r = Some d ->
       exists m, maxdate s = Some m /\ date_leb d m = true) /\
    (forall m,
       maxdate s = Some m ->
       exists r, In r (group k (rows df)) /\ Date r = Some m).
Proof.
  intros Hm Hk.
  exists (summarize (map fill_row (rows df)) k).
  split; [now apply summary_of_symbol |].
  split; [reflexivity |].
  simpl maxdate. rewrite group_fill_row, dates_fill_row. unfold latest.
  split.
  - intros r d Hr Hd. apply fold_later_In.
    rewrite <- Hd. now apply in_map.
  - intros m H. apply fold_later_from in H.
    destruct H as [H | H]; [discriminate H |].
    apply in_map_iff in H. destruct H as [r [Hd Hr]]. eauto.
Qed.

Lemma maxdate_is_latest_witness :
  exists s,
    In s (summary_rows (returned (aggregate_data six_closes))) /\
    symbol s = "AAPL" /\
    (forall r d,
       In r (group "AAPL" (rows six_closes)) -> Date r = Some d ->
       exists m, maxdate s = Some m /\ date_leb d m = true) /\
    (forall m,
       maxdate s = Some m ->
       exists r, In r (group "AAPL" (rows six_closes)) /\ Date r = Some m).
Proof.
  apply (maxdate_is_latest six_closes "AAPL").
  - reflexivity.
  - simpl. left. reflexivity.
Defined.

(** ** Means and sums *)

Lemma fold_Qplus_compat (l : list Q) (a b : Q) :
  a == b -> fold_left Qplus l a == fold_left Qplus l b.
Proof.
  revert a b. induction l as [| x t IH]; intros a b H; simpl; [exact H |].
  apply IH. now rewrite H.
Qed.

Lemma fsum_from (l : list float) :
  forall qs a, all_finite l = Some qs ->
    exists q, fold_left fadd l (Num a) = Num q /\
              q == fold_left Qplus qs a.
Proof.
  induction l as [| x t IH]; intros qs a H.
  - simpl in H. injection H as <-. exists a. split; reflexivity.
  - simpl in H. destruct x as [| x |]; try discriminate H.
    destruct (all_finite t) as [qs' |] eqn:E; [| discriminate H].
    injection H as <-.
    destruct (IH qs' (Qred (a + x)) eq_refl) as [q [Hq1 Hq2]].
    exists q. split; [exact Hq1 |].
    rewrite Hq2. cbn [fold_left]. apply fold_Qplus_compat.
    apply Qred_correct.
Qed.

Lemma all_finite_length (l : list float) :
  forall qs, all_finite l = Some qs -> List.length qs = List.length l.
Proof.
  induction l as [| x t IH]; intros qs H.
  - simpl in H. now injection H as <-.
  - simpl in H. destruct x as [| x |]; try discriminate H.
    destruct (all_finite t) as [qs' |]; [| discriminate H].
    injection H as <-. simpl. f_equal. now apply IH.
Qed.

Lemma dropna_numbers (l : list float) :
  has_inf l = false -> all_finite (dropna l) = Some (numbers l).
Proof.
  unfold has_inf, dropna. induction l as [| x t IH]; intros H;
    [reflexivity |].
  simpl in H. destruct x as [| x |]; simpl in *.
  - now apply IH.
  - now rewrite (IH H).
  - discriminate H.
Qed.

Lemma count_positive (n : nat) : Qis_zero (count (S n)) = false.
Proof.
  unfold Qis_zero, count, Qeq_bool. reflexivity.
Qed.

Lemma mean_of_numbers (l : list float) :
  has_inf l = false ->
  match numbers l with
  | [] => mean l = NaN
  | _ :: _ =>
      exists q, mean l = Num q /\
                q == Qsum (numbers l) / count (List.length (numbers l))
  end.
Proof.
  intros H. pose proof (dropna_numbers l H) as E.
  pose proof (all_finite_length _ _ E) as L.
  unfold mean. destruct (dropna l) as [| x t] eqn:D.
  - simpl in E. injection E as <-. reflexivity.
  - destruct (numbers l) as [| y ys] eqn:N; [discriminate L |].
    destruct (fsum_from _ _ 0 E) as [q [Hq1 Hq2]].
    unfold fsum. rewrite Hq1. unfold fdiv.
    change (inject_Z (Z.of_nat (List.length (x :: t))))
      with (count (S (List.length t))).
    rewrite count_positive.
    eexists. split; [reflexivity |].
    rewrite Qred_correct, Hq2, L. reflexivity.
Qed.

Lemma has_inf_filled (l : list float) :
  has_inf (map fillna0 l) = has_inf l.
Proof.
  unfold has_inf. induction l as [| x t IH]; [reflexivity |].
  simpl. rewrite IH. now destruct x.
Qed.

Lemma numbers_filled_length (l : list float) :
  has_inf l = false ->
  List.length (numbers (map fillna0 l)) = List.length l.
Proof.
  unfold has_inf. induction l as [| x t IH]; intros H; [reflexivity |].
  simpl in H. destruct x as [| x |]; simpl in *;
    try (f_equal; now apply IH).
  discriminate H.
Qed.

Lemma numbers_filled_sum (l : list float) :
  forall a, fold_left Qplus (numbers (map fillna0 l)) a ==
            fold_left Qplus (numbers l) a.
Proof.
  induction l as [| x t IH]; intros a; [reflexivity |].
  destruct x as [| x |]; simpl.
  - rewrite IH. apply fold_Qplus_compat. apply Qplus_0_r.
  - apply IH.
  - apply IH.
Qed.

Lemma prices_fill_row (l : list row) :
  map ClosePrice (map fill_row l) = map ClosePrice l.
Proof. rewrite map_map. reflexivity. Qed.

Lemma group_not_empty (k : string) (l : list row) :
  In (Some k) (map Symbol l) -> group k l <> [].
Proof.
  intros H. apply in_map_iff in H. destruct H as [r [Hs Hr]].
  assert (Hin : In r (group k l)).
  { unfold group. apply filter_In. split; [assumption |].
    unfold in_group. rewrite Hs. apply String.eqb_refl. }
  intros E. rewrite E in Hin. destruct Hin.
Qed.

(** X10: when the call completes (it logs its success), the average price
    of a symbol leaves missing closes out: it is the sum of the closes that
    are numbers divided by how many there are, and it is undefined when
    there is none. *)
Theorem average_price_skips_missing (df : frame) (k : string) :
  completed df ->
  In (Some k) (map Symbol (rows df)) ->
  has_inf (map ClosePrice (group k (rows df))) = false ->
  exists s,
    In s (summary_rows (returned (aggregate_data df))) /\
    symbol s = k /\
    match numbers (map ClosePrice (group k (rows df))) with
    | [] => averagedailyprice s = NaN
    | _ :: _ =>
        exists q,
          averagedailyprice s = Num q /\
          q == Qsum (numbers (map ClosePrice (group k (rows df))))
               / count (List.length
                          (numbers (map ClosePrice (group k (rows df)))))
    end.
Proof.
  intros Hm Hk Hc.
  exists (summarize (map fill_row (rows df)) k).
  split; [now apply summary_of_symbol |].
  split; [reflexivity |].
  simpl averagedailyprice.
  rewrite group_fill_row, prices_fill_row.
  now apply mean_of_numbers.
Qed.

Lemma average_price_skips_missing_witness :
  exists s,
    In s (summary_rows (returned (aggregate_data six_rows))) /\
    symbol s = "AAPL" /\
    match numbers (map ClosePrice (group "AAPL" (rows six_rows))) with
    | [] => averagedailyprice s = NaN
    | _ :: _ =>
        exists q,
          averagedailyprice s = Num q /\
          q == Qsum (numbers (map ClosePrice (group "AAPL" (rows six_rows))))
               / count (List.length
                          (numbers (map ClosePrice
                                        (group "AAPL" (rows six_rows)))))
    end.
Proof.
  apply (average_price_skips_missing six_rows "AAPL").
  - reflexivity.
  - simpl. left. reflexivity.
  - reflexivity.
Defined.

(** X11: when the call completes (it logs its success), the mean return of
    a symbol counts a missing return as 0: it is the sum of the returns that
    are numbers divided by the number of rows of the symbol, not by the
    number of returns that are numbers. *)
Theorem mean_return_counts_missing_as_zero (df : frame) (k : string) :
  completed df ->
  In (Some k) (map Symbol (rows df)) ->
  has_inf (map DailyReturn (group k (rows df))) = false ->
  exists s,
    In s (summary_rows (returned (aggregate_data df))) /\
    symbol s = k /\
    exists q,
      dailyreturn s = Num q /\
      q == Qsum (numbers (map DailyReturn (group k (rows df))))
           / count (List.length (group k (rows df))).
Proof.
  intros Hm Hk Hi.
  exists (summarize (map fill_row (rows df)) k).
  split; [now apply summary_of_symbol |].
  split; [reflexivity |].
  simpl dailyreturn. rewrite returns_of_filled_group.
  pose proof (mean_of_numbers (map fillna0 (map DailyReturn
                                              (group k (rows df))))) as M.
  rewrite has_inf_filled in M. specialize (M Hi).
  pose proof (numbers_filled_length _ Hi) as L.
  rewrite length_map in L.
  destruct (numbers (map fillna0 (map DailyReturn (group k (rows df)))))
    as [| y ys] eqn:N.
  - exfalso. apply (group_not_empty k (rows df) Hk).
    destruct (group k (rows df)); [reflexivity | discriminate L].
  - destruct M as [q [Hq1 Hq2]]. exists q. split; [exact Hq1 |].
    rewrite Hq2, L. unfold Qsum. rewrite <- N.
    now rewrite numbers_filled_sum.
Qed.

Lemma mean_return_counts_missing_as_zero_witness :
  exists s,
    In s (summary_rows (returned (aggregate_data aapl_frame))) /\
    symbol s = "AAPL" /\
    exists q,
      dailyreturn s = Num q /\
      q == Qsum (numbers (map DailyReturn (group "AAPL" (rows aapl_frame))))
           / count (List.length (group "AAPL" (rows aapl_frame))).
Proof.
  apply (mean_return_counts_missing_as_zero aapl_frame "AAPL").
  - reflexivity.
  - simpl. left. reflexivity.
  - reflexivity.
Defined.

(** ** After transform_data *)

Lemma with_label_incl (l : string) (labels : list string) :
  incl labels (transform.with_label l labels) /\
  In l (transform.with_label l labels).
Proof.
  unfold transform.with_label. destruct (mem l labels) eqn:E.
  - split; [apply incl_refl | now apply transform_facts.mem_In].
  - split; [apply incl_appl, incl_refl |].
    apply in_or_app. right. now left.
Qed.

(** X12: a frame that [transform_data] returns and that is not empty passes
    the label check of [aggregate_data]: handed on as it is, it never runs
    into the ValueError for missing columns. *)
Theorem transformed_frame_has_required_labels (df : transform.raw_frame) :
  empty (fst (transform.transform_data df)) = false ->
  missing_columns
    (map lower (columns (fst (transform.transform_data df)))) = [].
Proof.
  unfold transform.transform_data, transform.transform_data_by.
  destruct (transform.has_expected_columns (transform.raw_columns df))
    eqn:Hc; simpl; [| discriminate].
  destruct (transform.to_datetime
              (map transform.raw_Date (transform.raw_rows df)))
    as [e | ds]; simpl; [discriminate |].
  destruct (transform.no_text
              (map transform.raw_Symbol (transform.raw_rows df)));
    simpl; [discriminate |].
  intros _. apply missing_columns_nil.
  pose proof (proj1 (transform_facts.has_expected_columns_spec _) Hc) as He.
  destruct (with_label_incl "DailyReturn" (transform.raw_columns df))
    as [Hi Hd].
  intros c Hin. unfold present_nocase. simpl in Hin.
  destruct Hin as [<- | [<- | [<- | [<- | [<- | []]]]]].
  - exists "Date". split; [apply Hi, He; simpl; tauto | reflexivity].
  - exists "ClosePrice". split; [apply Hi, He; simpl; tauto | reflexivity].
  - exists "Volume". split; [apply Hi, He; simpl; tauto | reflexivity].
  - exists "DailyReturn". split; [exact Hd | reflexivity].
  - exists "Symbol". split; [apply Hi, He; simpl; tauto | reflexivity].
Qed.

Lemma transformed_frame_has_required_labels_witness :
  missing_columns
    (map lower
       (columns (fst (transform.transform_data transform_spec.mixed_batch))))
  = [].
Proof.
  apply (transformed_frame_has_required_labels transform_spec.mixed_batch).
  reflexivity.
Defined.

End aggregated_more.

(** * Further facts about load.py *)

Module load_more.
Import load load_spec load_terms load_facts.

(** ** When the merge goes through *)

Lemma existsb_same_key_false (x : stock_row) (l : list stock_row) :
  existsb (same_key x) l = false <->
  forall t, In t l -> key x <> key t.
Proof.
  split.
  - intros H t Ht. apply same_key_neq.
    destruct (same_key x t) eqn:E; [| reflexivity].
    assert (existsb (same_key x) l = true)
      by (apply existsb_exists; eauto).
    congruence.
  - intros H. destruct (existsb (same_key x) l) eqn:E; [| reflexivity].
    apply existsb_exists in E. destruct E as [t [Ht Hk]].
    apply same_key_eq in Hk. exfalso. now apply (H t Ht).
Qed.

(** What a statement that goes through tells of the proposed rows. *)
Lemma insert_on_conflict_succeeded (src : list stock_row) :
  forall touched tbl seq tbl' seq',
    insert_on_conflict src touched tbl seq = (inr tbl', seq') ->
    forallb checks src = true /\ NoDup (keys src) /\
    (forall r t, In r src -> In t touched -> key r <> key t).
Proof.
  induction src as [| x rest IH]; intros touched tbl seq tbl' seq' H.
  - split; [reflexivity |]. split; [constructor |]. intros r t [].
  - accepted_row H.
    destruct (IH _ _ _ _ _ H) as [H1 [H2 H3]].
    match goal with
    | E : existsb (same_key x) touched = false |- _ =>
        pose proof (proj1 (existsb_same_key_false _ _) E) as Hx
    end.
    split; [simpl; apply andb_true_intro; split; assumption |]. split.
    + simpl. constructor; [| exact H2].
      intros Hin. apply in_map_iff in Hin.
      destruct Hin as [r [Hk Hr]].
      apply (H3 r x Hr (or_introl eq_refl) Hk).
    + intros r t [<- | Hr] Ht; [now apply Hx |].
      apply H3; [assumption | now right].
Qed.

(** Rows that pass the CHECKs and share no key go through when the
    identifiers of the table came from the sequence and the sequence has a
    value left for each of them. *)
Lemma insert_on_conflict_succeeds (src : list stock_row) :
  forall touched tbl seq,
    forallb checks src = true -> NoDup (keys src) ->
    (forall r t, In r src -> In t touched -> key r <> key t) ->
    ids_below seq tbl ->
    (seq + Z.of_nat (List.length src) <= serial_max + 1)%Z ->
    exists tbl' seq',
      insert_on_conflict src touched tbl seq = (inr tbl', seq').
Proof.
  induction src as [| x rest IH]; intros touched tbl seq Hc Hn Ht Hb Hr.
  - simpl. eauto.
  - simpl in Hc. apply andb_prop in Hc. destruct Hc as [Hx Hc].
    inversion Hn as [| ? ? Hnx Hn']; subst.
    simpl.
    assert (X : exhausted seq = false).
    { unfold exhausted. apply Z.ltb_ge. simpl List.length in Hr. lia. }
    rewrite X, Hx. simpl.
    assert (T : existsb (same_key x) touched = false).
    { apply existsb_same_key_false. intros t Hin.
      apply Ht; [now left | assumption]. }
    rewrite T. unfold upsert.
    rewrite (has_id_below _ _ Hb), andb_false_r.
    apply IH.
    + exact Hc.
    + exact Hn'.
    + intros r t Hin [<- | Hin'].
      * intros Hk. apply Hnx. rewrite <- Hk. now apply in_map.
      * apply Ht; [now right | assumption].
    + now apply put_ids_below.
    + simpl List.length in Hr. lia.
Qed.

Lemma moved_inv (connected : bool) (db : database) :
  snd (move_data_to_edw connected db) = [moved] ->
  connected = true /\
  exists tbl' seq',
    insert_on_conflict (stg_stock_data db) [] (edw_stock_data db)
                       (edw_RecordID_seq db) = (inr tbl', seq') /\
    edw_after (move_data_to_edw connected db) = tbl'.
Proof.
  unfold move_data_to_edw, edw_after, moved.
  destruct connected; simpl; [| discriminate].
  destruct (insert_on_conflict (stg_stock_data db) [] (edw_stock_data db)
                               (edw_RecordID_seq db))
    as [[e | tbl'] seq'] eqn:E; simpl; [discriminate |].
  intros _. split; [reflexivity |]. eauto.
Qed.

(** X13: a merge goes through only when the warehouse accepts the
    connection, every staging row satisfies the CHECK constraints and no
    two staging rows share a (symbol, date) pair.  It does go through then,
    when the identifiers of the enterprise table are below the value its
    sequence gives next and the sequence has a value left for every staging
    row.  When it does not go through, the enterprise table keeps its rows
    as they were. *)
Theorem move_data_to_edw_all_or_nothing (connected : bool) (db : database) :
  (snd (move_data_to_edw connected db) = [moved] ->
   connected = true /\ forallb checks (stg_stock_data db) = true /\
   NoDup (keys (stg_stock_data db))) /\
  (connected = true -> forallb checks (stg_stock_data db) = true ->
   NoDup (keys (stg_stock_data db)) ->
   ids_below (edw_RecordID_seq db) (edw_stock_data db) ->
   (edw_RecordID_seq db + Z.of_nat (List.length (stg_stock_data db))
    <= serial_max + 1)%Z ->
   snd (move_data_to_edw connected db) = [moved]) /\
  (snd (move_data_to_edw connected db) = [moved] \/
   edw_after (move_data_to_edw connected db) = edw_stock_data db).
Proof.
  split; [| split].
  - intros H. destruct (moved_inv _ _ H) as [Hc [tbl' [seq' [E _]]]].
    split; [exact Hc |].
    destruct (insert_on_conflict_succeeded _ _ _ _ _ _ E) as [H1 [H2 _]].
    auto.
  - intros -> Hc Hn Hb Hr.
    destruct (insert_on_conflict_succeeds (stg_stock_data db) []
                (edw_stock_data db) (edw_RecordID_seq db) Hc Hn)
      as [tbl' [seq' E]]; [intros r t _ [] | exact Hb | exact Hr |].
    unfold move_data_to_edw. simpl negb. cbv iota. now rewrite E.
  - unfold move_data_to_edw, edw_after, moved.
    destruct connected; simpl; [| now right].
    destruct (insert_on_conflict (stg_stock_data db) [] (edw_stock_data db)
                                 (edw_RecordID_seq db))
      as [[e | tbl'] seq']; simpl; [now right | now left].
Qed.

Lemma move_data_to_edw_all_or_nothing_witness :
  snd (move_data_to_edw true sample_db) = [moved].
Proof.
  apply (proj1 (proj2 (move_data_to_edw_all_or_nothing true sample_db))).
  - reflexivity.
  - reflexivity.
  - simpl. constructor.
    + intros [H | []]. discriminate H.
    + constructor; [intros [] | constructor].
  - simpl. constructor; [simpl; lia | constructor].
  - simpl. unfold serial_max. lia.
Defined.

(** ** What the merge does to a row *)

Lemma settled_reflects (r : stock_row) (tbl : list stock_row) :
  settled r tbl ->
  exists x, In x tbl /\ key x = key r /\ values x = values r.
Proof.
  induction tbl as [| x t IH]; intros H.
  - specialize (H 0%Z). discriminate H.
  - pose proof (H 0%Z) as H0. simpl in H0.
    destruct (same_key x r) eqn:E.
    + exists x. split; [now left |]. split; [now apply same_key_eq |].
      injection H0 as H0. rewrite <- H0 at 1. reflexivity.
    + destruct IH as [y [Hy Hk]].
      * intros id. specialize (H id). simpl in H. rewrite E in H.
        now injection H.
      * exists y. split; [now right | exact Hk].
Qed.

(** X14: after a merge that goes through (the call logs its success), every
    staging row is in the enterprise table: some row there has its
    (symbol, date) pair and its open, high, low, close and volume. *)
Theorem move_data_to_edw_reflects_staging
  (connected : bool) (db : database) (r : stock_row) :
  snd (move_data_to_edw connected db) = [moved] ->
  In r (stg_stock_data db) ->
  exists x,
    In x (edw_after (move_data_to_edw connected db)) /\
    key x = key r /\ values x = values r.
Proof.
  intros H Hr. apply settled_reflects.
  destruct (moved_inv _ _ H) as [_ [tbl' [seq' [E ->]]]].
  apply (insert_on_conflict_settles _ _ _ _ _ _ E); [intros y [] | exact Hr].
Qed.

Lemma move_data_to_edw_reflects_staging_witness :
  exists x,
    In x (edw_after (move_data_to_edw true sample_db)) /\
    key x = key (bar 1 "AAPL" (mkDate 2024 1 2) 110) /\
    values x = values (bar 1 "AAPL" (mkDate 2024 1 2) 110).
Proof.
  apply (move_data_to_edw_reflects_staging true sample_db).
  - reflexivity.
  - simpl. left. reflexivity.
Defined.

Lemma put_keeps (x r : stock_row) (id : Z) (tbl : list stock_row) :
  key x <> key r -> In x tbl -> In x (put r id tbl).
Proof.
  intros Hk. induction tbl as [| y t IH]; intros Hin; [destruct Hin |].
  simpl. destruct (same_key y r) eqn:E.
  - destruct Hin as [-> | Hin]; [| now right].
    apply same_key_eq in E. contradiction.
  - destruct Hin as [-> | Hin]; [now left | right; now apply IH].
Qed.

Lemma insert_on_conflict_keeps (x : stock_row) (src : list stock_row) :
  forall touched tbl seq tbl' seq',
    insert_on_conflict src touched tbl seq = (inr tbl', seq') ->
    (forall r, In r src -> key x <> key r) ->
    In x tbl -> In x tbl'.
Proof.
  induction src as [| y rest IH]; intros touched tbl seq tbl' seq' H Hk Hin.
  - simpl in H. now injection H as <- _.
  - accepted_row H.
    apply (IH _ _ _ _ _ H).
    + intros r Hr. apply Hk. now right.
    + apply put_keeps; [apply Hk; now left | assumption].
Qed.

(** X15: a row of the enterprise table whose (symbol, date) pair is not in
    the staging table is still there, unchanged, after the call, whether
    the merge goes through or not. *)
Theorem move_data_to_edw_keeps_other_rows
  (connected : bool) (db : database) (x : stock_row) :
  In x (edw_stock_data db) ->
  (forall r, In r (stg_stock_data db) -> key x <> key r) ->
  In x (edw_after (move_data_to_edw connected db)).
Proof.
  intros Hin Hk. unfold edw_after, move_data_to_edw.
  destruct connected; simpl; [| exact Hin].
  destruct (insert_on_conflict (stg_stock_data db) [] (edw_stock_data db)
                               (edw_RecordID_seq db))
    as [[e | tbl'] seq'] eqn:E; simpl; [exact Hin |].
  now apply (insert_on_conflict_keeps x _ _ _ _ _ _ E).
Qed.

Lemma move_data_to_edw_keeps_other_rows_witness :
  In (bar 7 "MSFT" (mkDate 2024 1 2) 400)
     (edw_after
        (move_data_to_edw true
           {| stg_stock_data := stg_stock_data sample_db;
              edw_stock_data := [bar 7 "MSFT" (mkDate 2024 1 2) 400];
              edw_RecordID_seq := 8 |})).
Proof.
  apply move_data_to_edw_keeps_other_rows.
  - simpl. left. reflexivity.
  - simpl. intros r [<- | [<- | []]]; discriminate.
Defined.

(** ** Identity of the rows *)

Lemma put_ident (r : stock_row) (id : Z) (tbl : list stock_row) :
  exists added,
    map ident (put r id tbl) = map ident tbl ++ added /\
    Forall (fun a => fst a = id) added.
Proof.
  induction tbl as [| x t IH]; simpl.
  - exists [ident (with_id id r)]. split; [reflexivity |].
    repeat constructor.
  - destruct (same_key x r); simpl.
    + exists []. split; [now rewrite app_nil_r | constructor].
    + destruct IH as [added [H1 H2]]. exists added.
      split; [now rewrite H1 | exact H2].
Qed.

Lemma insert_on_conflict_ident (src : list stock_row) :
  forall touched tbl seq tbl' seq',
    insert_on_conflict src touched tbl seq = (inr tbl', seq') ->
    exists added,
      map ident tbl' = map ident tbl ++ added /\
      Forall (fun a => (seq <= fst a < seq')%Z) added /\
      (seq <= seq')%Z.
Proof.
  induction src as [| y rest IH]; intros touched tbl seq tbl' seq' H.
  - simpl in H. injection H as <- <-. exists [].
    split; [now rewrite app_nil_r |]. split; [constructor | lia].
  - accepted_row H.
    destruct (IH _ _ _ _ _ H) as [added [H1 [H2 H3]]].
    destruct (put_ident y seq tbl) as [first [F1 F2]].
    exists (first ++ added). split; [| split].
    + now rewrite H1, F1, app_assoc.
    + apply Forall_app. split.
      * eapply Forall_impl; [| exact F2]. simpl. intros a Ha. lia.
      * eapply Forall_impl; [| exact H2]. simpl. intros a Ha. lia.
    + lia.
Qed.

(** X16: the merge leaves the identity of the rows intact.  The rows the
    enterprise table had keep their place, their identifier, their symbol
    and their date; what the call adds comes after them, under identifiers
    drawn from the sequence. *)
Theorem move_data_to_edw_keeps_identity (connected : bool) (db : database) :
  exists added,
    map ident (edw_after (move_data_to_edw connected db)) =
    map ident (edw_stock_data db) ++ added /\
    Forall (fun a => (edw_RecordID_seq db <= fst a)%Z) added.
Proof.
  unfold edw_after, move_data_to_edw.
  destruct connected; simpl.
  - destruct (insert_on_conflict (stg_stock_data db) [] (edw_stock_data db)
                                 (edw_RecordID_seq db))
      as [[e | tbl'] seq'] eqn:E; simpl.
    + exists []. split; [now rewrite app_nil_r | constructor].
    + destruct (insert_on_conflict_ident _ _ _ _ _ _ E)
        as [added [H1 [H2 _]]].
      exists added. split; [exact H1 |].
      eapply Forall_impl; [| exact H2]. simpl. intros a Ha. lia.
  - exists []. split; [now rewrite app_nil_r | constructor].
Qed.

(** ** The CHECK constraints *)

Lemma put_checks (r : stock_row) (id : Z) (tbl : list stock_row) :
  checks r = true ->
  Forall (fun x => checks x = true) tbl ->
  Forall (fun x => checks x = true) (put r id tbl).
Proof.
  intros Hr. induction 1 as [| x t Hx Ht IH]; simpl.
  - constructor; [exact Hr | constructor].
  - destruct (same_key x r).
    + constructor; [exact Hr | exact Ht].
    + constructor; [exact Hx | exact IH].
Qed.

Lemma insert_on_conflict_checks (src : list stock_row) :
  forall touched tbl seq tbl' seq',
    insert_on_conflict src touched tbl seq = (inr tbl', seq') ->
    Forall (fun x => checks x = true) tbl ->
    Forall (fun x => checks x = true) tbl'.
Proof.
  induction src as [| y rest IH]; intros touched tbl seq tbl' seq' H Hc.
  - simpl in H. now injection H as <- _.
  - accepted_row H.
    apply (IH _ _ _ _ _ H). now apply put_checks.
Qed.

(** X17: an enterprise table whose rows satisfy the CHECK constraints (no
    negative open, high, low, close or volume) still satisfies them after
    the call. *)
Theorem move_data_to_edw_keeps_checks (connected : bool) (db : database) :
  Forall (fun x => checks x = true) (edw_stock_data db) ->
  Forall (fun x => checks x = true)
         (edw_after (move_data_to_edw connected db)).
Proof.
  intros Hc. unfold edw_after, move_data_to_edw.
  destruct connected; simpl; [| exact Hc].
  destruct (insert_on_conflict (stg_stock_data db) [] (edw_stock_data db)
                               (edw_RecordID_seq db))
    as [[e | tbl'] seq'] eqn:E; simpl; [exact Hc |].
  now apply (insert_on_conflict_checks _ _ _ _ _ _ E).
Qed.

Lemma move_data_to_edw_keeps_checks_witness :
  Forall (fun x => checks x = true)
         (edw_after (move_data_to_edw true sample_db)).
Proof.
  apply move_data_to_edw_keeps_checks.
  simpl. constructor; [reflexivity | constructor].
Defined.

(** ** How many rows *)

Lemma length_put (r : stock_row) (id : Z) (tbl : list stock_row) :
  List.length (put r id tbl) =
  (List.length tbl + if known tbl r then 0 else 1)%nat.
Proof.
  unfold known. induction tbl as [| x t IH]; simpl; [reflexivity |].
  destruct (same_key x r); simpl; [lia |].
  rewrite IH. lia.
Qed.

Lemma known_put (r r' : stock_row) (id : Z) (tbl : list stock_row) :
  key r' <> key r -> known (put r id tbl) r' = known tbl r'.
Proof.
  intros Hk. unfold known. induction tbl as [| x t IH]; simpl.
  - rewrite orb_false_r. apply same_key_neq.
    rewrite key_with_id. congruence.
  - destruct (same_key x r) eqn:E; simpl.
    + reflexivity.
    + now rewrite IH.
Qed.

Lemma insert_on_conflict_length (src : list stock_row) :
  forall touched tbl seq tbl' seq',
    insert_on_conflict src touched tbl seq = (inr tbl', seq') ->
    List.length tbl' =
    (List.length tbl
     + List.length (filter (fun r => negb (known tbl r)) src))%nat.
Proof.
  induction src as [| y rest IH]; intros touched tbl seq tbl' seq' H.
  - simpl in H. injection H as <- _. simpl. lia.
  - destruct (insert_on_conflict_succeeded _ _ _ _ _ _ H) as [_ [Hnd _]].
    inversion Hnd as [| ? ? Hy _]; subst.
    accepted_row H.
    rewrite (IH _ _ _ _ _ H), length_put.
    rewrite (filter_ext_in
               (fun r => negb (known (put y seq tbl) r))
               (fun r => negb (known tbl r))).
    + simpl. destruct (known tbl y); simpl; lia.
    + intros r Hr. f_equal. apply known_put.
      intros Hk. apply Hy. rewrite <- Hk. now apply in_map.
Qed.

(** X18: a merge that goes through (the call logs its success) adds one row
    for every staging row whose (symbol, date) pair the enterprise table
    did not have, and no other: a staging row that meets an existing pair
    changes no count. *)
Theorem move_data_to_edw_row_count (connected : bool) (db : database) :
  snd (move_data_to_edw connected db) = [moved] ->
  List.length (edw_after (move_data_to_edw connected db)) =
  (List.length (edw_stock_data db)
   + List.length (filter (fun r => negb (known (edw_stock_data db) r))
                         (stg_stock_data db)))%nat.
Proof.
  intros H. destruct (moved_inv _ _ H) as [_ [tbl' [seq' [E ->]]]].
  apply (insert_on_conflict_length _ _ _ _ _ _ E).
Qed.

Lemma move_data_to_edw_row_count_witness :
  List.length (edw_after (move_data_to_edw true sample_db)) =
  (List.length (edw_stock_data sample_db)
   + List.length (filter (fun r => negb (known (edw_stock_data sample_db) r))
                         (stg_stock_data sample_db)))%nat.
Proof.
  apply (move_data_to_edw_row_count true sample_db). reflexivity.
Defined.

End load_more.

(** * Further facts about main2.py *)

Module main2_more.
Import main2 main2_spec main2_terms.

(** ** The staging table *)

Lemma keeps_ret {A : Type} (a : A) : keeps_staging (ret a).
Proof. intros w. reflexivity. Qed.

Lemma keeps_raise {A : Type} (x : exn) : keeps_staging (@raise A x).
Proof. intros w. reflexivity. Qed.

Lemma keeps_bind {A B : Type} (m : M A) (k : A -> M B) :
  keeps_staging m -> (forall a, keeps_staging (k a)) ->
  keeps_staging (bind m k).
Proof.
  intros Hm Hk w. unfold bind. specialize (Hm w).
  destruct (m w) as [[x | a] w'] eqn:E; simpl in *; [exact Hm |].
  rewrite <- Hm. apply Hk.
Qed.

Lemma keeps_log_message (l : level) (m : message) :
  keeps_staging (log_message l m).
Proof. intros w. reflexivity. Qed.

Lemma keeps_log_all (entries : list log_entry) :
  keeps_staging (log_all entries).
Proof. intros w. reflexivity. Qed.

Lemma keeps_called (c : call) : keeps_staging (called c).
Proof. intros w. reflexivity. Qed.

Lemma keeps_write_file (path : string) (size : N) :
  keeps_staging (write_file path size).
Proof. intros w. reflexivity. Qed.

Lemma keeps_save (e : env) (prefix : string) :
  keeps_staging (save e prefix).
Proof.
  unfold save. apply keeps_bind; [apply keeps_called | intros _].
  destruct (to_csv e prefix) as [[path size] |].
  - apply keeps_bind; [apply keeps_write_file | intros _].
    apply keeps_bind; [apply keeps_log_message | intros _].
    apply keeps_ret.
  - apply keeps_bind; [apply keeps_log_message | intros _].
    apply keeps_ret.
Qed.

Lemma keeps_load_stage (file : option string) :
  keeps_staging (load_stage file).
Proof.
  unfold load_stage. apply keeps_bind; [apply keeps_called | intros _].
  destruct file as [path |];
    [| apply keeps_bind; [apply keeps_log_message | intros _];
       apply keeps_raise].
  intros w. unfold load.load_data_to_postgres.
  destruct (files w path) as [size |]; [| reflexivity].
  destruct (size =? 0)%N; reflexivity.
Qed.

Lemma keeps_move_stage (e : env) : keeps_staging (move_stage e).
Proof.
  unfold move_stage. apply keeps_bind; [apply keeps_called | intros _].
  intros w. unfold load.move_data_to_edw.
  destruct (connected e); simpl; [| reflexivity].
  destruct (load.insert_on_conflict (load.stg_stock_data (db w)) []
              (load.edw_stock_data (db w)) (load.edw_RecordID_seq (db w)))
    as [[x | tbl] seq]; reflexivity.
Qed.

Lemma keeps_transform_stage (df : transform.raw_frame) :
  keeps_staging (transform_stage df).
Proof.
  unfold transform_stage. apply keeps_bind; [apply keeps_called | intros _].
  destruct (transform.transform_data df) as [out entries].
  apply keeps_bind; [apply keeps_log_all | intros _]. apply keeps_ret.
Qed.

Lemma keeps_aggregate_stage (df : frame) :
  keeps_staging (aggregate_stage df).
Proof.
  unfold aggregate_stage. apply keeps_bind; [apply keeps_called | intros _].
  apply keeps_bind; [apply keeps_log_all | intros _]. apply keeps_ret.
Qed.

(** X19: no run of the driver changes the staging table.  The load stage
    writes nothing into it and the merge only reads it, so what the merge
    moves is what was in staging before the run. *)
Theorem main_never_writes_staging (e : env) (w : world) :
  load.stg_stock_data (db (snd (main e w))) = load.stg_stock_data (db w).
Proof.
  revert w. change (keeps_staging (main e)). unfold main.
  repeat (apply keeps_bind;
          [first [apply keeps_log_message | apply keeps_called] | intros _]).
  apply keeps_bind; [| intros _; apply keeps_log_message].
  destruct (negb (transform.raw_empty (extracted e)));
    [| apply keeps_log_message].
  apply keeps_bind; [apply keeps_save | intros _].
  apply keeps_bind; [apply keeps_log_message | intros _].
  apply keeps_bind; [apply keeps_transform_stage | intros out].
  destruct (negb (empty out)); [| apply keeps_log_message].
  apply keeps_bind; [apply keeps_save | intros file].
  apply keeps_bind; [apply keeps_log_message | intros _].
  apply keeps_bind; [apply keeps_load_stage | intros _].
  apply keeps_bind; [apply keeps_log_message | intros _].
  apply keeps_bind; [apply keeps_move_stage | intros _].
  apply keeps_bind; [apply keeps_log_message | intros _].
  apply keeps_bind; [apply keeps_aggregate_stage | intros agg].
  apply keeps_bind; [| intros _; apply keeps_log_message].
  destruct (negb (aggregated.summary_empty agg));
    [| apply keeps_log_message].
  apply keeps_bind; [apply keeps_save | intros f].
  apply keeps_log_message.
Qed.

(** ** Runs that go past the transformation *)

(** X20: when the transformed frame cannot be written, the load stage is
    called without a file and raises TypeError; nothing catches it, so the
    run ends there: no merge and no aggregation are called and the
    warehouse is as it was. *)
Theorem main_aborts_after_failed_save (e : env) (w : world) :
  transform.raw_empty (extracted e) = false ->
  empty (fst (transform.transform_data (extracted e))) = false ->
  to_csv e "transformed_data" = None ->
  fst (main e w) =
    inl (TypeError
           "stat: path should be string, bytes, os.PathLike or integer, not NoneType") /\
  calls (snd (main e w)) =
    calls w ++ [create_schemas_and_tables; ensure_directory_exists;
                extract_data; save_with_timestamp "extracted_stock_data";
                transform_data; save_with_timestamp "transformed_data";
                load_data_to_postgres None] /\
  db (snd (main e w)) = db w.
Proof.
  intros Hx Ht Hs.
  unfold main, save, transform_stage, load_stage, bind, called,
    log_message, log_all, write_file, ret, raise.
  rewrite Hx.
  destruct (transform.transform_data (extracted e)) as [out entries].
  simpl in Ht.
  destruct (to_csv e "extracted_stock_data") as [[path size] |];
    simpl; rewrite Ht; simpl; rewrite Hs; simpl;
    (split; [reflexivity |]);
    (split; [now rewrite <- !app_assoc | reflexivity]).
Qed.

Lemma main_aborts_after_failed_save_witness :
  fst (main failed_save_run fresh) =
    inl (TypeError
           "stat: path should be string, bytes, os.PathLike or integer, not NoneType") /\
  calls (snd (main failed_save_run fresh)) =
    calls fresh ++ [create_schemas_and_tables; ensure_directory_exists;
                    extract_data; save_with_timestamp "extracted_stock_data";
                    transform_data; save_with_timestamp "transformed_data";
                    load_data_to_postgres None] /\
  db (snd (main failed_save_run fresh)) = db fresh.
Proof.
  apply (main_aborts_after_failed_save failed_save_run fresh); reflexivity.
Defined.

(** X21: a merge that fails does not stop the run.  When the warehouse
    refuses the connection, the driver logs the error of the merge, goes on
    to call the aggregation, and logs that the pipeline completed
    successfully; the warehouse is as it was. *)
Theorem main_goes_on_after_failed_merge
  (e : env) (w : world) (path : string) (size : N) :
  transform.raw_empty (extracted e) = false ->
  empty (fst (transform.transform_data (extracted e))) = false ->
  to_csv e "transformed_data" = Some (path, size) ->
  size <> 0%N ->
  connected e = false ->
  fst (main e w) = inr tt /\
  db (snd (main e w)) = db w /\
  In move_data_to_edw (calls (snd (main e w))) /\
  In aggregate_data (calls (snd (main e w))) /\
  In (error, MsgExn "Error moving data to EDW: "
                    (OperationalError "connect"))
     (log (snd (main e w))) /\
  In (info, Msg "ETL pipeline completed successfully.")
     (log (snd (main e w))).
Proof.
  intros Hx Ht Hs Hz Hc.
  unfold main, save, transform_stage, load_stage, move_stage,
    aggregate_stage, bind, called, log_message, log_all, write_file, ret,
    raise, load.load_data_to_postgres, load.move_data_to_edw.
  rewrite Hx, Hc.
  destruct (transform.transform_data (extracted e)) as [out entries].
  simpl in Ht.
  apply N.eqb_neq in Hz.
  destruct (to_csv e "extracted_stock_data") as [[p0 s0] |];
    simpl; rewrite Ht; simpl; rewrite Hs; simpl;
    rewrite String.eqb_refl, Hz; simpl;
    destruct (aggregated.summary_empty
                (aggregated.returned (aggregated.aggregate_data out)));
    simpl;
    try (destruct (to_csv e "aggregated_data") as [[p1 s1] |]; simpl);
    repeat split;
    repeat (rewrite in_app_iff; simpl); tauto.
Qed.

Lemma main_goes_on_after_failed_merge_witness :
  fst (main offline_run waiting) = inr tt /\
  db (snd (main offline_run waiting)) = db waiting /\
  In move_data_to_edw (calls (snd (main offline_run waiting))) /\
  In aggregate_data (calls (snd (main offline_run waiting))) /\
  In (error, MsgExn "Error moving data to EDW: "
                    (OperationalError "connect"))
     (log (snd (main offline_run waiting))) /\
  In (info, Msg "ETL pipeline completed successfully.")
     (log (snd (main offline_run waiting))).
Proof.
  apply (main_goes_on_after_failed_merge offline_run waiting
           (csv_path "transformed_data") 64%N);
    try reflexivity.
  discriminate.
Defined.

(** ** Runs that stop at the extraction *)

(** X22: when the extraction returns an empty frame, the driver calls no
    stage after it: it writes no file, leaves the warehouse as it was, logs
    that the extraction failed and ends normally. *)
Theorem main_after_empty_extraction (e : env) (w : world) :
  transform.raw_empty (extracted e) = true ->
  fst (main e w) = inr tt /\
  calls (snd (main e w)) =
    calls w ++ [create_schemas_and_tables; ensure_directory_exists;
                extract_data] /\
  db (snd (main e w)) = db w /\
  files (snd (main e w)) = files w /\
  log (snd (main e w)) =
    log w ++ [(info, Msg "ETL process started");
              (info, Msg "Creating schemas and tables");
              (info, Msg "Starting extraction phase");
              (error, Msg "Extraction failed. ETL process terminated.");
              (info, Msg "ETL process completed")].
Proof.
  intros Hx. unfold main, bind, called, log_message. rewrite Hx. simpl.
  repeat split; now rewrite <- !app_assoc.
Qed.

Lemma main_after_empty_extraction_witness :
  fst (main empty_run fresh) = inr tt /\
  calls (snd (main empty_run fresh)) =
    calls fresh ++ [create_schemas_and_tables; ensure_directory_exists;
                    extract_data] /\
  db (snd (main empty_run fresh)) = db fresh /\
  files (snd (main empty_run fresh)) = files fresh /\
  log (snd (main empty_run fresh)) =
    log fresh ++ [(info, Msg "ETL process started");
                  (info, Msg "Creating schemas and tables");
                  (info, Msg "Starting extraction phase");
                  (error, Msg "Extraction failed. ETL process terminated.");
                  (info, Msg "ETL process completed")].
Proof.
  apply (main_after_empty_extraction empty_run fresh). reflexivity.
Defined.

End main2_more.

(** * Facts about the files of aggregated.py *)

Module files_more.
Import aggregated_files.

Local Open Scope Q_scope.

(** ** Names *)

Lemma startswith_append (p s : string) : startswith p (p ++ s) = true.
Proof.
  unfold startswith. induction p as [| a p IH]; simpl.
  - now destruct s.
  - destruct (ascii_dec a a) as [_ | H]; [exact IH | now elim H].
Qed.

Lemma endswith_cons (extension : string) (a : ascii) (t : string) :
  endswith extension (String a t) =
  if String.eqb (String a t) extension then true else endswith extension t.
Proof. reflexivity. Qed.

Lemma endswith_refl (extension : string) :
  endswith extension extension = true.
Proof.
  destruct extension as [| a t]; [reflexivity |].
  rewrite endswith_cons. now rewrite String.eqb_refl.
Qed.

Lemma endswith_append (s extension : string) :
  endswith extension (s ++ extension) = true.
Proof.
  induction s as [| a s IH].
  - apply endswith_refl.
  - change (String a s ++ extension)%string
      with (String a (s ++ extension)).
    rewrite endswith_cons, IH.
    now destruct (String.eqb (String a (s ++ extension)) extension).
Qed.

Lemma append_assoc (a b c : string) :
  ((a ++ b) ++ c)%string = (a ++ b ++ c)%string.
Proof.
  induction a as [| x a IH]; simpl; [reflexivity | now rewrite IH].
Qed.

Lemma timestamped_selected (prefix timestamp : string) (t : option Q) :
  selected prefix ".csv" (timestamped prefix timestamp, t) = true.
Proof.
  unfold selected. cbn [fst].
  assert (E : timestamped prefix timestamp
              = ((prefix ++ "_" ++ timestamp) ++ ".csv")%string).
  { unfold timestamped. now rewrite !append_assoc. }
  rewrite E at 2. rewrite endswith_append.
  unfold timestamped. now rewrite startswith_append.
Qed.

(** ** The newest file *)

Lemma mtimes_In (l : list entry) :
  forall ts, mtimes l = Some ts ->
    forall name t, In (name, t) ts <-> In (name, Some t) l.
Proof.
  induction l as [| [n [u |]] rest IH]; intros ts H name t.
  - simpl in H. injection H as <-. reflexivity.
  - simpl in H. destruct (mtimes rest) as [ts' |]; [| discriminate H].
    injection H as <-. simpl. rewrite (IH ts' eq_refl).
    split; intros [E | E]; auto; left; congruence.
  - discriminate H.
Qed.

Lemma mtimes_none (l : list entry) :
  mtimes l = None <-> exists name, In (name, None) l.
Proof.
  induction l as [| [n [u |]] rest IH]; simpl.
  - split; [discriminate | intros [name []]].
  - destruct (mtimes rest) as [ts' |].
    + split; [discriminate |]. intros [name [E | E]]; [discriminate E |].
      assert (H : exists name0, In (name0, @None Q) rest) by eauto.
      apply IH in H. discriminate H.
    + split; [| reflexivity]. intros _.
      destruct (proj1 IH eq_refl) as [name Hn]. eauto.
  - split; [| reflexivity]. intros _. exists n. now left.
Qed.

Lemma max_from_spec (l : list (string * Q)) :
  forall best,
    In (max_from best l) (best :: l) /\
    forall x, In x (best :: l) -> snd x <= snd (max_from best l).
Proof.
  induction l as [| y t IH]; intros best; simpl.
  - split; [now left |]. intros x [<- | []]. apply Qle_refl.
  - destruct (Qle_bool (snd y) (snd best)) eqn:E.
    + destruct (IH best) as [H1 H2]. split.
      * destruct H1 as [H1 | H1]; [now left | right; now right].
      * intros x [<- | [<- | Hx]].
        -- apply H2. now left.
        -- apply Qle_trans with (snd best);
             [now apply Qle_bool_iff | apply H2; now left].
        -- apply H2. now right.
    + destruct (IH y) as [H1 H2]. split.
      * destruct H1 as [H1 | H1]; [right; now left | right; now right].
      * intros x [<- | [<- | Hx]].
        -- apply Qle_trans with (snd y); [| apply H2; now left].
           apply Qlt_le_weak, Qnot_le_lt. intros H.
           apply Qle_bool_iff in H. congruence.
        -- apply H2. now left.
        -- apply H2. now right.
Qed.

Lemma max_from_unique (l : list (string * Q)) :
  forall best x,
    In x (best :: l) ->
    (forall y, In y (best :: l) -> y = x \/ snd y < snd x) ->
    max_from best l = x.
Proof.
  induction l as [| y t IH]; intros best x Hin Hlt; simpl.
  - destruct Hin as [-> | []]. reflexivity.
  - destruct (Qle_bool (snd y) (snd best)) eqn:E.
    + apply IH.
      * destruct Hin as [-> | [-> | Hin]]; [now left | | now right].
        destruct (Hlt best (or_introl eq_refl)) as [-> | H]; [now left |].
        apply Qle_bool_iff in E. exfalso.
        apply (Qlt_not_le _ _ H E).
      * intros z [<- | Hz]; apply Hlt; [now left | right; now right].
    + apply IH.
      * destruct Hin as [-> | [-> | Hin]]; [| now left | now right].
        destruct (Hlt y (or_intror (or_introl eq_refl))) as [-> | H];
          [now left |].
        exfalso. assert (Hle : snd y <= snd x) by now apply Qlt_le_weak.
        apply Qle_bool_iff in Hle. congruence.
      * intros z [<- | Hz]; apply Hlt; right; [now left | now right].
Qed.

(** X23: when [get_latest_file] returns a path, it is the directory joined
    with the name of an entry that has the prefix and the extension asked
    for, and no entry with that prefix and extension was modified later. *)
Theorem get_latest_file_is_newest
  (join : string -> string -> string) (l : list entry)
  (directory prefix extension path : string) :
  fst (get_latest_file join (Some l) directory prefix extension)
  = Some path ->
  exists name t,
    path = join directory name /\
    In (name, Some t) l /\
    startswith prefix name = true /\
    endswith extension name = true /\
    forall name' t',
      In (name', Some t') l ->
      selected prefix extension (name', Some t') = true ->
      t' <= t.
Proof.
  unfold get_latest_file.
  destruct (filter (selected prefix extension) l) as [| f fs] eqn:F;
    [discriminate |].
  destruct (mtimes (f :: fs)) as [[| first rest] |] eqn:M;
    try discriminate.
  simpl. intros H. injection H as <-.
  destruct (max_from_spec rest first) as [H1 H2].
  destruct (max_from first rest) as [name t] eqn:E.
  exists name, t. split; [reflexivity |].
  apply (mtimes_In _ _ M) in H1. rewrite <- F in H1.
  apply filter_In in H1. destruct H1 as [Hl Hs].
  unfold selected in Hs. apply andb_prop in Hs. simpl in Hs.
  split; [exact Hl |]. split; [tauto |]. split; [tauto |].
  intros name' t' Hin Hsel.
  assert (Hf : In (name', Some t') (f :: fs)).
  { rewrite <- F. apply filter_In. now split. }
  apply (mtimes_In _ _ M) in Hf. apply (H2 _ Hf).
Qed.

Lemma get_latest_file_is_newest_witness :
  exists name t,
    "dataset/transformed_data_20241220_090000.csv"%string
    = posix_join "dataset" name /\
    In (name, Some t) sample_listing /\
    startswith "transformed_data" name = true /\
    endswith ".csv" name = true /\
    forall name' t',
      In (name', Some t') sample_listing ->
      selected "transformed_data" ".csv" (name', Some t') = true ->
      t' <= t.
Proof.
  apply (get_latest_file_is_newest posix_join sample_listing "dataset"
           "transformed_data" ".csv").
  reflexivity.
Defined.

(** X24: [get_latest_file] returns no path exactly when the directory
    cannot be listed, or no entry has the prefix and the extension, or the
    modification time of one such entry cannot be read. *)
Theorem get_latest_file_none
  (join : string -> string -> string) (listing : option (list entry))
  (directory prefix extension : string) :
  fst (get_latest_file join listing directory prefix extension) = None <->
  listing = None \/
  exists l,
    listing = Some l /\
    ((forall f, In f l -> selected prefix extension f = false) \/
     exists name,
       In (name, None) l /\
       selected prefix extension (name, None) = true).
Proof.
  unfold get_latest_file. destruct listing as [l |]; [| simpl; tauto].
  destruct (filter (selected prefix extension) l) as [| f fs] eqn:F.
  - simpl. split; [intros _ | reflexivity].
    right. exists l. split; [reflexivity |]. left. intros g Hg.
    destruct (selected prefix extension g) eqn:E; [| reflexivity].
    assert (Hin : In g (filter (selected prefix extension) l))
      by (apply filter_In; now split).
    rewrite F in Hin. destruct Hin.
  - destruct (mtimes (f :: fs)) as [[| first rest] |] eqn:M.
    + simpl in M. destruct f as [n [u |]]; [| discriminate M].
      destruct (mtimes fs); discriminate M.
    + simpl. split; [discriminate |].
      intros [H | [l' [E [H | [name [Hn Hs]]]]]]; [discriminate H | |];
        injection E as <-.
      * assert (Hin : In f (filter (selected prefix extension) l))
          by (rewrite F; now left).
        apply filter_In in Hin. destruct Hin as [Hl Hs].
        rewrite (H f Hl) in Hs. discriminate Hs.
      * assert (Hin : In (name, @None Q) (f :: fs)).
        { rewrite <- F. apply filter_In. now split. }
        assert (Hm : mtimes (f :: fs) = None)
          by (apply mtimes_none; eauto).
        congruence.
    + simpl. split; [intros _ | reflexivity].
      right. exists l. split; [reflexivity |]. right.
      apply mtimes_none in M. destruct M as [name Hn].
      rewrite <- F in Hn. apply filter_In in Hn. exists name. tauto.
Qed.

(** X25: a file saved by [save_with_timestamp] is what [get_latest_file]
    returns for the same directory and prefix, as long as every other
    entry with that prefix and the .csv extension was modified strictly
    earlier. *)
Theorem saved_file_is_latest
  (join : string -> string -> string) (l : list entry)
  (directory prefix timestamp : string) (t : Q) :
  In (timestamped prefix timestamp, Some t) l ->
  (forall f,
     In f l -> selected prefix ".csv" f = true ->
     f = (timestamped prefix timestamp, Some t) \/
     exists u, snd f = Some u /\ u < t) ->
  fst (get_latest_file join (Some l) directory prefix ".csv") =
  fst (fst (save_with_timestamp join timestamp true directory prefix)).
Proof.
  intros Hin Hold.
  change (fst (fst (save_with_timestamp join timestamp true directory
                      prefix)))
    with (Some (join directory (timestamped prefix timestamp))).
  unfold get_latest_file.
  assert (Hsel : In (timestamped prefix timestamp, Some t)
                    (filter (selected prefix ".csv") l)).
  { apply filter_In. split; [exact Hin | apply timestamped_selected]. }
  destruct (filter (selected prefix ".csv") l) as [| f fs] eqn:F;
    [destruct Hsel |].
  destruct (mtimes (f :: fs)) as [[| first rest] |] eqn:M.
  - simpl in M. destruct f as [n [u |]]; [| discriminate M].
    destruct (mtimes fs); discriminate M.
  - cbn [fst].
    rewrite (max_from_unique rest first (timestamped prefix timestamp, t));
      [reflexivity | now apply (mtimes_In _ _ M) |].
    intros [n u] Hy. apply (mtimes_In _ _ M) in Hy. rewrite <- F in Hy.
    apply filter_In in Hy. destruct Hy as [Hl Hs].
    destruct (Hold _ Hl Hs) as [E | [v [E Hv]]].
    + left. congruence.
    + right. simpl in E. injection E as <-. exact Hv.
  - exfalso. apply mtimes_none in M. destruct M as [name Hn].
    rewrite <- F in Hn. apply filter_In in Hn. destruct Hn as [Hl Hs].
    destruct (Hold _ Hl Hs) as [E | [v [E _]]]; discriminate E.
Qed.

Lemma saved_file_is_latest_witness :
  fst (get_latest_file posix_join (Some sample_listing) "dataset"
         "transformed_data" ".csv") =
  fst (fst (save_with_timestamp posix_join "20241220_090000" true
              "dataset" "transformed_data")).
Proof.
  apply (saved_file_is_latest posix_join sample_listing "dataset"
           "transformed_data" "20241220_090000" 250).
  - simpl. right. right. left. reflexivity.
  - intros f [<- | [<- | [<- | [<- | []]]]] Hs.
    + right. exists 100. split; reflexivity.
    + discriminate Hs.
    + left. reflexivity.
    + discriminate Hs.
Defined.

End files_more.

(** * Facts about the scripts *)

Module scripts_more.
Import scripts.

(** X26: [transform.main] writes a file exactly when the extracted file
    exists, is not empty and can be read, the frame [transform_data] makes
    of it is not empty, and the frame can be written; what it writes is
    that frame, under the name transformed_data.csv of the dataset
    directory. *)
Theorem transform_main_writes
  (s : setting transform.raw_frame) (path : string) (df : frame) :
  fst (transform_main s) = Some (path, df) <->
  path = join s DATASET_DIR OUTPUT_FILE_NAME /\
  writable s = true /\
  empty df = false /\
  exists raw size,
    sizes s (join s DATASET_DIR INPUT_FILE_NAME) = Some size /\
    size <> 0%N /\
    read_csv s (join s DATASET_DIR INPUT_FILE_NAME) = inr raw /\
    df = fst (transform.transform_data raw).
Proof.
  unfold transform_main, load_existing_data, save_to_directory.
  destruct (sizes s (join s DATASET_DIR INPUT_FILE_NAME)) as [size |] eqn:Es.
  - destruct (N.eqb_spec size 0) as [-> | Hz].
    + simpl. split; [discriminate |].
      intros [_ [_ [_ [raw [sz [H [Hn _]]]]]]]. injection H as <-.
      now elim Hn.
    + destruct (read_csv s (join s DATASET_DIR INPUT_FILE_NAME))
        as [e | raw] eqn:Er.
      * simpl. split; [discriminate |].
        intros [_ [_ [_ [raw [sz [_ [_ [H _]]]]]]]]. discriminate H.
      * destruct (transform.transform_data raw) as [out l2] eqn:Et.
        destruct (empty out) eqn:Ee; simpl.
        -- split; [discriminate |].
           intros [_ [_ [He [raw' [sz [_ [_ [H ->]]]]]]]].
           injection H as <-. rewrite Et in He. simpl in He. congruence.
        -- destruct (writable s) eqn:Ew; simpl.
           ++ split.
              ** intros H. injection H as <- <-.
                 repeat split; try assumption.
                 exists raw, size. now rewrite Et.
              ** intros [-> [_ [_ [raw' [sz [_ [_ [H ->]]]]]]]].
                 injection H as <-. now rewrite Et.
           ++ split; [discriminate |]. intros [_ [H _]]. discriminate H.
  - simpl. split; [discriminate |].
    intros [_ [_ [_ [raw [sz [H _]]]]]]. discriminate H.
Qed.

(** The batch without the Volume column gives no output file. *)
Example transform_main_no_volume :
  transform_main no_volume_setting =
  (None,
   [(info, Msg "Starting data transformation process");
    (info, MsgPath "Loaded data from "
                   (Some "dataset/extracted_stock_data.csv"));
    (error, MsgLabels "Dataset missing required columns. Found: "
                      ["Date"; "OpenPrice"; "High"; "Low"; "ClosePrice";
                       "Symbol"]);
    (error, Msg "Transformed data is empty. No output file created.")]).
Proof. reflexivity. Qed.

Example transform_main_aapl :
  option_map fst (fst (transform_main aapl_setting)) =
  Some "dataset/transformed_data.csv".
Proof. reflexivity. Qed.

(** X27: [aggregated.main] writes a file exactly when [get_latest_file]
    finds a transformed file, that file can be read, the frame
    [aggregate_data] returns for it is not empty, and the frame can be
    written; what it writes is that frame, in the output directory, under
    the aggregated prefix and the time of the call. *)
Theorem aggregated_main_writes
  (c : constants) (s : setting frame) (path : string)
  (out : aggregated.summary_frame) :
  fst (aggregated_main c s) = Some (path, out) <->
  path = join s (aggregated_output_dir c)
              (aggregated_files.timestamped (aggregated_prefix c) (now s)) /\
  writable s = true /\
  aggregated.summary_empty out = false /\
  exists latest df,
    fst (aggregated_files.get_latest_file
           (join s) (listdir s (dataset_dir c)) (dataset_dir c)
           (transformed_prefix c) ".csv") = Some latest /\
    read_csv s latest = inr df /\
    out = aggregated.returned (aggregated.aggregate_data df).
Proof.
  unfold aggregated_main, aggregated_files.save_with_timestamp.
  destruct (aggregated_files.get_latest_file
              (join s) (listdir s (dataset_dir c)) (dataset_dir c)
              (transformed_prefix c) ".csv") as [[latest |] l1] eqn:Eg;
    simpl.
  - destruct (read_csv s latest) as [e | df] eqn:Er.
    + simpl. split; [discriminate |].
      intros [_ [_ [_ [p [d [H1 [H2 _]]]]]]]. injection H1 as <-.
      congruence.
    + destruct (aggregated.summary_empty
                  (aggregated.returned (aggregated.aggregate_data df)))
        eqn:Ee; simpl.
      * split; [discriminate |].
        intros [_ [_ [He [p [d [H1 [H2 ->]]]]]]]. injection H1 as <-.
        rewrite Er in H2. injection H2 as <-. congruence.
      * destruct (writable s) eqn:Ew; simpl.
        -- split.
           ++ intros H. injection H as <- <-.
              repeat split; try assumption. exists latest, df. auto.
           ++ intros [-> [_ [_ [p [d [H1 [H2 ->]]]]]]].
              injection H1 as <-. rewrite Er in H2. now injection H2 as <-.
        -- split; [discriminate |]. intros [_ [H _]]. discriminate H.
  - split; [discriminate |].
    intros [_ [_ [_ [p [d [H _]]]]]]. discriminate H.
Qed.

Example aggregated_main_aapl :
  option_map fst (fst (aggregated_main defaults aggregation_setting)) =
  Some "dataset/aggregated_data/aggregated_data_20241220_090500.csv".
Proof. reflexivity. Qed.

End scripts_more.
